(** * A shallow embedding of the contact manager of [task_10.py]

    The program keeps an address book (a Python [UserDict] from contact names
    to [Record] objects), validates phone numbers and birthdays when they are
    stored, and answers line commands through handlers decorated with
    [input_error].

    Conventions of the embedding.
    - A Python [str] is the list of its Unicode code points ([list N]); the
      literals of the program are written [py "..."].
    - Python integers are [Z].
    - An exception is a value of [exn]; code that may raise runs in the
      state-and-exception monad [M S], which keeps the state reached when the
      exception is raised (a Python object mutated before a [raise] stays
      mutated).
    - [date.today()] is the parameter [today] of whatever reads the clock.
    - The library functions the program calls ([str.isdigit], [str.strip],
      [datetime.strptime], [date.replace], [date.strftime], date comparison
      and subtraction) are modelled after CPython 3.11 on Linux (glibc),
      with the character tables of Unicode 14.0 and the messages of the C
      implementation of [datetime]. *)

From Stdlib Require Import List ZArith NArith Bool String Ascii Lia.
Import ListNotations.

Open Scope Z_scope.

(* ================================================================= *)
(** ** Python strings *)

Definition str := list N.

(** A literal of the source. *)
Definition py (s : string) : str := map N_of_ascii (list_ascii_of_string s).
Arguments py s%_string : simpl never.

Fixpoint str_eqb (a b : str) : bool :=
  match a, b with
  | [], [] => true
  | x :: a', y :: b' => N.eqb x y && str_eqb a' b'
  | _, _ => false
  end.

(** [prefix in s]: the string starts with [p]. *)
Fixpoint startswith (p s : str) : bool :=
  match p, s with
  | [], _ => true
  | x :: p', y :: s' => N.eqb x y && startswith p' s'
  | _ :: _, [] => false
  end.

(** [p in s] for strings: [p] occurs as a substring of [s]. *)
Fixpoint contains (p s : str) : bool :=
  startswith p s ||
  match s with
  | [] => false
  | _ :: s' => contains p s'
  end.

(** The line feed, ["\n"]. *)
Definition nl : str := [10%N].

(** [sep.join(parts)]. *)
Fixpoint join (sep : str) (parts : list str) : str :=
  match parts with
  | [] => []
  | [x] => x
  | x :: rest => x ++ sep ++ join sep rest
  end.

Module Unicode.

(** Closed intervals of code points. *)
Definition in_ranges (c : N) (rs : list (N * N)) : bool :=
  existsb (fun r => (fst r <=? c)%N && (c <=? snd r)%N) rs.

(** The characters of general category Nd (Numeric_Type=Decimal), the ones
    [str.isdecimal], the regular expression class [\d] and [int()] accept.
    Every interval starts at the digit zero of its script, so the value of a
    character is its offset in the interval modulo ten. *)
Definition decimal_ranges : list (N * N) :=
  [ (48, 57); (1632, 1641); (1776, 1785); (1984, 1993); (2406, 2415);
    (2534, 2543); (2662, 2671); (2790, 2799); (2918, 2927); (3046, 3055);
    (3174, 3183); (3302, 3311); (3430, 3439); (3558, 3567); (3664, 3673);
    (3792, 3801); (3872, 3881); (4160, 4169); (4240, 4249); (6112, 6121);
    (6160, 6169); (6470, 6479); (6608, 6617); (6784, 6793); (6800, 6809);
    (6992, 7001); (7088, 7097); (7232, 7241); (7248, 7257); (42528, 42537);
    (43216, 43225); (43264, 43273); (43472, 43481); (43504, 43513);
    (43600, 43609); (44016, 44025); (65296, 65305); (66720, 66729);
    (68912, 68921); (69734, 69743); (69872, 69881); (69942, 69951);
    (70096, 70105); (70384, 70393); (70736, 70745); (70864, 70873);
    (71248, 71257); (71360, 71369); (71472, 71481); (71904, 71913);
    (72016, 72025); (72784, 72793); (73040, 73049); (73120, 73129);
    (92768, 92777); (92864, 92873); (93008, 93017); (120782, 120831);
    (123200, 123209); (123632, 123641); (125264, 125273);
    (130032, 130041) ]%N.

(** The characters with Numeric_Type=Digit that are not decimals
    (superscripts, subscripts, circled digits and the like). *)
Definition other_digit_ranges : list (N * N) :=
  [ (178, 179); (185, 185); (4969, 4977); (6618, 6618); (8304, 8304);
    (8308, 8313); (8320, 8329); (9312, 9320); (9332, 9340); (9352, 9360);
    (9450, 9450); (9461, 9469); (9471, 9471); (10102, 10110);
    (10112, 10120); (10122, 10130); (68160, 68163); (69216, 69224);
    (69714, 69722); (127232, 127242) ]%N.

(** The characters [str.isspace] accepts; [str.strip()] removes them. *)
Definition whitespace_ranges : list (N * N) :=
  [ (9, 13); (28, 32); (133, 133); (160, 160); (5760, 5760); (8192, 8202);
    (8232, 8233); (8239, 8239); (8287, 8287); (12288, 12288) ]%N.

Definition isdecimal (c : N) : bool := in_ranges c decimal_ranges.

Definition isdigit (c : N) : bool :=
  in_ranges c decimal_ranges || in_ranges c other_digit_ranges.

Definition isspace (c : N) : bool := in_ranges c whitespace_ranges.

(** The decimal value of a character of category Nd. *)
Definition decimal_value (c : N) : option Z :=
  match find (fun r => (fst r <=? c)%N && (c <=? snd r)%N) decimal_ranges with
  | Some r => Some (Z.of_N ((c - fst r) mod 10))
  | None => None
  end.

(** The ASCII digits ['0'] .. ['9']. *)
Definition is_ascii_digit (c : N) : bool := (48 <=? c)%N && (c <=? 57)%N.

End Unicode.

(** [s.isdigit()]: non-empty and made of digit characters only. *)
Definition isdigit (s : str) : bool :=
  match s with
  | [] => false
  | _ => forallb Unicode.isdigit s
  end.

(** [len(s)]. *)
Definition len {A : Type} (l : list A) : Z := Z.of_nat (List.length l).

Fixpoint lstrip (s : str) : str :=
  match s with
  | c :: s' => if Unicode.isspace c then lstrip s' else s
  | [] => []
  end.

(** [s.strip()]. *)
Definition strip (s : str) : str := rev (lstrip (rev (lstrip s))).

(** The character of a decimal digit [0 <= d < 10]. *)
Definition digit_char (d : Z) : N := (48 + Z.to_N d)%N.

Fixpoint digits_of (fuel : nat) (n : Z) (acc : str) : str :=
  match fuel with
  | O => acc
  | S fuel' =>
      let acc' := digit_char (n mod 10) :: acc in
      if n <? 10 then acc' else digits_of fuel' (n / 10) acc'
  end.

(** [str(n)] for an integer [n >= 0]; the fuel (the bit length of [n], plus
    one) is at least the number of decimal digits. *)
Definition str_of_int (n : Z) : str :=
  digits_of (S (Z.to_nat (Z.log2 n))) n [].

(* ================================================================= *)
(** ** Exceptions and the state-and-exception monad *)

(** The exception classes [input_error] tells apart, each with [str(e)];
    [OtherException] stands for every other subclass of [Exception]. *)
Inductive exn : Type :=
| ValueError (msg : str)
| KeyError (msg : str)
| IndexError (msg : str)
| OtherException (msg : str).

Inductive result (A : Type) : Type :=
| Ok (a : A)
| Raise (e : exn).
Arguments Ok {A} a.
Arguments Raise {A} e.

(** A computation on a mutable object of type [S]: it returns a value or
    raises, and in both cases leaves the object in some state. *)
Definition M (S A : Type) : Type := S -> result A * S.

Definition ret {S A : Type} (a : A) : M S A := fun s => (Ok a, s).

Definition raise {S A : Type} (e : exn) : M S A := fun s => (Raise e, s).

Definition bind {S A B : Type} (m : M S A) (k : A -> M S B) : M S B :=
  fun s =>
    match m s with
    | (Ok a, s') => k a s'
    | (Raise e, s') => (Raise e, s')
    end.

Definition get {S : Type} : M S S := fun s => (Ok s, s).

Definition put {S : Type} (s : S) : M S unit := fun _ => (Ok tt, s).

(** A call that may raise but touches no state. *)
Definition lift {S A : Type} (r : result A) : M S A := fun s => (r, s).

Declare Scope py_scope.
Delimit Scope py_scope with py.
Notation "x <- m ;; k" := (bind m (fun x => k))
  (at level 100, m at next level, right associativity) : py_scope.
Notation "m ;;; k" := (bind m (fun _ => k))
  (at level 100, right associativity) : py_scope.
Open Scope py_scope.

(** [repr(s)] as it appears in the messages of the library. Only the quoting
    is modelled, not the escapes of quotes and unprintable characters: the
    one message built with it is never shown, [Birthday.__init__] replaces
    it as soon as it has seen that it contains ["time data"]. *)
Definition repr (s : str) : str := py "'" ++ s ++ py "'".

(* ================================================================= *)
(** ** The [datetime] library, as far as the program uses it *)

Module datetime.

Record date : Type := mkdate { year : Z; month : Z; day : Z }.

Definition MINYEAR : Z := 1.
Definition MAXYEAR : Z := 9999.

Definition is_leap (y : Z) : bool :=
  (y mod 4 =? 0) && (negb (y mod 100 =? 0) || (y mod 400 =? 0)).

Definition DAYS_IN_MONTH : list Z :=
  [-1; 31; 28; 31; 30; 31; 30; 31; 31; 30; 31; 30; 31].

Definition DAYS_BEFORE_MONTH : list Z :=
  [-1; 0; 31; 59; 90; 120; 151; 181; 212; 243; 273; 304; 334].

Definition days_before_year (y : Z) : Z :=
  let y' := y - 1 in y' * 365 + y' / 4 - y' / 100 + y' / 400.

Definition days_in_month (y m : Z) : Z :=
  if (m =? 2) && is_leap y then 29 else nth (Z.to_nat m) DAYS_IN_MONTH (-1).

Definition days_before_month (y m : Z) : Z :=
  nth (Z.to_nat m) DAYS_BEFORE_MONTH (-1)
  + (if (2 <? m) && is_leap y then 1 else 0).

Definition ymd2ord (y m d : Z) : Z :=
  days_before_year y + days_before_month y m + d.

(** [date(y, m, d)]: the constructor checks the fields in this order. *)
Definition new (y m d : Z) : result date :=
  if negb ((MINYEAR <=? y) && (y <=? MAXYEAR)) then
    Raise (ValueError (py "year " ++ str_of_int y ++ py " is out of range"))
  else if negb ((1 <=? m) && (m <=? 12)) then
    Raise (ValueError (py "month must be in 1..12"))
  else if negb ((1 <=? d) && (d <=? days_in_month y m)) then
    Raise (ValueError (py "day is out of range for month"))
  else Ok (mkdate y m d).

(** The values the constructor can build. *)
Definition valid (d : date) : Prop := new (year d) (month d) (day d) = Ok d.

(** [d.replace(year=y)] builds a new date from the changed fields. *)
Definition replace_year (d : date) (y : Z) : result date :=
  new y (month d) (day d).

Definition toordinal (d : date) : Z := ymd2ord (year d) (month d) (day d).

(** [a < b]: dates compare as the tuples (year, month, day). *)
Definition ltb (a b : date) : bool :=
  (year a <? year b)
  || ((year a =? year b)
      && ((month a <? month b)
          || ((month a =? month b) && (day a <? day b)))).

(** [a > b]. *)
Definition gtb (a b : date) : bool := ltb b a.

(** [(a - b).days]. *)
Definition sub_days (a b : date) : Z := toordinal a - toordinal b.

Definition two_digits (n : Z) : str :=
  [digit_char (n / 10); digit_char (n mod 10)].

Definition four_digits (n : Z) : str :=
  [digit_char (n / 1000); digit_char (n / 100 mod 10);
   digit_char (n / 10 mod 10); digit_char (n mod 10)].

(** [d.strftime("%d.%m.%Y")]. The day and the month are printed on two
    digits. [%Y] is handed to the C library, and glibc prints the year as a
    plain decimal number: four digits from the year 1000 on, fewer before
    (["01.01.999"] for the first day of 999). *)
Definition strftime (d : date) : str :=
  two_digits (day d) ++ py "." ++ two_digits (month d) ++ py "."
  ++ str_of_int (year d).

(** *** [strptime] with the format ["%d.%m.%Y"] *)

(** The directives of the format, the names of the groups they capture. *)
Inductive group : Type := g_d | g_m | g_Y.

Definition group_eqb (a b : group) : bool :=
  match a, b with
  | g_d, g_d | g_m, g_m | g_Y, g_Y => true
  | _, _ => false
  end.

(** The regular expressions the format compiles to. *)
Inductive re : Type :=
| Chr (c : N)            (* one given character *)
| Rng (lo hi : N)        (* [lo-hi] *)
| Dec                    (* \d *)
| Cat (r1 r2 : re)       (* r1 r2 *)
| Alt (r1 r2 : re)       (* r1|r2 *)
| Grp (g : group) (r : re). (* (?P<g>r) *)

(** A way to match a prefix of the input: the groups captured, the text
    matched and the text that remains. *)
Definition found : Type := (list (group * str) * str * str)%type.

Definition one_char (p : N -> bool) (s : str) : list found :=
  match s with
  | c :: s' => if p c then [([], [c], s')] else []
  | [] => []
  end.

(** Every way to match a prefix of [s], in the order a backtracking matcher
    tries them: the left alternative first. *)
Fixpoint rmatch (r : re) (s : str) : list found :=
  match r with
  | Chr c => one_char (N.eqb c) s
  | Rng lo hi => one_char (fun x => (lo <=? x)%N && (x <=? hi)%N) s
  | Dec => one_char Unicode.isdecimal s
  | Cat r1 r2 =>
      flat_map
        (fun f1 : found =>
           let '(caps1, text1, rest1) := f1 in
           map (fun f2 : found =>
                  let '(caps2, text2, rest2) := f2 in
                  (caps1 ++ caps2, text1 ++ text2, rest2))
               (rmatch r2 rest1))
        (rmatch r1 s)
  | Alt r1 r2 => rmatch r1 s ++ rmatch r2 s
  | Grp g r1 =>
      map (fun f : found =>
             let '(caps, text, rest) := f in ((g, text) :: caps, text, rest))
          (rmatch r1 s)
  end.

Definition chr (s : string) : N :=
  match s with
  | String a _ => N_of_ascii a
  | EmptyString => 0%N
  end.
Arguments chr s%_string.

(** [3[0-1]|[1-2]\d|0[1-9]|[1-9]| [1-9]] *)
Definition re_d : re :=
  Alt (Cat (Chr (chr "3")) (Rng (chr "0") (chr "1")))
 (Alt (Cat (Rng (chr "1") (chr "2")) Dec)
 (Alt (Cat (Chr (chr "0")) (Rng (chr "1") (chr "9")))
 (Alt (Rng (chr "1") (chr "9"))
      (Cat (Chr (chr " ")) (Rng (chr "1") (chr "9")))))).

(** [1[0-2]|0[1-9]|[1-9]] *)
Definition re_m : re :=
  Alt (Cat (Chr (chr "1")) (Rng (chr "0") (chr "2")))
 (Alt (Cat (Chr (chr "0")) (Rng (chr "1") (chr "9")))
      (Rng (chr "1") (chr "9"))).

(** [\d\d\d\d] *)
Definition re_Y : re := Cat Dec (Cat Dec (Cat Dec Dec)).

(** The pattern of ["%d.%m.%Y"]. It is compiled with [IGNORECASE], which
    changes nothing for digits, the space and the dot. *)
Definition format_regex : re :=
  Cat (Grp g_d re_d)
 (Cat (Chr (chr "."))
 (Cat (Grp g_m re_m)
 (Cat (Chr (chr "."))
      (Grp g_Y re_Y)))).

(** [found_dict[g]]. *)
Fixpoint lookup (g : group) (caps : list (group * str)) : str :=
  match caps with
  | (g', text) :: caps' => if group_eqb g g' then text else lookup g caps'
  | [] => []
  end.

Fixpoint decimal_digits (s : str) (acc : Z) : option Z :=
  match s with
  | [] => Some acc
  | c :: s' =>
      match Unicode.decimal_value c with
      | Some v => decimal_digits s' (10 * acc + v)
      | None => None
      end
  end.

(** [int(s)] on the texts the groups capture: surrounding white space is
    dropped and the decimal digits, of any script, are read in base ten.
    Signs and underscores, which no group can capture, are left out. *)
Definition int (s : str) : result Z :=
  match strip s with
  | [] => Raise (ValueError (py "invalid literal for int() with base 10: "
                             ++ repr s))
  | t =>
      match decimal_digits t 0 with
      | Some n => Ok n
      | None => Raise (ValueError (py "invalid literal for int() with base 10: "
                                   ++ repr s))
      end
  end.

Definition is_empty {A : Type} (l : list A) : bool :=
  match l with [] => true | _ => false end.

(** [datetime.strptime(data_string, "%d.%m.%Y").date()] *)
Definition strptime (data_string : str) : result date :=
  match rmatch format_regex data_string with
  | [] =>
      Raise (ValueError (py "time data " ++ repr data_string
                         ++ py " does not match format '%d.%m.%Y'"))
  | (found_dict, _, rest) :: _ =>
      if negb (is_empty rest) then
        Raise (ValueError (py "unconverted data remains: " ++ rest))
      else
        match int (lookup g_Y found_dict) with
        | Raise e => Raise e
        | Ok y =>
            match int (lookup g_m found_dict) with
            | Raise e => Raise e
            | Ok m =>
                match int (lookup g_d found_dict) with
                | Raise e => Raise e
                | Ok d => new y m d
                end
            end
        end
  end.

End datetime.

Import datetime.

(* ================================================================= *)
(** ** Fields *)

(** [Field] objects hold one [value]; [str(field)] is [str(value)]. *)
Record Name : Type := mkName { Name_value : str }.
Record Phone : Type := mkPhone { Phone_value : str }.
Record Birthday : Type := mkBirthday { Birthday_value : date }.

(** [Phone(value)] *)
Definition Phone_init (value : str) : result Phone :=
  if negb (isdigit value) || negb (len value =? 10) then
    Raise (ValueError (py "Phone must be 10 digits."))
  else Ok (mkPhone value).

Definition Phone_str (p : Phone) : str := Phone_value p.

(** [Birthday(value)], called when the clock shows [today]. The [try]
    block catches the [ValueError]s of [strptime] and its own, and raises
    them again, the ones whose message contains ["time data"] under another
    message. *)
Definition Birthday_init (today : date) (value : str) : result Birthday :=
  let attempt :=
    match strptime value with
    | Raise e => Raise e
    | Ok date_obj =>
        if gtb date_obj today then
          Raise (ValueError (py "Birthday cannot be in the future."))
        else Ok (mkBirthday date_obj)
    end in
  match attempt with
  | Raise (ValueError msg) =>
      if contains (py "time data") msg then
        Raise (ValueError (py "Invalid date format. Use DD.MM.YYYY"))
      else Raise (ValueError msg)
  | other => other
  end.

(* ================================================================= *)
(** ** Records *)

Record Record_ : Type := mkRecord {
  name : Name;
  phones : list Phone;
  birthday : option Birthday
}.

(** [Record(name)] *)
Definition Record_init (n : str) : Record_ := mkRecord (mkName n) [] None.

Definition set_phones (ps : list Phone) (r : Record_) : Record_ :=
  mkRecord (name r) ps (birthday r).

Definition set_birthday (b : Birthday) (r : Record_) : Record_ :=
  mkRecord (name r) (phones r) (Some b).

(** The methods that mutate [self] are computations on the record. *)
Definition add_birthday (today : date) (birthday_date : str)
  : M Record_ unit :=
  b <- lift (Birthday_init today birthday_date) ;;
  self <- get ;;
  put (set_birthday b self).

Definition show_birthday (self : Record_) : str :=
  match birthday self with
  | Some b => strftime (Birthday_value b)
  | None => py "Not set"
  end.

Definition add_phone (phone_number : str) : M Record_ unit :=
  phone_obj <- lift (Phone_init phone_number) ;;
  self <- get ;;
  put (set_phones (phones self ++ [phone_obj]) self).

(** The loop of [remove_phone]: the first phone with the value is removed
    and the loop stops. *)
Fixpoint remove_first (phone_number : str) (ps : list Phone) : list Phone :=
  match ps with
  | [] => []
  | p :: ps' =>
      if str_eqb (Phone_value p) phone_number then ps'
      else p :: remove_first phone_number ps'
  end.

Definition remove_phone (phone_number : str) : M Record_ unit :=
  self <- get ;;
  put (set_phones (remove_first phone_number (phones self)) self).

(** The loop of [edit_phone] over the phones, [seen] being the ones already
    passed. At the first phone with the old value the new [Phone] is built,
    which may raise, and stored in its place (every [Phone] of the list is
    an object of its own, so [index] finds the place the loop is at). When
    the loop ends without a match, [phone_found] is still [False]. *)
Fixpoint edit_phone_loop (old_phone new_phone : str) (seen rest : list Phone)
  : result (list Phone) :=
  match rest with
  | [] => Raise (ValueError (py "Phone number not found."))
  | phone :: rest' =>
      if str_eqb (Phone_value phone) old_phone then
        match Phone_init new_phone with
        | Ok p => Ok (seen ++ p :: rest')
        | Raise e => Raise e
        end
      else edit_phone_loop old_phone new_phone (seen ++ [phone]) rest'
  end.

Definition edit_phone (old_phone new_phone : str) : M Record_ unit :=
  self <- get ;;
  ps <- lift (edit_phone_loop old_phone new_phone [] (phones self)) ;;
  put (set_phones ps self).

(** [find_phone] returns the phone or [None]. *)
Definition find_phone (phone_number : str) (self : Record_) : option Phone :=
  List.find (fun p => str_eqb (Phone_value p) phone_number) (phones self).

Definition Record_str (self : Record_) : str :=
  let phones_str := join (py "; ") (map Phone_value (phones self)) in
  let birthday_str :=
    match birthday self with
    | Some _ => py ", birthday: " ++ show_birthday self
    | None => []
    end in
  py "Contact name: " ++ Name_value (name self) ++ py ", phones: "
  ++ phones_str ++ birthday_str.

(* ================================================================= *)
(** ** The address book *)

(** [self.data], a dictionary: the keys with their records in insertion
    order, every key once. *)
Definition AddressBook : Type := list (str * Record_).

(** [data.get(key)] *)
Fixpoint dict_get (key : str) (data : AddressBook) : option Record_ :=
  match data with
  | [] => None
  | (k, v) :: data' => if str_eqb k key then Some v else dict_get key data'
  end.

(** [data[key] = value]: a key already there keeps its place, a new key
    goes to the end. *)
Fixpoint dict_set (key : str) (value : Record_) (data : AddressBook)
  : AddressBook :=
  match data with
  | [] => [(key, value)]
  | (k, v) :: data' =>
      if str_eqb k key then (k, value) :: data'
      else (k, v) :: dict_set key value data'
  end.

(** [del data[key]], for a key that may be absent. *)
Fixpoint dict_del (key : str) (data : AddressBook) : AddressBook :=
  match data with
  | [] => []
  | (k, v) :: data' =>
      if str_eqb k key then data' else (k, v) :: dict_del key data'
  end.

Definition add_record (record : Record_) : M AddressBook unit :=
  self <- get ;;
  put (dict_set (Name_value (name record)) record self).

Definition find (n : str) (self : AddressBook) : option Record_ :=
  dict_get n self.

Definition delete (n : str) : M AddressBook unit :=
  self <- get ;;
  put (dict_del n self).

(** What a mutation of the object stored under [key] does to the
    dictionary: the entry shows the new state of the object. No entry is
    added: an object that is not in the dictionary can change without the
    dictionary changing. *)
Fixpoint dict_update (key : str) (value : Record_) (data : AddressBook)
  : AddressBook :=
  match data with
  | [] => []
  | (k, v) :: data' =>
      if str_eqb k key then (k, value) :: data'
      else (k, v) :: dict_update key value data'
  end.

(** A method called on a record of the book. The record is an object the
    book holds under [key], so what the method does to it shows in the
    book, also when the method raises. *)
Definition call_on {A : Type} (key : str) (record : Record_)
  (method : M Record_ A) : M AddressBook A :=
  fun book =>
    let '(res, record') := method record in
    (res, dict_update key record' book).

(** An item of the list [get_upcoming_birthdays] returns. *)
Record upcoming : Type := mkUpcoming {
  upcoming_name : str;
  congratulation_date : str
}.

(** The loop of [get_upcoming_birthdays] over [self.data.values()]. *)
Fixpoint upcoming_loop (today : date) (records : list Record_)
  (upcoming_birthdays : list upcoming) : result (list upcoming) :=
  match records with
  | [] => Ok upcoming_birthdays
  | record :: records' =>
      match birthday record with
      | None => upcoming_loop today records' upcoming_birthdays
      | Some b =>
          match replace_year (Birthday_value b) (year today) with
          | Raise e => Raise e
          | Ok this_year =>
              match (if ltb this_year today
                     then replace_year this_year (year today + 1)
                     else Ok this_year) with
              | Raise e => Raise e
              | Ok birthday_this_year =>
                  let days_until_birthday :=
                    sub_days birthday_this_year today in
                  if (0 <=? days_until_birthday)
                     && (days_until_birthday <=? 7) then
                    upcoming_loop today records'
                      (upcoming_birthdays
                       ++ [mkUpcoming (Name_value (name record))
                                      (strftime birthday_this_year)])
                  else upcoming_loop today records' upcoming_birthdays
              end
          end
      end
  end.

Definition get_upcoming_birthdays (today : date) (self : AddressBook)
  : result (list upcoming) :=
  upcoming_loop today (map snd self) [].

Definition AddressBook_str (self : AddressBook) : str :=
  match self with
  | [] => py "Address book is empty."
  | _ => join nl (map (fun kv => Record_str (snd kv)) self)
  end.

(* ================================================================= *)
(** ** The command handlers *)

(** [args[i]] *)
Definition getitem (args : list str) (i : nat) : result str :=
  match nth_error args i with
  | Some a => Ok a
  | None => Raise (IndexError (py "list index out of range"))
  end.

(** [a, b, c = args] *)
Definition unpack3 (args : list str) : result (str * str * str) :=
  match args with
  | [a; b; c] => Ok (a, b, c)
  | _ =>
      if 3 <? len args then
        Raise (ValueError (py "too many values to unpack (expected 3)"))
      else
        Raise (ValueError (py "not enough values to unpack (expected 3, got "
                           ++ str_of_int (len args) ++ py ")"))
  end.

(** The decorator: what the handler returns, or the line for what it
    raised. The clauses are tried in the order of the source. *)
Definition input_error (func : M AddressBook str)
  : AddressBook -> str * AddressBook :=
  fun book =>
    match func book with
    | (Ok message, book') => (message, book')
    | (Raise (ValueError msg), book') => (py "Error: " ++ msg, book')
    | (Raise (KeyError _), book') => (py "Error: Contact not found.", book')
    | (Raise (IndexError _), book') =>
        (py "Error: Please provide all required arguments.", book')
    | (Raise (OtherException msg), book') =>
        (py "Unexpected error: " ++ msg, book')
    end.

(** The bodies of the handlers, before decoration. *)
Definition add_contact_body (args : list str) : M AddressBook str :=
  if len args <? 2 then ret (py "Error: Please provide name and phone.")
  else
    n <- lift (getitem args 0) ;;
    phone <- lift (getitem args 1) ;;
    book <- get ;;
    created <-
      match find n book with
      | None =>
          let record := Record_init n in
          add_record record ;;; ret (record, py "Contact added.")
      | Some record => ret (record, py "Contact updated.")
      end ;;
    let '(record, message) := created in
    (if is_empty phone then ret tt
     else call_on n record (add_phone phone)) ;;;
    ret message.

Definition change_contact_body (args : list str) : M AddressBook str :=
  if len args <? 3 then
    ret (py "Error: Please provide name, old phone and new phone.")
  else
    unpacked <- lift (unpack3 args) ;;
    let '(n, old_phone, new_phone) := unpacked in
    book <- get ;;
    match find n book with
    | Some record =>
        call_on n record (edit_phone old_phone new_phone) ;;;
        ret (py "Phone number updated.")
    | None => ret (py "Contact not found.")
    end.

Definition show_phone_body (args : list str) : M AddressBook str :=
  if len args <? 1 then ret (py "Error: Please provide name.")
  else
    n <- lift (getitem args 0) ;;
    book <- get ;;
    match find n book with
    | Some record =>
        let phones_ := join (py ", ") (map Phone_value (phones record)) in
        if is_empty phones_ then ret (n ++ py ": No phones")
        else ret (n ++ py ": " ++ phones_)
    | None => ret (py "Contact not found.")
    end.

(** [for i, x in enumerate(items, i): result += line(i, x)] *)
Fixpoint enumerate_lines {A : Type} (line : Z -> A -> str) (i : Z)
  (items : list A) (result : str) : str :=
  match items with
  | [] => result
  | x :: items' => enumerate_lines line (i + 1) items' (result ++ line i x)
  end.

Definition show_all_body : M AddressBook str :=
  book <- get ;;
  if is_empty book then ret (py "No contacts found.")
  else
    ret (strip
           (enumerate_lines
              (fun i record => str_of_int i ++ py ". " ++ Record_str record ++ nl)
              1 (map snd book) (py "All contacts:" ++ nl))).

Definition add_birthday_body (today : date) (args : list str)
  : M AddressBook str :=
  if len args <? 2 then ret (py "Error: Please provide name and birthday.")
  else
    n <- lift (getitem args 0) ;;
    birthday_ <- lift (getitem args 1) ;;
    book <- get ;;
    match find n book with
    | Some record =>
        call_on n record (add_birthday today birthday_) ;;;
        ret (py "Birthday added for " ++ n ++ py ".")
    | None => ret (py "Contact not found.")
    end.

Definition show_birthday_body (args : list str) : M AddressBook str :=
  if len args <? 1 then ret (py "Error: Please provide name.")
  else
    n <- lift (getitem args 0) ;;
    book <- get ;;
    match find n book with
    | Some record => ret (n ++ py "'s birthday: " ++ show_birthday record)
    | None => ret (py "Contact not found.")
    end.

Definition birthdays_body (today : date) (args : list str)
  : M AddressBook str :=
  book <- get ;;
  upcoming_ <- lift (get_upcoming_birthdays today book) ;;
  if is_empty upcoming_ then
    ret (py "No upcoming birthdays in the next week.")
  else
    ret (strip
           (enumerate_lines
              (fun i user =>
                 str_of_int i ++ py ". " ++ upcoming_name user ++ py ": "
                 ++ congratulation_date user ++ nl)
              1 upcoming_ (py "Upcoming birthdays this week:" ++ nl))).

(** The commands [main] sends to a handler. [main] reads a line, splits it
    at white space ([parse_input] and [unpack_command], further down), and
    prints what the handler of the first word returns; its lowering of the
    command word and its printing are not modelled. *)
Inductive command : Type :=
| cmd_add
| cmd_change
| cmd_phone
| cmd_all
| cmd_add_birthday
| cmd_show_birthday
| cmd_birthdays.

(** The body [main] runs for a command; [show_all] takes no [args]. *)
Definition body (c : command) (today : date) (args : list str)
  : M AddressBook str :=
  match c with
  | cmd_add => add_contact_body args
  | cmd_change => change_contact_body args
  | cmd_phone => show_phone_body args
  | cmd_all => show_all_body
  | cmd_add_birthday => add_birthday_body today args
  | cmd_show_birthday => show_birthday_body args
  | cmd_birthdays => birthdays_body today args
  end.

(** The decorated handlers. *)
Definition add_contact (args : list str) := input_error (add_contact_body args).
Definition change_contact (args : list str) :=
  input_error (change_contact_body args).
Definition show_phone (args : list str) := input_error (show_phone_body args).
Definition show_all := input_error show_all_body.
Definition add_birthday_cmd (today : date) (args : list str) :=
  input_error (add_birthday_body today args).
Definition show_birthday_cmd (args : list str) :=
  input_error (show_birthday_body args).
Definition birthdays (today : date) (args : list str) :=
  input_error (birthdays_body today args).

Definition handler (c : command) (today : date) (args : list str)
  : AddressBook -> str * AddressBook :=
  input_error (body c today args).

(* ================================================================= *)
(** ** The rules of the specification *)

(** "Exactly 10 characters long and every character an ASCII digit." *)
Definition ten_ascii_digits (s : str) : bool :=
  (len s =? 10) && forallb Unicode.is_ascii_digit s.

(** "DD.MM.YYYY": a day of two digits, a month of two digits and a year of
    four digits, with dots between them. *)
Definition matches_DD_MM_YYYY (s : str) : bool :=
  match s with
  | [d1; d2; p1; m1; m2; p2; y1; y2; y3; y4] =>
      forallb Unicode.is_ascii_digit [d1; d2; m1; m2; y1; y2; y3; y4]
      && N.eqb p1 (chr ".") && N.eqb p2 (chr ".")
  | _ => false
  end.

(** The test of the loops over the phones: [p.value == phone_number]. *)
Definition is_phone (phone_number : str) (p : Phone) : bool :=
  str_eqb (Phone_value p) phone_number.

(** *** The texts [strptime] reads with the format [%d.%m.%Y] *)

(** An ASCII character between two given ones. *)
Definition between (lo hi : string) (c : N) : bool :=
  (chr lo <=? c)%N && (c <=? chr hi)%N.
Arguments between (lo hi)%_string c.

(** The number an ASCII digit stands for. *)
Definition ascii_value (c : N) : Z := Z.of_N c - 48.

(** The texts read as a day, with the day: 30 or 31; a 1 or a 2 followed
    by a decimal digit of any script; a digit from 1 to 9, alone or after a
    zero or a space. *)
Definition day_text (t : str) : option Z :=
  match t with
  | [a; b] =>
      if N.eqb a (chr "3") && between "0" "1" b then Some (30 + ascii_value b)
      else if between "1" "2" a then
        match Unicode.decimal_value b with
        | Some v => Some (10 * ascii_value a + v)
        | None => None
        end
      else if (N.eqb a (chr "0") || N.eqb a (chr " ")) && between "1" "9" b
      then Some (ascii_value b)
      else None
  | [a] => if between "1" "9" a then Some (ascii_value a) else None
  | _ => None
  end.

(** The texts read as a month, with the month: 10, 11 or 12; a digit from
    1 to 9, alone or after a zero. *)
Definition month_text (t : str) : option Z :=
  match t with
  | [a; b] =>
      if N.eqb a (chr "1") && between "0" "2" b then Some (10 + ascii_value b)
      else if N.eqb a (chr "0") && between "1" "9" b then Some (ascii_value b)
      else None
  | [a] => if between "1" "9" a then Some (ascii_value a) else None
  | _ => None
  end.

(** The texts read as a year, with the year: four decimal digits of any
    script. *)
Definition year_text (t : str) : option Z :=
  match t with
  | [a; b; c; d] =>
      match Unicode.decimal_value a, Unicode.decimal_value b,
            Unicode.decimal_value c, Unicode.decimal_value d with
      | Some va, Some vb, Some vc, Some vd =>
          Some (1000 * va + 100 * vb + 10 * vc + vd)
      | _, _, _, _ => None
      end
  | _ => None
  end.

(** A text that [strptime] reads as the day [d], the month [m] and the
    year [y]: a day, a dot, a month, a dot and a year, and nothing else. *)
Definition reads (s : str) (d m y : Z) : Prop :=
  exists dt mt yt,
    s = dt ++ py "." ++ mt ++ py "." ++ yt
    /\ day_text dt = Some d /\ month_text mt = Some m
    /\ year_text yt = Some y.

(** How often a phone number is stored in a list of phones. *)
Definition count_phone (phone_number : str) (ps : list Phone) : nat :=
  List.length (filter (fun p => str_eqb (Phone_value p) phone_number) ps).

(** The rule a stored phone obeys: the one its constructor checked. *)
Definition Phone_ok (p : Phone) : Prop := Phone_init (Phone_value p) = Ok p.

(** Ten Arabic-Indic digits (U+0660), a phone number [str.isdigit]
    accepts. *)
Definition arabic_indic_zeros : str := repeat 1632%N 10.

(** A record that stores the same number twice, as two [add] commands with
    that number leave it. *)
Definition twice_stored : Record_ :=
  mkRecord (mkName (py "alice"))
           [mkPhone (py "1111111111"); mkPhone (py "1111111111")] None.

Definition d20240610 : date := mkdate 2024 6 10.
Definition d19900615 : date := mkdate 1990 6 15.

(** The occurrence of a birthday the specification describes: the month
    and day in the year of the reference date, in the next year when that
    falls before the reference date. *)
Definition occurrence (today b : date) : date :=
  let this_year := mkdate (year today) (month b) (day b) in
  if ltb this_year today then mkdate (year today + 1) (month b) (day b)
  else this_year.

(** "0 <= daysUntil <= 7" *)
Definition within_a_week (today b : date) : bool :=
  let days_until := sub_days (occurrence today b) today in
  (0 <=? days_until) && (days_until <=? 7).

(** The contacts the specification lists, in the order of the book. *)
Definition expected_upcoming (today : date) (records : list Record_)
  : list upcoming :=
  flat_map
    (fun record =>
       match birthday record with
       | Some b =>
           if within_a_week today (Birthday_value b) then
             [mkUpcoming (Name_value (name record))
                         (strftime (occurrence today (Birthday_value b)))]
           else []
       | None => []
       end)
    records.

(** The loop of [get_upcoming_birthdays] as it would be with the test
    [days_until_birthday <= 7] alone, without [0 <= days_until_birthday]. *)
Fixpoint upcoming_loop_at_most_7 (today : date) (records : list Record_)
  (upcoming_birthdays : list upcoming) : result (list upcoming) :=
  match records with
  | [] => Ok upcoming_birthdays
  | record :: records' =>
      match birthday record with
      | None => upcoming_loop_at_most_7 today records' upcoming_birthdays
      | Some b =>
          match replace_year (Birthday_value b) (year today) with
          | Raise e => Raise e
          | Ok this_year =>
              match (if ltb this_year today
                     then replace_year this_year (year today + 1)
                     else Ok this_year) with
              | Raise e => Raise e
              | Ok birthday_this_year =>
                  if sub_days birthday_this_year today <=? 7 then
                    upcoming_loop_at_most_7 today records'
                      (upcoming_birthdays
                       ++ [mkUpcoming (Name_value (name record))
                                      (strftime birthday_this_year)])
                  else upcoming_loop_at_most_7 today records'
                         upcoming_birthdays
              end
          end
      end
  end.

(** Birthdays that are no leap days. *)
Definition no_leap_day (record : Record_) : Prop :=
  match birthday record with
  | Some b =>
      valid (Birthday_value b)
      /\ ~ (month (Birthday_value b) = 2 /\ day (Birthday_value b) = 29)
  | None => True
  end.

Definition d20230610 : date := mkdate 2023 6 10.

Definition alice_june_15 : Record_ :=
  mkRecord (mkName (py "alice")) [] (Some (mkBirthday d19900615)).

Definition alice_june_20 : Record_ :=
  mkRecord (mkName (py "alice")) [] (Some (mkBirthday (mkdate 1990 6 20))).

(** A contact born on a leap day; ["29.02.2000"] is a birthday the
    constructor accepts. *)
Definition bob_leap_day : Record_ :=
  mkRecord (mkName (py "bob")) [] (Some (mkBirthday (mkdate 2000 2 29))).

(** The line [input_error] returns for an exception. *)
Definition error_line (e : exn) : str :=
  match e with
  | ValueError msg => py "Error: " ++ msg
  | KeyError _ => py "Error: Contact not found."
  | IndexError _ => py "Error: Please provide all required arguments."
  | OtherException msg => py "Unexpected error: " ++ msg
  end.

(** *** The states the program can reach *)

(** The methods of a record that change it. *)
Inductive method : Type :=
| call_add_phone (phone_number : str)
| call_remove_phone (phone_number : str)
| call_edit_phone (old_phone new_phone : str)
| call_add_birthday (birthday_date : str).

Definition run_method (today : date) (m : method) : M Record_ unit :=
  match m with
  | call_add_phone p => add_phone p
  | call_remove_phone p => remove_phone p
  | call_edit_phone p q => edit_phone p q
  | call_add_birthday s => add_birthday today s
  end.

(** What can be done to the book: a command of the loop, or a call of a
    method of the book or of one of its records. *)
Inductive operation : Type :=
| op_command (c : command) (args : list str)
| op_add_record (n : str)            (* book.add_record(Record(n)) *)
| op_delete (n : str)                (* book.delete(n) *)
| op_method (n : str) (m : method).  (* book.find(n).m(...), n in the book *)

(** One operation, done when the clock shows [today]; what counts is the
    book it leaves, also when it raises. *)
Definition step (today : date) (o : operation) (book : AddressBook)
  : AddressBook :=
  match o with
  | op_command c args => snd (handler c today args book)
  | op_add_record n => snd (add_record (Record_init n) book)
  | op_delete n => snd (delete n book)
  | op_method n m =>
      match find n book with
      | Some record => snd (call_on n record (run_method today m) book)
      | None => book
      end
  end.

(** A run: the operations with the dates they are done at. *)
Fixpoint run (trace : list (date * operation)) (book : AddressBook)
  : AddressBook :=
  match trace with
  | [] => book
  | (today, o) :: trace' => run trace' (step today o book)
  end.

(** An operation that validates the text [s] as the birthday of the
    contact [key]: the [add-birthday] command or the method of the
    record. *)
Definition adds_birthday (o : operation) (key s : str) : Prop :=
  (exists rest, o = op_command cmd_add_birthday (key :: s :: rest))
  \/ o = op_method key (call_add_birthday s).

(** The rule for a birthday stored for [key]: an operation of the run, done
    at some date [today], validated a text for that contact and built this
    birthday from it; the birthday is then a date of the calendar, not
    after [today]. *)
Definition Birthday_ok (done : list (date * operation)) (key : str)
  (b : Birthday) : Prop :=
  exists today o s,
    In (today, o) done
    /\ adds_birthday o key s
    /\ Birthday_init today s = Ok b
    /\ valid (Birthday_value b)
    /\ gtb (Birthday_value b) today = false.

Definition Record_ok (done : list (date * operation)) (key : str)
  (r : Record_) : Prop :=
  Forall Phone_ok (phones r)
  /\ forall b, birthday r = Some b -> Birthday_ok done key b.

Definition AddressBook_ok (done : list (date * operation))
  (book : AddressBook) : Prop :=
  Forall (fun kv => Record_ok done (fst kv) (snd kv)) book.

(** One line typed on 2024-06-10, with a phone of ten Arabic-Indic
    digits. *)
Definition arabic_indic_add : list (date * operation) :=
  [ (d20240610, op_command cmd_add [py "bob"; arabic_indic_zeros]) ].

Definition alice_two_phones : Record_ :=
  mkRecord (mkName (py "alice"))
           [mkPhone (py "9998887776"); mkPhone (py "0123456789")] None.

(** Two lines typed on 2024-06-10. *)
Definition two_commands : list (date * operation) :=
  [ (d20240610, op_command cmd_add [py "alice"; py "0123456789"]);
    (d20240610, op_command cmd_add_birthday [py "alice"; py "15.06.1990"]) ].

Definition alice_after_two_commands : Record_ :=
  mkRecord (mkName (py "alice")) [mkPhone (py "0123456789")]
           (Some (mkBirthday d19900615)).

(* ================================================================= *)
(** ** Reading a line *)

(** The loop of [str.split()] without a separator: the words are the
    maximal runs of characters that are not white space; [word] is the run
    being read. *)
Fixpoint split_loop (s : str) (word : str) : list str :=
  match s with
  | [] => if is_empty word then [] else [word]
  | c :: s' =>
      if Unicode.isspace c then
        if is_empty word then split_loop s' []
        else word :: split_loop s' []
      else split_loop s' (word ++ [c])
  end.

(** [s.split()] *)
Definition split (s : str) : list str := split_loop s [].

Definition parse_input (user_input : str) : list str :=
  split (strip user_input).

(** [command, *args = tokens], the first statement [main] runs on the
    tokens of a line. It is not inside any handler: what it raises is not
    caught. *)
Definition unpack_command (tokens : list str) : result (str * list str) :=
  match tokens with
  | command_ :: args => Ok (command_, args)
  | [] =>
      Raise (ValueError
               (py "not enough values to unpack (expected at least 1, got 0)"))
  end.

(** A string without white space. *)
Definition no_space (w : str) : bool :=
  forallb (fun c => negb (Unicode.isspace c)) w.

(** The words of a line: white space, and then nothing more, or a word,
    that is a run of characters that are not white space, not empty and
    followed by the end of the line or by white space, and the words of
    what follows. *)
Inductive words_of : str -> list str -> Prop :=
| words_none (sp : str) :
    forallb Unicode.isspace sp = true -> words_of sp []
| words_more (sp w rest : str) (ws : list str) :
    forallb Unicode.isspace sp = true ->
    w <> [] -> no_space w = true ->
    (rest = []
     \/ exists c rest', rest = c :: rest' /\ Unicode.isspace c = true) ->
    words_of rest ws ->
    words_of (sp ++ w ++ rest) (w :: ws).

(** *** Books as dictionaries *)

(** The keys are all different and every record is stored under the value
    of its own name. *)
Definition filed (book : AddressBook) : Prop :=
  NoDup (map fst book)
  /\ Forall (fun kv => Name_value (name (snd kv)) = fst kv) book.

(** The text [strftime] prints for a day, a month and a year. *)
Definition dmY (d m y : Z) : str :=
  two_digits d ++ py "." ++ two_digits m ++ py "." ++ four_digits y.

Definition bob_no_birthday : Record_ := Record_init (py "bob").

Definition alice_one_phone : Record_ :=
  mkRecord (mkName (py "alice")) [mkPhone (py "0123456789")] None.

(* ================================================================= *)
(** * Properties *)

(** ** Strings *)

Lemma str_eqb_eq (a b : str) : str_eqb a b = true <-> a = b.
Proof.
  revert b; induction a as [|x a IH]; intros [|y b]; simpl;
    try (split; [discriminate | congruence]); try tauto.
  rewrite andb_true_iff, N.eqb_eq, IH.
  split; [intros [-> ->]; reflexivity | intros [= -> ->]; auto].
Qed.

Lemma str_eqb_refl (a : str) : str_eqb a a = true.
Proof. apply str_eqb_eq; reflexivity. Qed.

Lemma str_eqb_neq (a b : str) : str_eqb a b = false <-> a <> b.
Proof.
  rewrite <- str_eqb_eq. destruct (str_eqb a b); split; congruence.
Qed.

Lemma startswith_app (p s : str) : startswith p (p ++ s) = true.
Proof.
  induction p as [|x p IH]; simpl; [reflexivity|].
  rewrite N.eqb_refl, IH; reflexivity.
Qed.

Lemma contains_app (p s : str) : contains p (p ++ s) = true.
Proof.
  destruct p as [|x p]; [destruct s; reflexivity|].
  change ((x :: p) ++ s) with (x :: (p ++ s)).
  unfold contains; fold contains.
  change (x :: (p ++ s)) with ((x :: p) ++ s).
  rewrite startswith_app; reflexivity.
Qed.

(** ** Phones *)

Lemma len_eq_10 {A : Type} (l : list A) :
  (len l =? 10) = true <-> List.length l = 10%nat.
Proof. unfold len; rewrite Z.eqb_eq; lia. Qed.

Lemma isdigit_forallb (s : str) :
  s <> [] -> isdigit s = forallb Unicode.isdigit s.
Proof. destruct s; [congruence | reflexivity]. Qed.

(** What [Phone(value)] does, in one equation. *)
Lemma Phone_init_eq (s : str) :
  Phone_init s =
  if (len s =? 10) && forallb Unicode.isdigit s then Ok (mkPhone s)
  else Raise (ValueError (py "Phone must be 10 digits.")).
Proof.
  unfold Phone_init.
  destruct (len s =? 10) eqn:Hl.
  - assert (s <> []) by (apply len_eq_10 in Hl; destruct s; [discriminate | congruence]).
    rewrite isdigit_forallb by assumption.
    destruct (forallb Unicode.isdigit s); reflexivity.
  - rewrite orb_true_r; reflexivity.
Qed.

Lemma ascii_digit_isdigit (c : N) :
  Unicode.is_ascii_digit c = true -> Unicode.isdigit c = true.
Proof.
  unfold Unicode.is_ascii_digit, Unicode.isdigit, Unicode.in_ranges.
  intros H. simpl. rewrite H. reflexivity.
Qed.

Lemma Phone_init_Ok_inv (s : str) (p : Phone) :
  Phone_init s = Ok p ->
  p = mkPhone s /\ List.length s = 10%nat /\ forallb Unicode.isdigit s = true.
Proof.
  rewrite Phone_init_eq.
  destruct (len s =? 10) eqn:Hl; simpl; [|discriminate].
  destruct (forallb Unicode.isdigit s) eqn:Hd; [|discriminate].
  intros [= <-]. apply len_eq_10 in Hl. auto.
Qed.

Lemma Phone_init_Phone_ok (s : str) (p : Phone) :
  Phone_init s = Ok p -> Phone_ok p.
Proof.
  intros H. destruct (Phone_init_Ok_inv _ _ H) as [-> _]. exact H.
Qed.

(** Ten ASCII digits make a phone. *)
Lemma Phone_init_ascii (s : str) :
  ten_ascii_digits s = true -> Phone_init s = Ok (mkPhone s).
Proof.
  unfold ten_ascii_digits. rewrite andb_true_iff. intros [Hl Hd].
  rewrite Phone_init_eq, Hl. simpl.
  replace (forallb Unicode.isdigit s) with true; [reflexivity|].
  symmetry. rewrite forallb_forall in *.
  intros c Hc. apply ascii_digit_isdigit. auto.
Qed.

(** C4, as the specification states it, fails: a string of ten digits that
    are not ASCII digits is accepted as a phone. *)
Lemma Phone_init_accepts_non_ascii_digits :
  ten_ascii_digits arabic_indic_zeros = false
  /\ Phone_init arabic_indic_zeros = Ok (mkPhone arabic_indic_zeros).
Proof. split; reflexivity. Qed.

(** C4, amended: [Phone(s)] succeeds exactly when [s] has ten characters,
    each of them a digit in the sense of [str.isdigit] (any Unicode digit);
    the phone then renders as [s]; every other string is refused with the
    [ValueError] "Phone must be 10 digits."; and every string of ten ASCII
    digits is among the accepted ones. *)
Theorem Phone_init_ten_unicode_digits (s : str) :
  ((exists p, Phone_init s = Ok p)
   <-> (List.length s = 10%nat /\ forallb Unicode.isdigit s = true))
  /\ (forall p, Phone_init s = Ok p -> Phone_str p = s)
  /\ ((forall p, Phone_init s <> Ok p)
      -> Phone_init s = Raise (ValueError (py "Phone must be 10 digits.")))
  /\ (ten_ascii_digits s = true -> Phone_init s = Ok (mkPhone s)).
Proof.
  split; [split | split; [| split]].
  - intros [p H]. apply (Phone_init_Ok_inv _ _ H).
  - intros [Hl Hd]. exists (mkPhone s). rewrite Phone_init_eq, Hd.
    apply len_eq_10 in Hl. rewrite Hl. reflexivity.
  - intros p H. destruct (Phone_init_Ok_inv _ _ H) as [-> _]. reflexivity.
  - intros H. rewrite Phone_init_eq in *.
    destruct ((len s =? 10) && forallb Unicode.isdigit s);
      [exfalso; eapply H; reflexivity | reflexivity].
  - apply Phone_init_ascii.
Qed.

Lemma Phone_init_ten_unicode_digits_witness :
  Phone_init (py "0123456789") = Ok (mkPhone (py "0123456789"))
  /\ Phone_str (mkPhone (py "0123456789")) = py "0123456789".
Proof.
  pose proof (Phone_init_ten_unicode_digits (py "0123456789"))
    as (_ & Hstr & _ & Hascii).
  assert (H : Phone_init (py "0123456789") = Ok (mkPhone (py "0123456789")))
    by (apply Hascii; reflexivity).
  split; [exact H | exact (Hstr _ H)].
Defined.

(** ** Editing a phone *)

Lemma edit_phone_loop_absent (old_phone new_phone : str) (rest : list Phone) :
  List.find (is_phone old_phone) rest = None ->
  forall seen,
    edit_phone_loop old_phone new_phone seen rest
    = Raise (ValueError (py "Phone number not found.")).
Proof.
  induction rest as [|p rest IH]; simpl; intros H seen; [reflexivity|].
  unfold is_phone in H at 1.
  destruct (str_eqb (Phone_value p) old_phone); [discriminate|].
  apply IH; assumption.
Qed.

Lemma edit_phone_loop_present (old_phone new_phone : str) (q : Phone) :
  Phone_init new_phone = Ok q ->
  forall rest p0 seen,
    List.find (is_phone old_phone) rest = Some p0 ->
    exists pre post,
      rest = pre ++ p0 :: post
      /\ Phone_value p0 = old_phone
      /\ List.find (is_phone old_phone) pre = None
      /\ edit_phone_loop old_phone new_phone seen rest
         = Ok (seen ++ pre ++ q :: post).
Proof.
  intros Hq. induction rest as [|p rest IH]; simpl; intros p0 seen H;
    [discriminate|].
  unfold is_phone in H at 1.
  destruct (str_eqb (Phone_value p) old_phone) eqn:E.
  - injection H as Hp; subst p0. exists [], rest. rewrite Hq.
    repeat split. apply str_eqb_eq; assumption.
  - destruct (IH p0 (seen ++ [p]) H) as (pre & post & -> & Hv & Hpre & Hloop).
    exists (p :: pre), post. repeat split; try assumption.
    + simpl. unfold is_phone at 1. rewrite E. assumption.
    + rewrite Hloop, <- app_assoc. reflexivity.
Qed.

Lemma find_app_none {A : Type} (f : A -> bool) (l1 l2 : list A) :
  List.find f l1 = None -> List.find f (l1 ++ l2) = List.find f l2.
Proof.
  induction l1 as [|x l1 IH]; simpl; [reflexivity|].
  destruct (f x); [discriminate | assumption].
Qed.

Lemma find_app_some {A : Type} (f : A -> bool) (l1 l2 : list A) (x : A) :
  List.find f l1 = Some x -> List.find f (l1 ++ l2) = Some x.
Proof.
  induction l1 as [|y l1 IH]; simpl; [discriminate|].
  destruct (f y); [trivial | assumption].
Qed.

Lemma find_is_phone_value (n : str) (ps : list Phone) (p : Phone) :
  List.find (is_phone n) ps = Some p -> Phone_value p = n.
Proof.
  intros H. apply find_some in H. apply str_eqb_eq. apply H.
Qed.

Lemma count_phone_app (n : str) (l1 l2 : list Phone) :
  count_phone n (l1 ++ l2) = (count_phone n l1 + count_phone n l2)%nat.
Proof. unfold count_phone. rewrite filter_app, length_app. reflexivity. Qed.

Lemma count_phone_zero_find (n : str) (ps : list Phone) :
  count_phone n ps = 0%nat -> List.find (is_phone n) ps = None.
Proof.
  unfold count_phone. induction ps as [|p ps IH]; simpl; [reflexivity|].
  unfold is_phone at 1.
  destruct (str_eqb (Phone_value p) n); simpl; [discriminate | assumption].
Qed.

Lemma edit_phone_eq (old_phone new_phone : str) (r : Record_) :
  edit_phone old_phone new_phone r =
  match edit_phone_loop old_phone new_phone [] (phones r) with
  | Ok ps => (Ok tt, set_phones ps r)
  | Raise e => (Raise e, r)
  end.
Proof.
  unfold edit_phone, bind, get, lift, put.
  destruct (edit_phone_loop old_phone new_phone [] (phones r)); reflexivity.
Qed.

(** C3, as the specification states it, fails: when the old number is
    stored twice, the edit replaces the first copy and [find_phone] still
    finds the second. *)
Lemma edit_phone_leaves_later_copies :
  ~ (forall (r : Record_) (old_phone new_phone : str) (q : Phone),
        find_phone old_phone r <> None ->
        Phone_init new_phone = Ok q ->
        exists r',
          edit_phone old_phone new_phone r = (Ok tt, r')
          /\ find_phone old_phone r' = None
          /\ find_phone new_phone r' <> None).
Proof.
  intros H.
  destruct (H twice_stored (py "1111111111") (py "2222222222")
              (mkPhone (py "2222222222")))
    as (r' & Hedit & Hold & _).
  - vm_compute. discriminate.
  - reflexivity.
  - vm_compute in Hedit. injection Hedit as <-. vm_compute in Hold.
    discriminate.
Qed.

(** C3, amended: when [old_phone] is stored and [new_phone] is valid,
    [edit_phone] puts the new phone in the place of the first phone equal
    to [old_phone] and changes nothing else; afterwards [find_phone] finds
    [new_phone], and it no longer finds [old_phone] provided the two
    numbers differ and [old_phone] was stored once. When [old_phone] is not
    stored, [edit_phone] raises the [ValueError] "Phone number not found."
    and the record is as before. *)
Theorem edit_phone_replaces_first
  (r : Record_) (old_phone new_phone : str) :
  (forall p0 q,
      find_phone old_phone r = Some p0 ->
      Phone_init new_phone = Ok q ->
      exists pre post,
        phones r = pre ++ p0 :: post
        /\ List.find (is_phone old_phone) pre = None
        /\ edit_phone old_phone new_phone r
           = (Ok tt, set_phones (pre ++ q :: post) r)
        /\ (exists p,
               find_phone new_phone (set_phones (pre ++ q :: post) r) = Some p
               /\ Phone_value p = new_phone)
        /\ (old_phone <> new_phone ->
            count_phone old_phone (phones r) = 1%nat ->
            find_phone old_phone (set_phones (pre ++ q :: post) r) = None))
  /\ (find_phone old_phone r = None ->
      edit_phone old_phone new_phone r
      = (Raise (ValueError (py "Phone number not found.")), r)).
Proof.
  split.
  - intros p0 q Hfind Hq.
    destruct (edit_phone_loop_present old_phone new_phone q Hq
                (phones r) p0 [] Hfind)
      as (pre & post & Hps & Hv & Hpre & Hloop).
    exists pre, post.
    assert (Hqv : Phone_value q = new_phone)
      by (destruct (Phone_init_Ok_inv _ _ Hq) as [-> _]; reflexivity).
    split; [assumption|]. split; [assumption|]. split; [|split].
    + rewrite edit_phone_eq, Hloop. reflexivity.
    + unfold find_phone; simpl. fold (is_phone new_phone).
      destruct (List.find (is_phone new_phone) pre) as [x|] eqn:E.
      * exists x. split; [apply find_app_some; assumption|].
        eapply find_is_phone_value; eassumption.
      * exists q. rewrite find_app_none by assumption. simpl.
        unfold is_phone at 1. rewrite Hqv, str_eqb_refl. auto.
    + intros Hne Hcount. unfold find_phone; simpl. fold (is_phone old_phone).
      rewrite find_app_none by assumption. simpl.
      unfold is_phone at 1. rewrite Hqv.
      replace (str_eqb new_phone old_phone) with false
        by (symmetry; apply str_eqb_neq; congruence).
      apply count_phone_zero_find.
      rewrite Hps, count_phone_app in Hcount.
      change (p0 :: post) with ([p0] ++ post) in Hcount.
      rewrite count_phone_app in Hcount.
      assert (count_phone old_phone [p0] = 1%nat).
      { unfold count_phone; simpl. rewrite Hv, str_eqb_refl. reflexivity. }
      lia.
  - intros Hfind. rewrite edit_phone_eq.
    rewrite (edit_phone_loop_absent old_phone new_phone (phones r) Hfind).
    reflexivity.
Qed.

Lemma edit_phone_replaces_first_witness :
  (exists pre post,
      phones alice_two_phones = pre ++ mkPhone (py "0123456789") :: post
      /\ List.find (is_phone (py "0123456789")) pre = None
      /\ edit_phone (py "0123456789") (py "5556667778") alice_two_phones
         = (Ok tt,
            set_phones (pre ++ mkPhone (py "5556667778") :: post)
              alice_two_phones)
      /\ (exists p,
             find_phone (py "5556667778")
               (set_phones (pre ++ mkPhone (py "5556667778") :: post)
                  alice_two_phones)
             = Some p
             /\ Phone_value p = py "5556667778")
      /\ (py "0123456789" <> py "5556667778" ->
          count_phone (py "0123456789") (phones alice_two_phones) = 1%nat ->
          find_phone (py "0123456789")
            (set_phones (pre ++ mkPhone (py "5556667778") :: post)
               alice_two_phones)
          = None))
  /\ edit_phone (py "0000000000") (py "5556667778") alice_two_phones
     = (Raise (ValueError (py "Phone number not found.")), alice_two_phones).
Proof.
  split.
  - exact (proj1 (edit_phone_replaces_first alice_two_phones
                    (py "0123456789") (py "5556667778"))
             (mkPhone (py "0123456789")) (mkPhone (py "5556667778"))
             eq_refl eq_refl).
  - exact (proj2 (edit_phone_replaces_first alice_two_phones
                    (py "0000000000") (py "5556667778")) eq_refl).
Defined.

(** ** Dates *)

Lemma valid_fields (d : date) :
  valid d ->
  1 <= year d <= 9999 /\ 1 <= month d <= 12
  /\ 1 <= day d <= days_in_month (year d) (month d).
Proof.
  unfold valid, new, MINYEAR, MAXYEAR.
  destruct ((1 <=? year d) && (year d <=? 9999)) eqn:Hy; simpl; [|discriminate].
  destruct ((1 <=? month d) && (month d <=? 12)) eqn:Hm; simpl; [|discriminate].
  destruct ((1 <=? day d) && (day d <=? days_in_month (year d) (month d)))
    eqn:Hd; simpl; [|discriminate].
  intros _. lia.
Qed.

Lemma new_valid (y m d : Z) :
  1 <= y <= 9999 -> 1 <= m <= 12 -> 1 <= d <= days_in_month y m ->
  new y m d = Ok (mkdate y m d).
Proof.
  intros Hy Hm Hd. unfold new, MINYEAR, MAXYEAR.
  replace ((1 <=? y) && (y <=? 9999)) with true by lia.
  replace ((1 <=? m) && (m <=? 12)) with true by lia.
  replace ((1 <=? d) && (d <=? days_in_month y m)) with true by lia.
  reflexivity.
Qed.

Lemma new_Ok_inv (y m d : Z) (x : date) :
  new y m d = Ok x ->
  x = mkdate y m d /\ 1 <= y <= 9999 /\ 1 <= m <= 12
  /\ 1 <= d <= days_in_month y m.
Proof.
  unfold new, MINYEAR, MAXYEAR.
  destruct ((1 <=? y) && (y <=? 9999)) eqn:Hy; simpl; [|discriminate].
  destruct ((1 <=? m) && (m <=? 12)) eqn:Hm; simpl; [|discriminate].
  destruct ((1 <=? d) && (d <=? days_in_month y m)) eqn:Hd; simpl;
    [|discriminate].
  intros [= <-]. repeat split; lia.
Qed.

Lemma new_Ok_valid (y m d : Z) (x : date) : new y m d = Ok x -> valid x.
Proof.
  intros H. destruct (new_Ok_inv _ _ _ _ H) as (-> & _). exact H.
Qed.

Lemma new_raises_ValueError (y m d : Z) (e : exn) :
  new y m d = Raise e -> exists msg, e = ValueError msg.
Proof.
  unfold new.
  repeat match goal with
         | |- context [if ?b then _ else _] => destruct b
         end; intros [= <-]; eauto.
Qed.

Lemma in_range_cases (lo n : nat) (d : Z) :
  Z.of_nat lo <= d < Z.of_nat (lo + n) -> In d (map Z.of_nat (seq lo n)).
Proof.
  intros H. replace d with (Z.of_nat (Z.to_nat d)) by lia.
  apply in_map, in_seq. lia.
Qed.

Lemma days_in_month_le_31 (y m : Z) : 1 <= m <= 12 -> days_in_month y m <= 31.
Proof.
  intros H. unfold days_in_month.
  destruct ((m =? 2) && is_leap y); [lia|].
  pose proof (in_range_cases 1 12 m ltac:(lia)) as Hin.
  simpl in Hin.
  repeat (destruct Hin as [<-|Hin]; [simpl; lia|]). destruct Hin.
Qed.

(** ** Parsing what [strftime] prints *)

Ltac each_case H :=
  simpl in H;
  repeat (destruct H as [<-|H]; [|]); [..|destruct H].

Lemma rmatch_day (d : Z) (K : re) (t : str) :
  1 <= d <= 31 ->
  rmatch (Cat (Grp g_d re_d) (Cat (Chr (chr ".")) K))
         (two_digits d ++ chr "." :: t)
  = map (fun f : found =>
           let '(caps, text, rest) := f in
           ((g_d, two_digits d) :: caps, two_digits d ++ chr "." :: text, rest))
        (rmatch K t).
Proof.
  intros H. pose proof (in_range_cases 1 31 d ltac:(lia)) as Hin.
  each_case Hin;
    cbn; rewrite ?app_nil_r, ?map_map; apply map_ext; intros [[? ?] ?];
    reflexivity.
Qed.

Lemma rmatch_month (m : Z) (K : re) (t : str) :
  1 <= m <= 12 ->
  rmatch (Cat (Grp g_m re_m) (Cat (Chr (chr ".")) K))
         (two_digits m ++ chr "." :: t)
  = map (fun f : found =>
           let '(caps, text, rest) := f in
           ((g_m, two_digits m) :: caps, two_digits m ++ chr "." :: text, rest))
        (rmatch K t).
Proof.
  intros H. pose proof (in_range_cases 1 12 m ltac:(lia)) as Hin.
  each_case Hin;
    cbn; rewrite ?app_nil_r, ?map_map; apply map_ext; intros [[? ?] ?];
    reflexivity.
Qed.

Lemma digit_char_facts (k : Z) :
  0 <= k <= 9 ->
  Unicode.isdecimal (digit_char k) = true
  /\ Unicode.decimal_value (digit_char k) = Some k
  /\ Unicode.isspace (digit_char k) = false
  /\ Unicode.is_ascii_digit (digit_char k) = true.
Proof.
  intros H. pose proof (in_range_cases 0 10 k ltac:(lia)) as Hin.
  each_case Hin; vm_compute; auto.
Qed.

Lemma rmatch_year_chars (c1 c2 c3 c4 : N) :
  Unicode.isdecimal c1 = true -> Unicode.isdecimal c2 = true ->
  Unicode.isdecimal c3 = true -> Unicode.isdecimal c4 = true ->
  rmatch (Grp g_Y re_Y) [c1; c2; c3; c4]
  = [([(g_Y, [c1; c2; c3; c4])], [c1; c2; c3; c4], [])].
Proof.
  intros H1 H2 H3 H4. unfold re_Y.
  do 4 (cbn [rmatch one_char flat_map map app]; rewrite ?H1, ?H2, ?H3, ?H4).
  reflexivity.
Qed.

Lemma strip_chars (c : N) (l : str) (c' : N) :
  Unicode.isspace c = false -> Unicode.isspace c' = false ->
  strip (c :: l ++ [c']) = c :: l ++ [c'].
Proof.
  intros H H'. unfold strip. cbn [lstrip]. rewrite H.
  change (c :: l ++ [c']) with ((c :: l) ++ [c']).
  rewrite rev_app_distr.
  change (rev [c'] ++ rev (c :: l)) with (c' :: rev (c :: l)).
  remember (rev (c :: l)) as t eqn:Ht.
  cbn [lstrip]. rewrite H'. cbn [rev]. subst t.
  rewrite rev_involutive. reflexivity.
Qed.

Lemma int_two_chars (c1 c2 : N) (v1 v2 : Z) :
  Unicode.isspace c1 = false -> Unicode.isspace c2 = false ->
  Unicode.decimal_value c1 = Some v1 -> Unicode.decimal_value c2 = Some v2 ->
  int [c1; c2] = Ok (10 * v1 + v2).
Proof.
  intros S1 S2 D1 D2. unfold int.
  pose proof (strip_chars c1 [] c2 S1 S2) as E. cbn [app] in E.
  rewrite E. cbn [decimal_digits].
  rewrite D1, D2. f_equal; lia.
Qed.

Lemma int_four_chars (c1 c2 c3 c4 : N) (v1 v2 v3 v4 : Z) :
  Unicode.isspace c1 = false -> Unicode.isspace c4 = false ->
  Unicode.decimal_value c1 = Some v1 -> Unicode.decimal_value c2 = Some v2 ->
  Unicode.decimal_value c3 = Some v3 -> Unicode.decimal_value c4 = Some v4 ->
  int [c1; c2; c3; c4] = Ok (1000 * v1 + 100 * v2 + 10 * v3 + v4).
Proof.
  intros S1 S4 D1 D2 D3 D4. unfold int.
  pose proof (strip_chars c1 [c2; c3] c4 S1 S4) as E. cbn [app] in E.
  rewrite E. cbn [decimal_digits].
  rewrite D1, D2, D3, D4. f_equal; lia.
Qed.

Lemma int_two_digits (n : Z) : 0 <= n <= 99 -> int (two_digits n) = Ok n.
Proof.
  intros H. unfold two_digits.
  assert (H1 : 0 <= n / 10 <= 9).
  { pose proof (Z.div_pos n 10). pose proof (Z.div_lt_upper_bound n 10 10).
    lia. }
  assert (H2 : 0 <= n mod 10 <= 9) by (pose proof (Z.mod_pos_bound n 10); lia).
  destruct (digit_char_facts _ H1) as (_ & D1 & S1 & _).
  destruct (digit_char_facts _ H2) as (_ & D2 & S2 & _).
  rewrite (int_two_chars _ _ _ _ S1 S2 D1 D2). f_equal.
  pose proof (Z.div_mod n 10). lia.
Qed.

Lemma four_digits_bounds (n : Z) :
  0 <= n <= 9999 ->
  0 <= n / 1000 <= 9 /\ 0 <= n / 100 mod 10 <= 9
  /\ 0 <= n / 10 mod 10 <= 9 /\ 0 <= n mod 10 <= 9
  /\ 1000 * (n / 1000) + 100 * (n / 100 mod 10) + 10 * (n / 10 mod 10)
     + n mod 10 = n.
Proof.
  intros H. Z.to_euclidean_division_equations. lia.
Qed.

Lemma int_four_digits (n : Z) : 0 <= n <= 9999 -> int (four_digits n) = Ok n.
Proof.
  intros H. unfold four_digits.
  destruct (four_digits_bounds n H) as (H1 & H2 & H3 & H4 & Hsum).
  destruct (digit_char_facts _ H1) as (_ & D1 & S1 & _).
  destruct (digit_char_facts _ H2) as (_ & D2 & _).
  destruct (digit_char_facts _ H3) as (_ & D3 & _).
  destruct (digit_char_facts _ H4) as (_ & D4 & S4 & _).
  rewrite (int_four_chars _ _ _ _ _ _ _ _ S1 S4 D1 D2 D3 D4).
  f_equal. exact Hsum.
Qed.

Lemma rmatch_year (y : Z) :
  0 <= y <= 9999 ->
  rmatch (Grp g_Y re_Y) (four_digits y)
  = [([(g_Y, four_digits y)], four_digits y, [])].
Proof.
  intros H. unfold four_digits.
  destruct (four_digits_bounds y H) as (H1 & H2 & H3 & H4 & _).
  apply rmatch_year_chars; apply digit_char_facts; assumption.
Qed.

(** [strptime] reads a text of the shape DD.MM.YYYY as its three numbers. *)
Lemma strptime_dmY (d m y : Z) :
  1 <= d <= 31 -> 1 <= m <= 12 -> 0 <= y <= 9999 ->
  strptime (dmY d m y) = new y m d.
Proof.
  intros Hd Hm Hy. unfold strptime, dmY, format_regex.
  change (py ".") with [chr "."].
  change (two_digits d ++ [chr "."] ++ two_digits m
          ++ [chr "."] ++ four_digits y)
    with (two_digits d ++ chr "." ::
          (two_digits m ++ chr "." :: four_digits y)).
  rewrite rmatch_day by lia. rewrite rmatch_month by lia.
  rewrite rmatch_year by lia.
  cbn [map is_empty negb lookup group_eqb].
  rewrite int_four_digits by lia.
  rewrite !int_two_digits by lia.
  reflexivity.
Qed.

Lemma strptime_dmY_valid (d : date) :
  valid d -> strptime (dmY (day d) (month d) (year d)) = Ok d.
Proof.
  intros Hv. destruct (valid_fields d Hv) as (Hy & Hm & Hd).
  pose proof (days_in_month_le_31 (year d) (month d) Hm) as H31.
  rewrite strptime_dmY by lia. exact Hv.
Qed.

(** From the year 1000 on the year is printed on four digits. *)
Lemma str_of_int_four_digits (y : Z) :
  1000 <= y <= 9999 -> str_of_int y = four_digits y.
Proof.
  intros H. unfold str_of_int, four_digits.
  assert (Hlog : 9 <= Z.log2 y).
  { change 9 with (Z.log2 512). apply Z.log2_le_mono. lia. }
  destruct (Z.to_nat (Z.log2 y)) as [|[|[|n]]] eqn:E; try lia.
  cbn [digits_of].
  replace (y <? 10) with false by lia.
  replace (y / 10 <? 10) with false
    by (symmetry; apply Z.ltb_ge; Z.to_euclidean_division_equations; lia).
  replace (y / 10 / 10 <? 10) with false
    by (symmetry; apply Z.ltb_ge; Z.to_euclidean_division_equations; lia).
  replace (y / 10 / 10 / 10 <? 10) with true
    by (symmetry; apply Z.ltb_lt; Z.to_euclidean_division_equations; lia).
  replace (y / 10 / 10 / 10 mod 10) with (y / 1000)
    by (Z.to_euclidean_division_equations; lia).
  replace (y / 10 / 10) with (y / 100)
    by (Z.to_euclidean_division_equations; lia).
  reflexivity.
Qed.

Lemma strftime_dmY (d : date) :
  1000 <= year d <= 9999 -> strftime d = dmY (day d) (month d) (year d).
Proof.
  intros H. unfold strftime, dmY. rewrite str_of_int_four_digits by assumption.
  reflexivity.
Qed.

(** ** Birthdays *)

Lemma int_raises_ValueError (s : str) (e : exn) :
  int s = Raise e -> exists msg, e = ValueError msg.
Proof.
  unfold int. destruct (strip s) as [|c t]; [intros [= <-]; eauto|].
  destruct (decimal_digits (c :: t) 0); [discriminate|].
  intros [= <-]; eauto.
Qed.

Lemma strptime_raises_ValueError (s : str) (e : exn) :
  strptime s = Raise e -> exists msg, e = ValueError msg.
Proof.
  unfold strptime.
  destruct (rmatch format_regex s) as [|[[caps text] rest] l];
    [intros [= <-]; eauto|].
  destruct (negb (is_empty rest)); [intros [= <-]; eauto|].
  destruct (int (lookup g_Y caps)) eqn:EY;
    [|intros [= <-]; eapply int_raises_ValueError; eassumption].
  destruct (int (lookup g_m caps)) eqn:Em;
    [|intros [= <-]; eapply int_raises_ValueError; eassumption].
  destruct (int (lookup g_d caps)) eqn:Ed;
    [|intros [= <-]; eapply int_raises_ValueError; eassumption].
  apply new_raises_ValueError.
Qed.

Lemma strptime_Ok_valid (s : str) (d : date) : strptime s = Ok d -> valid d.
Proof.
  unfold strptime.
  destruct (rmatch format_regex s) as [|[[caps text] rest] l]; [discriminate|].
  destruct (negb (is_empty rest)); [discriminate|].
  destruct (int (lookup g_Y caps)); [|discriminate].
  destruct (int (lookup g_m caps)); [|discriminate].
  destruct (int (lookup g_d caps)); [|discriminate].
  apply new_Ok_valid.
Qed.

Lemma Birthday_init_past (today : date) (s : str) (d : date) :
  strptime s = Ok d -> gtb d today = false ->
  Birthday_init today s = Ok (mkBirthday d).
Proof. intros Hs Hd. unfold Birthday_init. rewrite Hs, Hd. reflexivity. Qed.

Lemma Birthday_init_future (today : date) (s : str) (d : date) :
  strptime s = Ok d -> gtb d today = true ->
  Birthday_init today s
  = Raise (ValueError (py "Birthday cannot be in the future.")).
Proof. intros Hs Hd. unfold Birthday_init. rewrite Hs, Hd. reflexivity. Qed.

Lemma Birthday_init_unparsed (today : date) (s : str) :
  (forall d, strptime s <> Ok d) ->
  exists msg, Birthday_init today s = Raise (ValueError msg).
Proof.
  intros H. unfold Birthday_init.
  destruct (strptime s) as [d|e] eqn:E; [exfalso; eapply H; reflexivity|].
  destruct (strptime_raises_ValueError _ _ E) as [msg ->].
  destruct (contains (py "time data") msg); eauto.
Qed.

(** Whatever [Birthday(value)] raises is a [ValueError]. *)
Lemma Birthday_init_raises_ValueError (today : date) (s : str) (e : exn) :
  Birthday_init today s = Raise e -> exists msg, e = ValueError msg.
Proof.
  unfold Birthday_init.
  destruct (strptime s) as [d|e0] eqn:E.
  - destruct (gtb d today); [|discriminate].
    cbn. intros [= <-]; eauto.
  - destruct (strptime_raises_ValueError _ _ E) as [msg ->].
    destruct (contains (py "time data") msg); intros [= <-]; eauto.
Qed.

(** A stored birthday is a date the constructor built, not after the day
    of the check. *)
Lemma Birthday_init_Ok_inv (today : date) (s : str) (b : Birthday) :
  Birthday_init today s = Ok b ->
  valid (Birthday_value b) /\ gtb (Birthday_value b) today = false
  /\ strptime s = Ok (Birthday_value b).
Proof.
  unfold Birthday_init.
  destruct (strptime s) as [d|e0] eqn:E.
  - destruct (gtb d today) eqn:G; [cbn; discriminate|].
    intros [= <-]. simpl. repeat split; try assumption.
    eapply strptime_Ok_valid; eassumption.
  - destruct (strptime_raises_ValueError _ _ E) as [msg ->].
    destruct (contains (py "time data") msg); discriminate.
Qed.

Lemma add_birthday_eq (today : date) (s : str) (r : Record_) :
  add_birthday today s r =
  match Birthday_init today s with
  | Ok b => (Ok tt, set_birthday b r)
  | Raise e => (Raise e, r)
  end.
Proof.
  unfold add_birthday, bind, lift, get, put.
  destruct (Birthday_init today s); reflexivity.
Qed.

(** ** The texts [strptime] reads *)

Lemma isdecimal_value (c : N) :
  Unicode.isdecimal c = true <-> exists v, Unicode.decimal_value c = Some v.
Proof.
  unfold Unicode.isdecimal, Unicode.in_ranges, Unicode.decimal_value.
  generalize Unicode.decimal_ranges as l.
  induction l as [|r l IH]; cbn [existsb List.find].
  - split; [discriminate | intros [v H]; discriminate].
  - destruct ((fst r <=? c)%N && (c <=? snd r)%N); cbn [orb]; [|exact IH].
    split; eauto.
Qed.

Lemma decimal_value_bounds (c : N) (v : Z) :
  Unicode.decimal_value c = Some v -> 0 <= v <= 9.
Proof.
  unfold Unicode.decimal_value.
  destruct (List.find _ Unicode.decimal_ranges) as [r|]; [|discriminate].
  intros [= <-].
  pose proof (N.mod_upper_bound (c - fst r) 10 ltac:(discriminate)) as H.
  revert H. generalize ((c - fst r) mod 10)%N. intros n H. lia.
Qed.

Lemma isspace_cases (c : N) :
  Unicode.isspace c = true ->
  In c [9; 10; 11; 12; 13; 28; 29; 30; 31; 32; 133; 160; 5760; 8192; 8193;
        8194; 8195; 8196; 8197; 8198; 8199; 8200; 8201; 8202; 8232; 8233;
        8239; 8287; 12288]%N.
Proof.
  unfold Unicode.isspace, Unicode.in_ranges, Unicode.whitespace_ranges.
  cbn [existsb fst snd In].
  rewrite !orb_true_iff, !andb_true_iff, !N.leb_le. lia.
Qed.

Lemma decimal_not_space (c : N) :
  Unicode.isdecimal c = true -> Unicode.isspace c = false.
Proof.
  intros Hdec. destruct (Unicode.isspace c) eqn:E; [|reflexivity].
  apply isspace_cases in E. cbn [In] in E.
  repeat (destruct E as [<-|E]; [vm_compute in Hdec; discriminate|]).
  destruct E.
Qed.

Lemma decimal_not_dot (c : N) :
  Unicode.isdecimal c = true -> N.eqb (chr ".") c = false.
Proof.
  intros Hdec. destruct (N.eqb_spec (chr ".") c) as [<-|]; [|reflexivity].
  vm_compute in Hdec. discriminate.
Qed.

Lemma between_cases (lo hi : string) (c : N) :
  between lo hi c = true ->
  In c (map (fun k => (chr lo + N.of_nat k)%N)
            (seq 0 (S (N.to_nat (chr hi - chr lo))))).
Proof.
  unfold between. rewrite andb_true_iff, !N.leb_le. intros [H1 H2].
  apply in_map_iff. exists (N.to_nat (c - chr lo)). split; [lia|].
  apply in_seq. lia.
Qed.

(** The tests of the matcher on characters that are known. *)
Ltac is_pos_literal p :=
  lazymatch p with
  | xH => idtac
  | xO ?q => is_pos_literal q
  | xI ?q => is_pos_literal q
  end.

Ltac is_char_literal x :=
  lazymatch x with
  | N0 => idtac
  | Npos ?p => is_pos_literal p
  | chr _ => idtac
  end.

Ltac known_tests :=
  repeat match goal with
         | |- context [N.eqb ?x ?y] =>
             is_char_literal x; is_char_literal y;
             let v := eval vm_compute in (N.eqb x y) in
             change (N.eqb x y) with v
         | |- context [N.leb ?x ?y] =>
             is_char_literal x; is_char_literal y;
             let v := eval vm_compute in (N.leb x y) in
             change (N.leb x y) with v
         | |- context [Unicode.isdecimal ?x] =>
             is_char_literal x;
             let v := eval vm_compute in (Unicode.isdecimal x) in
             change (Unicode.isdecimal x) with v
         end.

Ltac run_matcher :=
  repeat (cbn [rmatch one_char flat_map map app andb orb negb];
          known_tests;
          repeat match goal with
                 | H : Unicode.isdecimal ?b = true |- _ => rewrite H
                 | H : N.eqb (chr ".") ?b = false |- _ => rewrite H
                 end).

Ltac same_map :=
  rewrite ?app_nil_r, ?map_map; apply map_ext; intros [[? ?] ?];
  reflexivity.

Ltac each_char H :=
  apply between_cases in H; vm_compute in H;
  repeat (destruct H as [<-|H]; [|]); [..|destruct H].

Lemma rmatch_day_text (dt : str) (d : Z) (K : re) (t : str) :
  day_text dt = Some d ->
  rmatch (Cat (Grp g_d re_d) (Cat (Chr (chr ".")) K)) (dt ++ chr "." :: t)
  = map (fun f : found =>
           let '(caps, text, rest) := f in
           ((g_d, dt) :: caps, dt ++ chr "." :: text, rest))
        (rmatch K t).
Proof.
  destruct dt as [|a [|b [|c dt]]]; try discriminate; unfold day_text, re_d.
  - destruct (between "1" "9" a) eqn:Ha; [|discriminate]. intros _.
    each_char Ha; run_matcher; same_map.
  - destruct (N.eqb a (chr "3") && between "0" "1" b) eqn:E1.
    + intros _. apply andb_true_iff in E1. destruct E1 as [Ea Eb].
      apply N.eqb_eq in Ea. subst a.
      each_char Eb; run_matcher; same_map.
    + destruct (between "1" "2" a) eqn:Ha.
      * destruct (Unicode.decimal_value b) as [v|] eqn:Db; [|discriminate].
        intros _.
        assert (Hdec : Unicode.isdecimal b = true)
          by (apply isdecimal_value; eauto).
        pose proof (decimal_not_dot b Hdec) as Hdot.
        each_char Ha; run_matcher; same_map.
      * destruct ((N.eqb a (chr "0") || N.eqb a (chr " "))
                  && between "1" "9" b) eqn:E3; [|discriminate].
        intros _. apply andb_true_iff in E3. destruct E3 as [Ea Eb].
        apply orb_true_iff in Ea.
        destruct Ea as [Ea|Ea]; apply N.eqb_eq in Ea; subst a;
          each_char Eb; run_matcher; same_map.
Qed.

Lemma rmatch_month_text (mt : str) (m : Z) (K : re) (t : str) :
  month_text mt = Some m ->
  rmatch (Cat (Grp g_m re_m) (Cat (Chr (chr ".")) K)) (mt ++ chr "." :: t)
  = map (fun f : found =>
           let '(caps, text, rest) := f in
           ((g_m, mt) :: caps, mt ++ chr "." :: text, rest))
        (rmatch K t).
Proof.
  destruct mt as [|a [|b [|c mt]]]; try discriminate;
    unfold month_text, re_m.
  - destruct (between "1" "9" a) eqn:Ha; [|discriminate]. intros _.
    each_char Ha; run_matcher; same_map.
  - destruct (N.eqb a (chr "1") && between "0" "2" b) eqn:E1.
    + intros _. apply andb_true_iff in E1. destruct E1 as [Ea Eb].
      apply N.eqb_eq in Ea. subst a.
      each_char Eb; run_matcher; same_map.
    + destruct (N.eqb a (chr "0") && between "1" "9" b) eqn:E2;
        [|discriminate].
      intros _. apply andb_true_iff in E2. destruct E2 as [Ea Eb].
      apply N.eqb_eq in Ea. subst a.
      each_char Eb; run_matcher; same_map.
Qed.

Lemma year_text_chars (yt : str) (y : Z) :
  year_text yt = Some y ->
  exists a b c d va vb vc vd,
    yt = [a; b; c; d]
    /\ Unicode.decimal_value a = Some va /\ Unicode.decimal_value b = Some vb
    /\ Unicode.decimal_value c = Some vc /\ Unicode.decimal_value d = Some vd
    /\ y = 1000 * va + 100 * vb + 10 * vc + vd.
Proof.
  destruct yt as [|a [|b [|c [|d [|e yt]]]]]; try discriminate.
  unfold year_text.
  destruct (Unicode.decimal_value a) as [va|] eqn:Ha; [|discriminate].
  destruct (Unicode.decimal_value b) as [vb|] eqn:Hb; [|discriminate].
  destruct (Unicode.decimal_value c) as [vc|] eqn:Hc; [|discriminate].
  destruct (Unicode.decimal_value d) as [vd|] eqn:Hd; [|discriminate].
  intros [= <-]. exists a, b, c, d, va, vb, vc, vd. auto 10.
Qed.

Lemma rmatch_year_text (yt : str) (y : Z) :
  year_text yt = Some y ->
  rmatch (Grp g_Y re_Y) yt = [([(g_Y, yt)], yt, [])].
Proof.
  intros H.
  destruct (year_text_chars _ _ H)
    as (a & b & c & d & va & vb & vc & vd & -> & Ha & Hb & Hc & Hd & _).
  apply rmatch_year_chars; apply isdecimal_value; eauto.
Qed.

Lemma int_year_text (yt : str) (y : Z) :
  year_text yt = Some y -> int yt = Ok y.
Proof.
  intros H.
  destruct (year_text_chars _ _ H)
    as (a & b & c & d & va & vb & vc & vd & -> & Ha & Hb & Hc & Hd & ->).
  apply int_four_chars; try assumption;
    apply decimal_not_space, isdecimal_value; eauto.
Qed.

Lemma int_day_text (dt : str) (d : Z) : day_text dt = Some d -> int dt = Ok d.
Proof.
  destruct dt as [|a [|b [|c dt]]]; try discriminate; unfold day_text.
  - destruct (between "1" "9" a) eqn:Ha; [|discriminate]. intros [= <-].
    each_char Ha; reflexivity.
  - destruct (N.eqb a (chr "3") && between "0" "1" b) eqn:E1.
    + intros [= <-]. apply andb_true_iff in E1. destruct E1 as [Ea Eb].
      apply N.eqb_eq in Ea. subst a. each_char Eb; reflexivity.
    + destruct (between "1" "2" a) eqn:Ha.
      * destruct (Unicode.decimal_value b) as [v|] eqn:Db; [|discriminate].
        intros [= <-].
        assert (Hs : Unicode.isspace b = false)
          by (apply decimal_not_space, isdecimal_value; eauto).
        each_char Ha;
          apply int_two_chars; try assumption; reflexivity.
      * destruct ((N.eqb a (chr "0") || N.eqb a (chr " "))
                  && between "1" "9" b) eqn:E3; [|discriminate].
        intros [= <-]. apply andb_true_iff in E3. destruct E3 as [Ea Eb].
        apply orb_true_iff in Ea.
        destruct Ea as [Ea|Ea]; apply N.eqb_eq in Ea; subst a;
          each_char Eb; reflexivity.
Qed.

Lemma int_month_text (mt : str) (m : Z) :
  month_text mt = Some m -> int mt = Ok m.
Proof.
  destruct mt as [|a [|b [|c mt]]]; try discriminate; unfold month_text.
  - destruct (between "1" "9" a) eqn:Ha; [|discriminate]. intros [= <-].
    each_char Ha; reflexivity.
  - destruct (N.eqb a (chr "1") && between "0" "2" b) eqn:E1.
    + intros [= <-]. apply andb_true_iff in E1. destruct E1 as [Ea Eb].
      apply N.eqb_eq in Ea. subst a. each_char Eb; reflexivity.
    + destruct (N.eqb a (chr "0") && between "1" "9" b) eqn:E2;
        [|discriminate].
      intros [= <-]. apply andb_true_iff in E2. destruct E2 as [Ea Eb].
      apply N.eqb_eq in Ea. subst a. each_char Eb; reflexivity.
Qed.

(** A text of the three fields is read as its three numbers. *)
Lemma strptime_reads (s : str) (d m y : Z) :
  reads s d m y -> strptime s = new y m d.
Proof.
  intros (dt & mt & yt & -> & Hd & Hm & Hy).
  unfold strptime, format_regex.
  change (py ".") with [chr "."].
  change (dt ++ [chr "."] ++ mt ++ [chr "."] ++ yt)
    with (dt ++ chr "." :: (mt ++ chr "." :: yt)).
  rewrite (rmatch_day_text dt d) by assumption.
  rewrite (rmatch_month_text mt m) by assumption.
  rewrite (rmatch_year_text yt y) by assumption.
  cbn [map is_empty negb lookup group_eqb].
  rewrite (int_year_text _ _ Hy), (int_month_text _ _ Hm),
    (int_day_text _ _ Hd).
  reflexivity.
Qed.

(** What [rmatch] returns splits the input. *)
Lemma rmatch_splits (r : re) :
  forall s caps text rest,
    In (caps, text, rest) (rmatch r s) -> s = text ++ rest.
Proof.
  assert (Hone : forall p s caps text rest,
             In (caps, text, rest) (one_char p s) -> s = text ++ rest).
  { intros p [|c s] caps text rest; cbn [one_char]; [intros []|].
    destruct (p c); [|intros []]. intros [[= <- <- <-]|[]]. reflexivity. }
  induction r as [c|lo hi| |r1 IH1 r2 IH2|r1 IH1 r2 IH2|g r1 IH1];
    intros s caps text rest; cbn [rmatch]; try apply Hone.
  - rewrite in_flat_map. intros ([[caps1 text1] rest1] & H1 & H2).
    rewrite in_map_iff in H2.
    destruct H2 as ([[caps2 text2] rest2] & [= <- <- <-] & H2).
    rewrite (IH1 _ _ _ _ H1), (IH2 _ _ _ _ H2), app_assoc. reflexivity.
  - rewrite in_app_iff. intros [H|H]; [eapply IH1 | eapply IH2]; eassumption.
  - rewrite in_map_iff.
    intros ([[caps1 text1] rest1] & [= <- <- <-] & H1).
    eapply IH1; eassumption.
Qed.

Lemma in_one_char (p : N -> bool) (s : str) (caps : list (group * str))
  (text rest : str) :
  In (caps, text, rest) (one_char p s) ->
  exists c, p c = true /\ text = [c].
Proof.
  destruct s as [|c s]; cbn [one_char]; [intros []|].
  destruct (p c) eqn:E; [|intros []]. intros [[= <- <- <-]|[]]. eauto.
Qed.

Lemma in_rmatch_Cat (r1 r2 : re) (s : str) (caps : list (group * str))
  (text rest : str) :
  In (caps, text, rest) (rmatch (Cat r1 r2) s) ->
  exists caps1 text1 rest1 caps2 text2,
    In (caps1, text1, rest1) (rmatch r1 s)
    /\ In (caps2, text2, rest) (rmatch r2 rest1)
    /\ text = text1 ++ text2.
Proof.
  cbn [rmatch]. rewrite in_flat_map. intros ([[caps1 text1] rest1] & H1 & H2).
  rewrite in_map_iff in H2.
  destruct H2 as ([[caps2 text2] rest2] & [= <- <- <-] & H2).
  exists caps1, text1, rest1, caps2, text2. auto.
Qed.

Lemma in_rmatch_Alt (r1 r2 : re) (s : str) (f : found) :
  In f (rmatch (Alt r1 r2) s) -> In f (rmatch r1 s) \/ In f (rmatch r2 s).
Proof. cbn [rmatch]. apply in_app_or. Qed.

Lemma in_rmatch_Grp (g : group) (r : re) (s : str)
  (caps : list (group * str)) (text rest : str) :
  In (caps, text, rest) (rmatch (Grp g r) s) ->
  exists caps1, In (caps1, text, rest) (rmatch r s).
Proof.
  cbn [rmatch]. rewrite in_map_iff.
  intros ([[caps1 text1] rest1] & [= <- <- <-] & H1). eauto.
Qed.

(** Takes a match of a pattern of characters apart, down to the tests the
    characters passed. *)
Ltac match_apart :=
  repeat match goal with
         | H : In _ (rmatch (Alt _ _) _) |- _ =>
             apply in_rmatch_Alt in H; destruct H as [H|H]
         | H : In _ (rmatch (Cat _ _) _) |- _ =>
             apply in_rmatch_Cat in H;
             destruct H as (? & ? & ? & ? & ? & ? & H & ->)
         | H : In _ (rmatch (Chr _) _) |- _ =>
             apply in_one_char in H; destruct H as (? & H & ->);
             apply N.eqb_eq in H; subst
         | H : In _ (rmatch (Rng (chr ?lo) (chr ?hi)) _) |- _ =>
             apply in_one_char in H; destruct H as (? & H & ->);
             cbv beta in H;
             match type of H with
             | ((_ <=? ?c)%N && _ = true) =>
                 change (between lo hi c = true) in H
             end
         | H : In _ (rmatch Dec _) |- _ =>
             apply in_one_char in H; destruct H as (? & H & ->)
         end.

Lemma in_rmatch_re_d (s : str) (caps : list (group * str)) (text rest : str) :
  In (caps, text, rest) (rmatch re_d s) -> exists d, day_text text = Some d.
Proof.
  unfold re_d. intros H. match_apart; cbn [app].
  - match goal with H : between _ _ _ = true |- _ => each_char H end;
      vm_compute; eauto.
  - match goal with H : Unicode.isdecimal _ = true |- _ =>
      apply isdecimal_value in H; destruct H as [v Hv] end.
    match goal with H : between _ _ _ = true |- _ => each_char H end;
      unfold day_text, between; known_tests; cbn [andb]; rewrite Hv; eauto.
  - match goal with H : between _ _ _ = true |- _ => each_char H end;
      vm_compute; eauto.
  - match goal with H : between _ _ _ = true |- _ => each_char H end;
      vm_compute; eauto.
  - match goal with H : between _ _ _ = true |- _ => each_char H end;
      vm_compute; eauto.
Qed.

Lemma in_rmatch_re_m (s : str) (caps : list (group * str)) (text rest : str) :
  In (caps, text, rest) (rmatch re_m s) -> exists m, month_text text = Some m.
Proof.
  unfold re_m. intros H. match_apart; cbn [app];
    match goal with H : between _ _ _ = true |- _ => each_char H end;
    vm_compute; eauto.
Qed.

Lemma in_rmatch_re_Y (s : str) (caps : list (group * str)) (text rest : str) :
  In (caps, text, rest) (rmatch re_Y s) -> exists y, year_text text = Some y.
Proof.
  unfold re_Y. intros H. match_apart; cbn [app].
  repeat match goal with H : Unicode.isdecimal _ = true |- _ =>
           apply isdecimal_value in H; destruct H as [? H] end.
  unfold year_text.
  repeat match goal with H : Unicode.decimal_value _ = Some _ |- _ =>
           rewrite H; clear H end.
  eauto.
Qed.

Lemma in_rmatch_format (s : str) (caps : list (group * str))
  (text rest : str) :
  In (caps, text, rest) (rmatch format_regex s) ->
  exists d m y, reads text d m y.
Proof.
  unfold format_regex. intros H.
  apply in_rmatch_Cat in H.
  destruct H as (c1 & dt & r1 & c2 & t2 & Hd & H & ->).
  apply in_rmatch_Cat in H.
  destruct H as (c3 & dot1 & r3 & c4 & t4 & Hdot1 & H & ->).
  apply in_rmatch_Cat in H.
  destruct H as (c5 & mt & r5 & c6 & t6 & Hm & H & ->).
  apply in_rmatch_Cat in H.
  destruct H as (c7 & dot2 & r7 & c8 & yt & Hdot2 & Hy & ->).
  apply in_one_char in Hdot1. destruct Hdot1 as (x1 & E1 & ->).
  apply in_one_char in Hdot2. destruct Hdot2 as (x2 & E2 & ->).
  apply N.eqb_eq in E1, E2. subst x1 x2.
  apply in_rmatch_Grp in Hd, Hm, Hy.
  destruct Hd as [cd Hd]. destruct Hm as [cm Hm]. destruct Hy as [cy Hy].
  destruct (in_rmatch_re_d _ _ _ _ Hd) as [d Ed].
  destruct (in_rmatch_re_m _ _ _ _ Hm) as [m Em].
  destruct (in_rmatch_re_Y _ _ _ _ Hy) as [y Ey].
  exists d, m, y, dt, mt, yt. auto.
Qed.

(** Only the texts of the three fields are read. *)
Lemma strptime_Ok_reads (s : str) (date_ : date) :
  strptime s = Ok date_ ->
  exists d m y, reads s d m y /\ new y m d = Ok date_.
Proof.
  intros H. pose proof H as H0. unfold strptime in H.
  destruct (rmatch format_regex s) as [|[[caps text] rest] l] eqn:E;
    [discriminate|].
  destruct rest as [|c rest]; [|discriminate]. clear H.
  assert (Hin : In (caps, text, []) (rmatch format_regex s))
    by (rewrite E; left; reflexivity).
  pose proof (rmatch_splits _ _ _ _ _ Hin) as Hs. rewrite app_nil_r in Hs.
  destruct (in_rmatch_format _ _ _ _ Hin) as (d & m & y & Hr).
  rewrite <- Hs in Hr. exists d, m, y. split; [assumption|].
  rewrite <- (strptime_reads _ _ _ _ Hr). assumption.
Qed.

Lemma day_text_bounds (dt : str) (d : Z) :
  day_text dt = Some d -> 1 <= d <= 31.
Proof.
  destruct dt as [|a [|b [|c dt]]]; try discriminate; unfold day_text.
  - destruct (between "1" "9" a) eqn:Ha; [|discriminate]. intros [= <-].
    each_char Ha; vm_compute; intuition discriminate.
  - destruct (N.eqb a (chr "3") && between "0" "1" b) eqn:E1.
    + intros [= <-]. apply andb_true_iff in E1. destruct E1 as [Ea Eb].
      each_char Eb; vm_compute; intuition discriminate.
    + destruct (between "1" "2" a) eqn:Ha.
      * destruct (Unicode.decimal_value b) as [v|] eqn:Db; [|discriminate].
        intros [= <-]. apply decimal_value_bounds in Db.
        each_char Ha;
          [change (1 <= 10 + v <= 31) | change (1 <= 20 + v <= 31)]; lia.
      * destruct ((N.eqb a (chr "0") || N.eqb a (chr " "))
                  && between "1" "9" b) eqn:E3; [|discriminate].
        intros [= <-]. apply andb_true_iff in E3. destruct E3 as [Ea Eb].
        each_char Eb; vm_compute; intuition discriminate.
Qed.

(** C5, as the specification states it, fails in two places. A text that
    is not of the shape DD.MM.YYYY (here a day and a month of one digit) is
    accepted; and for a date before the year 1000 [show_birthday] does not
    give back the text DD.MM.YYYY the birthday was built from: the year is
    printed without its leading zeros. *)
Lemma Birthday_init_accepts_short_fields :
  ~ (forall (today : date) (s : str),
        matches_DD_MM_YYYY s = false ->
        exists msg, Birthday_init today s = Raise (ValueError msg))
  /\ ~ (forall (today d : date) (r : Record_),
           valid d -> gtb d today = false ->
           exists r',
             add_birthday today (dmY (day d) (month d) (year d)) r
             = (Ok tt, r')
             /\ show_birthday r' = dmY (day d) (month d) (year d)).
Proof.
  split.
  - intros H.
    destruct (H d20240610 (py "1.6.1990") eq_refl) as [msg Hmsg].
    vm_compute in Hmsg. discriminate.
  - intros H.
    destruct (H d20240610 (mkdate 999 1 1) (Record_init (py "alice"))
                eq_refl eq_refl) as (r' & Hadd & Hshow).
    vm_compute in Hadd. injection Hadd as <-.
    vm_compute in Hshow. discriminate.
Qed.

Lemma Birthday_eta (b : Birthday) : b = mkBirthday (Birthday_value b).
Proof. destruct b; reflexivity. Qed.

(** C5, amended. For every calendar date [d] not after the current date, a
    Birthday built from [d] written as DD.MM.YYYY holds [d]; [show_birthday]
    then prints what [strftime] prints for [d], which is the same text
    DD.MM.YYYY from the year 1000 on. For every calendar date after the
    current date the construction raises [ValueError]. The construction
    succeeds exactly for the texts made of a day, a dot, a month, a dot and
    a year as [strptime] reads them ([day_text], [month_text], [year_text]:
    more than the shape DD.MM.YYYY, a day and a month may have one digit)
    that make a calendar date not after the current date; for every other
    text it raises [ValueError]. *)
Theorem Birthday_init_round_trip (today : date) :
  (forall d r,
      valid d -> gtb d today = false ->
      Birthday_init today (dmY (day d) (month d) (year d))
      = Ok (mkBirthday d)
      /\ exists r',
           add_birthday today (dmY (day d) (month d) (year d)) r
           = (Ok tt, r')
           /\ birthday r' = Some (mkBirthday d)
           /\ show_birthday r' = strftime d
           /\ (1000 <= year d ->
               show_birthday r' = dmY (day d) (month d) (year d)))
  /\ (forall d,
         valid d -> gtb d today = true ->
         Birthday_init today (dmY (day d) (month d) (year d))
         = Raise (ValueError (py "Birthday cannot be in the future.")))
  /\ (forall s b,
         Birthday_init today s = Ok b
         <-> exists d m y,
               reads s d m y
               /\ new y m d = Ok (Birthday_value b)
               /\ gtb (Birthday_value b) today = false)
  /\ (forall s,
         (forall b, Birthday_init today s <> Ok b) ->
         exists msg, Birthday_init today s = Raise (ValueError msg)).
Proof.
  split; [|split; [|split]].
  - intros d r Hv Hd.
    pose proof (Birthday_init_past today _ d (strptime_dmY_valid d Hv) Hd) as E.
    split; [exact E|].
    exists (set_birthday (mkBirthday d) r).
    rewrite add_birthday_eq, E. repeat split.
    intros Hy. cbn. apply strftime_dmY.
    destruct (valid_fields d Hv) as (Hyear & _). lia.
  - intros d Hv Hd.
    apply (Birthday_init_future today _ d (strptime_dmY_valid d Hv) Hd).
  - intros s b. split.
    + intros H. destruct (Birthday_init_Ok_inv _ _ _ H) as (_ & Hg & Hs).
      destruct (strptime_Ok_reads _ _ Hs) as (d & m & y & Hr & Hnew).
      exists d, m, y. auto.
    + intros (d & m & y & Hr & Hnew & Hg).
      rewrite (Birthday_eta b). apply Birthday_init_past; [|assumption].
      rewrite (strptime_reads _ _ _ _ Hr). assumption.
  - intros s H.
    destruct (Birthday_init today s) as [b|e] eqn:E;
      [exfalso; eapply H; reflexivity|].
    destruct (Birthday_init_raises_ValueError _ _ _ E) as [msg ->]. eauto.
Qed.

Lemma Birthday_init_round_trip_witness :
  Birthday_init d20240610 (dmY 15 6 1990) = Ok (mkBirthday d19900615)
  /\ Birthday_init d19900615 (dmY 10 6 2024)
     = Raise (ValueError (py "Birthday cannot be in the future."))
  /\ Birthday_init d20240610 (py "1.6.1990")
     = Ok (mkBirthday (mkdate 1990 6 1))
  /\ exists msg,
       Birthday_init d20240610 (py "1990-06-15") = Raise (ValueError msg).
Proof.
  destruct (Birthday_init_round_trip d20240610)
    as (Hpast & _ & Hreads & Hbad).
  destruct (Birthday_init_round_trip d19900615) as (_ & Hfuture & _).
  split; [|split; [|split]].
  - exact (proj1 (Hpast d19900615 (Record_init (py "alice"))
                    eq_refl eq_refl)).
  - exact (Hfuture d20240610 eq_refl eq_refl).
  - apply (proj2 (Hreads (py "1.6.1990") (mkBirthday (mkdate 1990 6 1)))).
    exists 1, 6, 1990. split; [|split; reflexivity].
    exists (py "1"), (py "6"), (py "1990"). repeat split.
  - apply Hbad. intros b. vm_compute. discriminate.
Defined.

(** ** Upcoming birthdays *)

Lemma upcoming_loop_raises_ValueError (today : date) (records : list Record_) :
  forall acc e,
    upcoming_loop today records acc = Raise e -> exists msg, e = ValueError msg.
Proof.
  induction records as [|r records IH]; intros acc e; cbn [upcoming_loop];
    [discriminate|].
  destruct (birthday r) as [b|]; [|apply IH].
  destruct (replace_year (Birthday_value b) (year today)) as [d1|e1] eqn:E1;
    [|intros [= <-]; eapply new_raises_ValueError; exact E1].
  destruct (if ltb d1 today then replace_year d1 (year today + 1) else Ok d1)
    as [d2|e2] eqn:E2.
  - destruct ((0 <=? sub_days d2 today) && (sub_days d2 today <=? 7));
      apply IH.
  - intros [= <-]. destruct (ltb d1 today); [|discriminate].
    eapply new_raises_ValueError; exact E2.
Qed.

(** A leap day has no place in a year that is not a leap year. *)
Lemma replace_year_leap_day (b : date) (y : Z) :
  month b = 2 -> day b = 29 -> is_leap y = false ->
  exists msg, replace_year b y = Raise (ValueError msg).
Proof.
  intros Hm Hd Hy. unfold replace_year, new. rewrite Hm, Hd.
  destruct (negb ((MINYEAR <=? y) && (y <=? MAXYEAR))); [eauto|].
  assert (H28 : days_in_month y 2 = 28)
    by (unfold days_in_month; rewrite Hy; reflexivity).
  rewrite H28. cbn. eauto.
Qed.

Lemma upcoming_loop_leap_day (today : date) (records : list Record_)
  (r : Record_) (b : Birthday) :
  In r records -> birthday r = Some b ->
  month (Birthday_value b) = 2 -> day (Birthday_value b) = 29 ->
  is_leap (year today) = false ->
  forall acc, exists msg,
    upcoming_loop today records acc = Raise (ValueError msg).
Proof.
  intros Hin Hb Hm Hd Hy.
  induction records as [|r0 records IH]; [destruct Hin|].
  intros acc.
  destruct (upcoming_loop today (r0 :: records) acc) as [l|e] eqn:E;
    [|destruct (upcoming_loop_raises_ValueError _ _ _ _ E) as [msg ->]; eauto].
  exfalso. cbn [upcoming_loop] in E.
  destruct Hin as [<-|Hin].
  - rewrite Hb in E.
    destruct (replace_year_leap_day _ _ Hm Hd Hy) as [msg Hmsg].
    rewrite Hmsg in E. discriminate.
  - assert (Hrest : forall acc', upcoming_loop today records acc' <> Ok l).
    { intros acc' H'. destruct (IH Hin acc') as [msg Hmsg]. congruence. }
    destruct (birthday r0) as [b0|]; [|eapply Hrest; eassumption].
    destruct (replace_year (Birthday_value b0) (year today)); [|discriminate].
    destruct (if ltb a today then replace_year a (year today + 1) else Ok a);
      [|discriminate].
    destruct ((0 <=? sub_days a0 today) && (sub_days a0 today <=? 7));
      eapply Hrest; eassumption.
Qed.

(** C8, what the code does instead: whenever some contact of the book has
    its birthday on 29 February and the year of the reference date is not a
    leap year, [get_upcoming_birthdays] raises a [ValueError] (from
    [date.replace]) and lists nobody. *)
Theorem get_upcoming_birthdays_leap_day_raises
  (today : date) (book : AddressBook) (key : str) (r : Record_)
  (b : Birthday) :
  In (key, r) book -> birthday r = Some b ->
  month (Birthday_value b) = 2 -> day (Birthday_value b) = 29 ->
  is_leap (year today) = false ->
  exists msg, get_upcoming_birthdays today book = Raise (ValueError msg).
Proof.
  intros Hin Hb Hm Hd Hy. unfold get_upcoming_birthdays.
  apply (upcoming_loop_leap_day today (map snd book) r b); try assumption.
  change r with (snd (key, r)). apply in_map. assumption.
Qed.

Lemma get_upcoming_birthdays_leap_day_raises_witness :
  exists msg,
    get_upcoming_birthdays d20230610 [(py "bob", bob_leap_day)]
    = Raise (ValueError msg).
Proof.
  apply (get_upcoming_birthdays_leap_day_raises d20230610
           [(py "bob", bob_leap_day)] (py "bob") bob_leap_day
           (mkBirthday (mkdate 2000 2 29)));
    [left; reflexivity | reflexivity ..].
Defined.

(** C1 at the input where the code departs from it: on 2023-06-10 the
    birthday of alice (15 June) is five days ahead and she is listed when
    she is alone in the book, but with bob (29 February) in the book the
    call raises and lists nobody. The examples of the claim hold. *)
Theorem get_upcoming_birthdays_stops_at_leap_day :
  get_upcoming_birthdays d20230610 [(py "alice", alice_june_15)]
  = Ok [mkUpcoming (py "alice") (py "15.06.2023")]
  /\ within_a_week d20230610 d19900615 = true
  /\ get_upcoming_birthdays d20230610
       [(py "alice", alice_june_15); (py "bob", bob_leap_day)]
     = Raise (ValueError (py "day is out of range for month"))
  /\ get_upcoming_birthdays d20240610 [(py "alice", alice_june_15)]
     = Ok [mkUpcoming (py "alice") (py "15.06.2024")]
  /\ get_upcoming_birthdays d20240610 [(py "alice", alice_june_20)] = Ok [].
Proof. vm_compute. repeat split. Qed.

Lemma day_fits_every_year (b : date) (y : Z) :
  valid b -> ~ (month b = 2 /\ day b = 29) ->
  1 <= day b <= days_in_month y (month b).
Proof.
  intros Hv Hleap. destruct (valid_fields b Hv) as (_ & Hm & Hd).
  revert Hd. unfold days_in_month.
  destruct (month b =? 2) eqn:E2; cbn [andb].
  - apply Z.eqb_eq in E2. rewrite E2 in *.
    change (nth (Z.to_nat 2) DAYS_IN_MONTH (-1)) with 28.
    destruct (is_leap (year b)), (is_leap y); lia.
  - tauto.
Qed.

Lemma upcoming_loop_expected (today : date) (records : list Record_) :
  valid today -> year today < 9999 ->
  Forall no_leap_day records ->
  forall acc,
    upcoming_loop today records acc
    = Ok (acc ++ expected_upcoming today records).
Proof.
  intros Ht Hy Hall. destruct (valid_fields today Ht) as (Hty & _).
  induction Hall as [|r records Hr Hall IH]; intros acc.
  - cbn. rewrite app_nil_r. reflexivity.
  - cbn [upcoming_loop expected_upcoming flat_map].
    fold (expected_upcoming today records).
    unfold no_leap_day in Hr.
    destruct (birthday r) as [b|]; [|apply IH].
    destruct Hr as [Hv Hleap]. destruct (valid_fields _ Hv) as (_ & Hm & _).
    unfold replace_year at 1.
    rewrite new_valid
      by (try apply day_fits_every_year; try assumption; lia).
    unfold within_a_week, occurrence. cbn [month day].
    set (this_year := mkdate (year today) (month (Birthday_value b))
                        (day (Birthday_value b))).
    destruct (ltb this_year today).
    + unfold replace_year. cbn [month day this_year].
      rewrite new_valid
        by (try apply day_fits_every_year; try assumption; lia).
      match goal with
      | |- context [if ?c then _ else _] => destruct c
      end; rewrite IH; [rewrite <- app_assoc|]; reflexivity.
    + match goal with
      | |- context [if ?c then _ else _] => destruct c
      end; rewrite IH; [rewrite <- app_assoc|]; reflexivity.
Qed.

(** X27: where no birthday of the book is a leap day (and the reference
    date is before the last year of the calendar), [get_upcoming_birthdays] returns,
    and what it returns is the list of the specification: the contacts
    whose occurrence is 0 to 7 days ahead, in the order of the book. *)
Lemma get_upcoming_birthdays_expected (today : date) (book : AddressBook) :
  valid today -> year today < 9999 ->
  Forall no_leap_day (map snd book) ->
  get_upcoming_birthdays today book
  = Ok (expected_upcoming today (map snd book)).
Proof.
  intros Ht Hy Hall. unfold get_upcoming_birthdays.
  rewrite upcoming_loop_expected by assumption. reflexivity.
Qed.

(** A contact is in that list exactly when it has a birthday whose
    occurrence is within the week. *)
Lemma expected_upcoming_In (today : date) (records : list Record_)
  (u : upcoming) :
  In u (expected_upcoming today records)
  <-> exists r b,
        In r records /\ birthday r = Some b
        /\ within_a_week today (Birthday_value b) = true
        /\ u = mkUpcoming (Name_value (name r))
                 (strftime (occurrence today (Birthday_value b))).
Proof.
  unfold expected_upcoming. rewrite in_flat_map. split.
  - intros (r & Hin & Hu). destruct (birthday r) as [b|] eqn:Hb;
      [|destruct Hu].
    destruct (within_a_week today (Birthday_value b)) eqn:Hw; [|destruct Hu].
    destruct Hu as [<-|[]]. exists r, b. auto.
  - intros (r & b & Hin & Hb & Hw & ->). exists r. split; [assumption|].
    rewrite Hb, Hw. left. reflexivity.
Qed.

(** ** The dictionary *)

Lemma dict_set_absent (key : str) (v : Record_) (data : AddressBook) :
  dict_get key data = None -> dict_set key v data = data ++ [(key, v)].
Proof.
  induction data as [|[k v0] data IH]; cbn; [reflexivity|].
  destruct (str_eqb k key); [discriminate|].
  intros H. rewrite IH by assumption. reflexivity.
Qed.

Lemma dict_set_last (key : str) (v v' : Record_) (data : AddressBook) :
  dict_get key data = None ->
  dict_set key v' (data ++ [(key, v)]) = data ++ [(key, v')].
Proof.
  induction data as [|[k v0] data IH]; cbn.
  - rewrite str_eqb_refl. reflexivity.
  - destruct (str_eqb k key); [discriminate|].
    intros H. rewrite IH by assumption. reflexivity.
Qed.

(** Storing under a key the record already there changes nothing. *)
Lemma dict_set_same (key : str) (v : Record_) (data : AddressBook) :
  dict_get key data = Some v -> dict_set key v data = data.
Proof.
  induction data as [|[k v0] data IH]; cbn; [discriminate|].
  destruct (str_eqb k key) eqn:E.
  - intros [= ->]. reflexivity.
  - intros H. rewrite IH by assumption. reflexivity.
Qed.

Lemma dict_get_In (key : str) (v : Record_) (data : AddressBook) :
  dict_get key data = Some v -> In (key, v) data.
Proof.
  induction data as [|[k v0] data IH]; cbn; [discriminate|].
  destruct (str_eqb k key) eqn:E.
  - intros [= ->]. apply str_eqb_eq in E. subst. left. reflexivity.
  - intros H. right. apply IH. assumption.
Qed.

Lemma dict_get_set_same (key : str) (v : Record_) (data : AddressBook) :
  dict_get key (dict_set key v data) = Some v.
Proof.
  induction data as [|[k v0] data IH]; cbn [dict_set dict_get].
  - rewrite str_eqb_refl. reflexivity.
  - destruct (str_eqb k key) eqn:E; cbn [dict_get]; rewrite E;
      [reflexivity | assumption].
Qed.

(** For a key of the dictionary, the mutation of its object shows as the
    assignment of the new state would. *)
Lemma dict_update_present (key : str) (v v0 : Record_) (data : AddressBook) :
  dict_get key data = Some v0 -> dict_update key v data = dict_set key v data.
Proof.
  induction data as [|[k v1] data IH]; cbn [dict_get dict_update dict_set];
    [discriminate|].
  destruct (str_eqb k key); [reflexivity|].
  intros H. rewrite IH by assumption. reflexivity.
Qed.

Lemma dict_set_Forall (P : str * Record_ -> Prop) (key : str) (v : Record_)
  (data : AddressBook) :
  (forall k, P (k, v)) -> Forall P data -> Forall P (dict_set key v data).
Proof.
  intros Hv Hall. induction Hall as [|[k v0] data H0 Hall IH]; cbn.
  - constructor; [apply Hv | constructor].
  - destruct (str_eqb k key); constructor; auto.
Qed.

Lemma dict_del_Forall (P : str * Record_ -> Prop) (key : str)
  (data : AddressBook) :
  Forall P data -> Forall P (dict_del key data).
Proof.
  intros Hall. induction Hall as [|[k v0] data H0 Hall IH]; cbn.
  - constructor.
  - destruct (str_eqb k key); [assumption | constructor; auto].
Qed.

(** ** The handlers, one equation each *)

Lemma len_lt_false {A : Type} (l : list A) (k : Z) :
  k <= Z.of_nat (List.length l) -> (len l <? k) = false.
Proof. intros H. unfold len. apply Z.ltb_ge. lia. Qed.

Lemma add_contact_body_eq (n phone : str) (rest : list str)
  (book : AddressBook) :
  add_contact_body (n :: phone :: rest) book =
  match find n book with
  | None =>
      if is_empty phone then
        (Ok (py "Contact added."), dict_set n (Record_init n) book)
      else
        match Phone_init phone with
        | Ok p =>
            (Ok (py "Contact added."),
             dict_set n (set_phones [p] (Record_init n))
               (dict_set n (Record_init n) book))
        | Raise e =>
            (Raise e,
             dict_set n (Record_init n) (dict_set n (Record_init n) book))
        end
  | Some record =>
      if is_empty phone then (Ok (py "Contact updated."), book)
      else
        match Phone_init phone with
        | Ok p =>
            (Ok (py "Contact updated."),
             dict_set n (set_phones (phones record ++ [p]) record) book)
        | Raise e => (Raise e, dict_set n record book)
        end
  end.
Proof.
  unfold add_contact_body.
  rewrite (len_lt_false (n :: phone :: rest) 2) by (cbn [List.length]; lia).
  unfold bind, lift, get, getitem, ret, add_record, put, call_on, add_phone.
  cbn [nth_error].
  destruct (find n book) as [record|] eqn:F; destruct (is_empty phone);
    try reflexivity; cbn -[py]; unfold bind, lift, get, put;
    destruct (Phone_init phone); cbn -[py];
    erewrite dict_update_present
      by (first [exact F | apply dict_get_set_same]);
    reflexivity.
Qed.

Lemma add_contact_body_short (args : list str) (book : AddressBook) :
  (List.length args < 2)%nat ->
  add_contact_body args book
  = (Ok (py "Error: Please provide name and phone."), book).
Proof.
  intros H. unfold add_contact_body.
  replace (len args <? 2) with true
    by (symmetry; apply Z.ltb_lt; unfold len; lia).
  reflexivity.
Qed.

Lemma change_contact_body_eq (args : list str) (book : AddressBook) :
  change_contact_body args book =
  match args with
  | [n; old_phone; new_phone] =>
      match find n book with
      | Some record =>
          match edit_phone_loop old_phone new_phone [] (phones record) with
          | Ok ps =>
              (Ok (py "Phone number updated."),
               dict_set n (set_phones ps record) book)
          | Raise e => (Raise e, dict_set n record book)
          end
      | None => (Ok (py "Contact not found."), book)
      end
  | _ :: _ :: _ :: _ :: _ =>
      (Raise (ValueError (py "too many values to unpack (expected 3)")), book)
  | _ =>
      (Ok (py "Error: Please provide name, old phone and new phone."), book)
  end.
Proof.
  unfold change_contact_body.
  destruct args as [|a [|b [|c [|d rest]]]]; try reflexivity.
  - rewrite (len_lt_false [a; b; c] 3) by (cbn [List.length]; lia).
    unfold bind, lift, unpack3, get, call_on, ret.
    destruct (find a book) as [record|] eqn:F; [|reflexivity].
    rewrite edit_phone_eq.
    destruct (edit_phone_loop b c [] (phones record)); cbn -[py];
      rewrite (dict_update_present _ _ _ _ F); reflexivity.
  - rewrite (len_lt_false (a :: b :: c :: d :: rest) 3) by (cbn [List.length]; lia).
    unfold bind, lift, unpack3.
    replace (3 <? len (a :: b :: c :: d :: rest)) with true
      by (symmetry; apply Z.ltb_lt; unfold len; cbn [List.length]; lia).
    reflexivity.
Qed.

Lemma add_birthday_body_eq (today : date) (n birthday_ : str)
  (rest : list str) (book : AddressBook) :
  add_birthday_body today (n :: birthday_ :: rest) book =
  match find n book with
  | Some record =>
      match Birthday_init today birthday_ with
      | Ok b =>
          (Ok (py "Birthday added for " ++ n ++ py "."),
           dict_set n (set_birthday b record) book)
      | Raise e => (Raise e, dict_set n record book)
      end
  | None => (Ok (py "Contact not found."), book)
  end.
Proof.
  unfold add_birthday_body.
  rewrite (len_lt_false (n :: birthday_ :: rest) 2) by (cbn [List.length]; lia).
  unfold bind, lift, get, getitem, ret, call_on. cbn [nth_error].
  destruct (find n book) as [record|] eqn:F; [|reflexivity].
  rewrite add_birthday_eq.
  destruct (Birthday_init today birthday_); cbn -[py];
    rewrite (dict_update_present _ _ _ _ F); reflexivity.
Qed.

Lemma add_birthday_body_short (today : date) (args : list str)
  (book : AddressBook) :
  (List.length args < 2)%nat ->
  add_birthday_body today args book
  = (Ok (py "Error: Please provide name and birthday."), book).
Proof.
  intros H. unfold add_birthday_body.
  replace (len args <? 2) with true
    by (symmetry; apply Z.ltb_lt; unfold len; lia).
  reflexivity.
Qed.

(** ** The queries *)

Lemma show_phone_body_book (args : list str) (book : AddressBook) :
  exists message, show_phone_body args book = (Ok message, book).
Proof.
  unfold show_phone_body. destruct args as [|n rest]; [eexists; reflexivity|].
  rewrite (len_lt_false (n :: rest) 1) by (cbn [List.length]; lia).
  unfold bind, lift, get, getitem, ret. cbn [nth_error].
  destruct (find n book) as [record|]; [|eauto].
  destruct (is_empty _); eauto.
Qed.

Lemma show_birthday_body_book (args : list str) (book : AddressBook) :
  exists message, show_birthday_body args book = (Ok message, book).
Proof.
  unfold show_birthday_body. destruct args as [|n rest]; [eexists; reflexivity|].
  rewrite (len_lt_false (n :: rest) 1) by (cbn [List.length]; lia).
  unfold bind, lift, get, getitem, ret. cbn [nth_error].
  destruct (find n book) as [record|]; eauto.
Qed.

Lemma show_all_body_book (book : AddressBook) :
  exists message, show_all_body book = (Ok message, book).
Proof.
  unfold show_all_body, bind, get, ret. destruct (is_empty book); eauto.
Qed.

Lemma birthdays_body_book (today : date) (args : list str)
  (book : AddressBook) :
  (exists message, birthdays_body today args book = (Ok message, book))
  \/ (exists msg,
         birthdays_body today args book = (Raise (ValueError msg), book)).
Proof.
  unfold birthdays_body, bind, get, lift, ret.
  destruct (get_upcoming_birthdays today book) as [l|e] eqn:E.
  - left. destruct (is_empty l); eauto.
  - right. destruct (upcoming_loop_raises_ValueError _ _ _ _ E) as [msg ->].
    eauto.
Qed.

Lemma input_error_snd (func : M AddressBook str) (book : AddressBook) :
  snd (input_error func book) = snd (func book).
Proof.
  unfold input_error. destruct (func book) as [[message|[]] book'];
    reflexivity.
Qed.

(** C10: the handlers of [phone], [show-birthday], [birthdays] and [all]
    leave the book, and so every record in it, as it was, whatever the
    arguments and whether they answer or report an error. *)
Theorem queries_leave_book (today : date) (args : list str)
  (book : AddressBook) :
  snd (show_phone args book) = book
  /\ snd (show_birthday_cmd args book) = book
  /\ snd (birthdays today args book) = book
  /\ snd (show_all book) = book.
Proof.
  unfold show_phone, show_birthday_cmd, birthdays, show_all.
  rewrite !input_error_snd. repeat split.
  - destruct (show_phone_body_book args book) as [m ->]. reflexivity.
  - destruct (show_birthday_body_book args book) as [m ->]. reflexivity.
  - destruct (birthdays_body_book today args book) as [[m ->]|[m ->]];
      reflexivity.
  - destruct (show_all_body_book book) as [m ->]. reflexivity.
Qed.

(** ** Errors *)

Lemma edit_phone_loop_raises_ValueError (old_phone new_phone : str)
  (rest : list Phone) :
  forall seen e,
    edit_phone_loop old_phone new_phone seen rest = Raise e ->
    exists msg, e = ValueError msg.
Proof.
  induction rest as [|p rest IH]; intros seen e; cbn [edit_phone_loop].
  - intros [= <-]; eauto.
  - destruct (str_eqb (Phone_value p) old_phone); [|apply IH].
    rewrite Phone_init_eq.
    destruct ((len new_phone =? 10) && forallb Unicode.isdigit new_phone);
      [discriminate | intros [= <-]; eauto].
Qed.

Lemma Phone_init_raises (s : str) (e : exn) :
  Phone_init s = Raise e -> e = ValueError (py "Phone must be 10 digits.").
Proof.
  rewrite Phone_init_eq.
  destruct ((len s =? 10) && forallb Unicode.isdigit s);
    [discriminate | intros [= <-]; reflexivity].
Qed.

(** What a handler can raise, and the book it leaves behind: every
    exception is a [ValueError]; the book is as before, except when [add]
    has just created the record of a new contact. *)
Lemma body_raises (c : command) (today : date) (args : list str)
  (book book' : AddressBook) (e : exn) :
  body c today args book = (Raise e, book') ->
  (exists msg, e = ValueError msg)
  /\ (book' = book
      \/ (c = cmd_add
          /\ exists n phone rest,
               args = n :: phone :: rest /\ find n book = None
               /\ book' = book ++ [(n, Record_init n)])).
Proof.
  destruct c; cbn [body].
  - destruct args as [|n [|phone rest]];
      try (rewrite add_contact_body_short by (cbn; lia); discriminate).
    rewrite add_contact_body_eq.
    destruct (find n book) as [record|] eqn:F; destruct (is_empty phone);
      try discriminate;
      (destruct (Phone_init phone) as [p|e0] eqn:P; [discriminate|]);
      intros [= <- <-]; rewrite (Phone_init_raises _ _ P);
      (split; [eauto|]).
    + left. apply dict_set_same. assumption.
    + right. split; [reflexivity|]. exists n, phone, rest.
      repeat split; try assumption.
      rewrite (dict_set_absent n _ book F). apply dict_set_last. assumption.
  - rewrite change_contact_body_eq.
    destruct args as [|a [|b [|c [|d rest]]]]; try discriminate.
    + destruct (find a book) as [record|] eqn:F; [|discriminate].
      destruct (edit_phone_loop b c [] (phones record)) as [ps|e0] eqn:L;
        [discriminate|].
      intros [= <- <-]. split.
      * eapply edit_phone_loop_raises_ValueError; eassumption.
      * left. apply dict_set_same. assumption.
    + intros [= <- <-]. split; [eauto | left; reflexivity].
  - destruct (show_phone_body_book args book) as [m ->]. discriminate.
  - destruct (show_all_body_book book) as [m ->]. discriminate.
  - destruct args as [|n [|birthday_ rest]];
      try (rewrite add_birthday_body_short by (cbn; lia); discriminate).
    rewrite add_birthday_body_eq.
    destruct (find n book) as [record|] eqn:F; [|discriminate].
    destruct (Birthday_init today birthday_) as [b|e0] eqn:B; [discriminate|].
    intros [= <- <-]. split.
    + eapply Birthday_init_raises_ValueError; eassumption.
    + left. apply dict_set_same. assumption.
  - destruct (show_birthday_body_book args book) as [m ->]. discriminate.
  - destruct (birthdays_body_book today args book) as [[m ->]|[m ->]];
      [discriminate|].
    intros [= <- <-]. split; [eauto | left; reflexivity].
Qed.

Lemma handler_eq (c : command) (today : date) (args : list str)
  (book : AddressBook) :
  handler c today args book =
  match body c today args book with
  | (Ok message, book') => (message, book')
  | (Raise e, book') => (error_line e, book')
  end.
Proof.
  unfold handler, input_error.
  destruct (body c today args book) as [[message|[]] book']; reflexivity.
Qed.

(** C2 at the input where the code departs from it: [add] with an unknown
    name and a phone that fails validation reports the error, and the book
    has gained an empty record for the name. *)
Theorem add_contact_error_keeps_new_record (n phone : str)
  (rest : list str) (book : AddressBook) :
  find n book = None ->
  phone <> [] ->
  (forall p, Phone_init phone <> Ok p) ->
  add_contact (n :: phone :: rest) book
  = (py "Error: Phone must be 10 digits.", book ++ [(n, Record_init n)]).
Proof.
  intros F Hne Hbad. unfold add_contact, input_error.
  rewrite add_contact_body_eq, F.
  destruct phone as [|c phone]; [congruence|]. cbn [is_empty].
  destruct (Phone_init (c :: phone)) as [p|e] eqn:P;
    [exfalso; eapply Hbad; reflexivity|].
  rewrite (Phone_init_raises _ _ P).
  rewrite (dict_set_absent n _ book F), dict_set_last by assumption.
  reflexivity.
Qed.

Lemma add_contact_error_keeps_new_record_witness :
  add_contact [py "bob"; py "123"] []
  = (py "Error: Phone must be 10 digits.",
     [(py "bob", Record_init (py "bob"))]).
Proof.
  apply (add_contact_error_keeps_new_record (py "bob") (py "123") [] []).
  - reflexivity.
  - discriminate.
  - intros p. vm_compute. discriminate.
Defined.

(** Every other failure a handler reports leaves the book as it was. *)
Lemma handler_error_leaves_book (c : command) (today : date)
  (args : list str) (book book' : AddressBook) (e : exn) :
  body c today args book = (Raise e, book') ->
  (c = cmd_add -> forall n, nth_error args 0 = Some n -> find n book <> None) ->
  handler c today args book = (error_line e, book).
Proof.
  intros Hb Hadd. rewrite handler_eq, Hb.
  destruct (body_raises _ _ _ _ _ _ Hb) as [_ [->|(-> & n & ph & rest & -> & F & _)]];
    [reflexivity|].
  exfalso. apply (Hadd eq_refl n eq_refl). assumption.
Qed.

(** The end-to-end example of the specification: an invalid calendar date
    is reported and the birthday stored before stays. *)
Lemma add_birthday_invalid_date_keeps_birthday :
  add_birthday_cmd d20240610 [py "alice"; py "31.02.2024"]
    [(py "alice", alice_june_15)]
  = (py "Error: day is out of range for month",
     [(py "alice", alice_june_15)]).
Proof. reflexivity. Qed.

(** C6: with a phone of ten digits, [add] answers "Contact added." exactly
    when the book had no record under the name, and then the book has one
    more record, the last, with that name and that one phone; otherwise it
    answers "Contact updated." and the record of the name, in its place,
    has the phone appended to the ones it had. *)
Theorem add_contact_added_or_updated (n phone : str) (rest : list str)
  (book : AddressBook) :
  ten_ascii_digits phone = true ->
  match find n book with
  | None =>
      add_contact (n :: phone :: rest) book
      = (py "Contact added.",
         book ++ [(n, mkRecord (mkName n) [mkPhone phone] None)])
  | Some record =>
      add_contact (n :: phone :: rest) book
      = (py "Contact updated.",
         dict_set n
           (mkRecord (name record) (phones record ++ [mkPhone phone])
                     (birthday record))
           book)
  end
  /\ (fst (add_contact (n :: phone :: rest) book) = py "Contact added."
      <-> find n book = None).
Proof.
  intros Hp.
  pose proof (Phone_init_ascii phone Hp) as Hok.
  assert (Hne : is_empty phone = false).
  { destruct phone; [discriminate Hp | reflexivity]. }
  unfold add_contact, input_error. rewrite add_contact_body_eq, Hne, Hok.
  destruct (find n book) as [record|] eqn:F.
  - split; [reflexivity|]. cbn [fst]. split; [|discriminate].
    intros H. vm_compute in H. discriminate.
  - rewrite (dict_set_absent n _ book F), dict_set_last by assumption.
    split; [reflexivity|]. cbn [fst]. split; reflexivity.
Qed.

Lemma add_contact_added_or_updated_witness :
  add_contact [py "alice"; py "0123456789"] []
  = (py "Contact added.",
     [(py "alice",
       mkRecord (mkName (py "alice")) [mkPhone (py "0123456789")] None)])
  /\ add_contact [py "alice"; py "9998887776"]
       [(py "alice",
         mkRecord (mkName (py "alice")) [mkPhone (py "0123456789")] None)]
     = (py "Contact updated.",
        [(py "alice",
          mkRecord (mkName (py "alice"))
            [mkPhone (py "0123456789"); mkPhone (py "9998887776")] None)]).
Proof.
  split.
  - exact (proj1 (add_contact_added_or_updated (py "alice") (py "0123456789")
                    [] [] eq_refl)).
  - exact (proj1 (add_contact_added_or_updated (py "alice") (py "9998887776")
                    []
                    [(py "alice",
                      mkRecord (mkName (py "alice"))
                        [mkPhone (py "0123456789")] None)]
                    eq_refl)).
Defined.




(** ** What is stored has passed validation *)

Section Invariant.

Variable done : list (date * operation).

Lemma Record_init_ok (key n : str) : Record_ok done key (Record_init n).
Proof. split; [constructor | discriminate]. Qed.

Lemma set_phones_ok (key : str) (ps : list Phone) (r : Record_) :
  Forall Phone_ok ps -> Record_ok done key r ->
  Record_ok done key (set_phones ps r).
Proof. intros Hps [_ Hb]. split; assumption. Qed.

Lemma set_birthday_ok (key : str) (b : Birthday) (r : Record_) :
  Birthday_ok done key b -> Record_ok done key r ->
  Record_ok done key (set_birthday b r).
Proof.
  intros Hb [Hps _]. split; [assumption|].
  cbn. intros b' [= <-]. assumption.
Qed.

Lemma find_ok (n : str) (book : AddressBook) (r : Record_) :
  AddressBook_ok done book -> find n book = Some r -> Record_ok done n r.
Proof.
  intros Hbook F. apply dict_get_In in F.
  unfold AddressBook_ok in Hbook. rewrite Forall_forall in Hbook.
  apply (Hbook _ F).
Qed.

Lemma dict_set_ok (n : str) (r : Record_) (book : AddressBook) :
  Record_ok done n r -> AddressBook_ok done book ->
  AddressBook_ok done (dict_set n r book).
Proof.
  intros Hr Hbook. unfold AddressBook_ok in *.
  induction Hbook as [|[k v] data H0 Hall IH]; cbn [dict_set].
  - constructor; [exact Hr | constructor].
  - destruct (str_eqb k n) eqn:E.
    + apply str_eqb_eq in E. subst k. constructor; assumption.
    + constructor; assumption.
Qed.

Lemma remove_first_ok (x : str) (ps : list Phone) :
  Forall Phone_ok ps -> Forall Phone_ok (remove_first x ps).
Proof.
  intros H. induction H as [|p ps Hp Hps IH]; cbn; [constructor|].
  destruct (str_eqb (Phone_value p) x); [assumption | constructor; auto].
Qed.

Lemma edit_phone_loop_ok (old_phone new_phone : str) (rest : list Phone) :
  forall seen ps,
    Forall Phone_ok seen -> Forall Phone_ok rest ->
    edit_phone_loop old_phone new_phone seen rest = Ok ps ->
    Forall Phone_ok ps.
Proof.
  induction rest as [|p rest IH]; intros seen ps Hseen Hrest;
    cbn [edit_phone_loop]; [discriminate|].
  inversion Hrest as [|? ? Hp Hrest']; subst.
  destruct (str_eqb (Phone_value p) old_phone).
  - destruct (Phone_init new_phone) as [q|] eqn:Q; [|discriminate].
    intros [= <-]. apply Forall_app. split; [assumption|].
    constructor; [eapply Phone_init_Phone_ok; eassumption | assumption].
  - apply IH; [|assumption].
    apply Forall_app. split; [assumption | constructor; auto].
Qed.

Lemma add_phone_eq (phone_number : str) (r : Record_) :
  add_phone phone_number r =
  match Phone_init phone_number with
  | Ok p => (Ok tt, set_phones (phones r ++ [p]) r)
  | Raise e => (Raise e, r)
  end.
Proof.
  unfold add_phone, bind, lift, get, put.
  destruct (Phone_init phone_number); reflexivity.
Qed.

Lemma Birthday_init_ok (today : date) (o : operation) (key s : str)
  (b : Birthday) :
  In (today, o) done -> adds_birthday o key s ->
  Birthday_init today s = Ok b -> Birthday_ok done key b.
Proof.
  intros Hin Ho H. destruct (Birthday_init_Ok_inv _ _ _ H) as (Hv & Hg & _).
  exists today, o, s. auto.
Qed.

(** The methods keep a record within the rules, also when they raise. *)
Lemma run_method_ok (today : date) (key : str) (m : method) (r : Record_) :
  In (today, op_method key m) done -> Record_ok done key r ->
  Record_ok done key (snd (run_method today m r)).
Proof.
  intros Hin Hr. pose proof Hr as [Hps Hb]. destruct m; cbn [run_method].
  - rewrite add_phone_eq.
    destruct (Phone_init phone_number) as [p|] eqn:P; [|assumption].
    apply set_phones_ok; [|assumption].
    apply Forall_app. split; [assumption|].
    constructor; [eapply Phone_init_Phone_ok; eassumption | constructor].
  - cbn. apply set_phones_ok; [|assumption].
    apply remove_first_ok. assumption.
  - rewrite edit_phone_eq.
    destruct (edit_phone_loop old_phone new_phone [] (phones r)) as [ps|]
      eqn:L; [|assumption].
    apply set_phones_ok; [|assumption].
    eapply edit_phone_loop_ok; [constructor | exact Hps | exact L].
  - rewrite add_birthday_eq.
    destruct (Birthday_init today birthday_date) as [b|] eqn:B; [|assumption].
    apply set_birthday_ok; [|assumption].
    eapply Birthday_init_ok; [exact Hin | right; reflexivity | exact B].
Qed.

Lemma body_ok (c : command) (today : date) (args : list str)
  (book : AddressBook) :
  In (today, op_command c args) done -> AddressBook_ok done book ->
  AddressBook_ok done (snd (body c today args book)).
Proof.
  intros Hin Hbook. destruct c; cbn [body].
  - destruct args as [|n [|phone rest]];
      try (rewrite add_contact_body_short by (cbn; lia); assumption).
    rewrite add_contact_body_eq.
    destruct (find n book) as [record|] eqn:F; destruct (is_empty phone);
      cbn [snd]; try assumption;
      try (apply dict_set_ok; [apply Record_init_ok | assumption]);
      destruct (Phone_init phone) as [p|] eqn:P; cbn [snd].
    + apply dict_set_ok; [|assumption].
      pose proof (find_ok _ _ _ Hbook F) as Hr.
      apply set_phones_ok; [|assumption].
      apply Forall_app. split; [apply Hr|].
      constructor; [eapply Phone_init_Phone_ok; eassumption | constructor].
    + apply dict_set_ok; [eapply find_ok; eassumption | assumption].
    + apply dict_set_ok;
        [|apply dict_set_ok; [apply Record_init_ok | assumption]].
      apply set_phones_ok; [|apply Record_init_ok].
      constructor; [eapply Phone_init_Phone_ok; eassumption | constructor].
    + apply dict_set_ok; [apply Record_init_ok|].
      apply dict_set_ok; [apply Record_init_ok | assumption].
  - rewrite change_contact_body_eq.
    destruct args as [|a [|b [|c [|d rest]]]]; try assumption.
    destruct (find a book) as [record|] eqn:F; [|assumption].
    pose proof (find_ok _ _ _ Hbook F) as Hr.
    destruct (edit_phone_loop b c [] (phones record)) as [ps|] eqn:L;
      cbn [snd]; apply dict_set_ok; try assumption.
    apply set_phones_ok; [|assumption].
    eapply edit_phone_loop_ok; [constructor | apply Hr | exact L].
  - destruct (show_phone_body_book args book) as [m ->]. assumption.
  - destruct (show_all_body_book book) as [m ->]. assumption.
  - destruct args as [|n [|birthday_ rest]];
      try (rewrite add_birthday_body_short by (cbn; lia); assumption).
    rewrite add_birthday_body_eq.
    destruct (find n book) as [record|] eqn:F; [|assumption].
    pose proof (find_ok _ _ _ Hbook F) as Hr.
    destruct (Birthday_init today birthday_) as [b|] eqn:B; cbn [snd];
      apply dict_set_ok; try assumption.
    apply set_birthday_ok; [|assumption].
    eapply Birthday_init_ok; [exact Hin | left; eauto | exact B].
  - destruct (show_birthday_body_book args book) as [m ->]. assumption.
  - destruct (birthdays_body_book today args book) as [[m ->]|[m ->]];
      assumption.
Qed.

Lemma dict_del_ok (n : str) (book : AddressBook) :
  AddressBook_ok done book -> AddressBook_ok done (dict_del n book).
Proof. apply dict_del_Forall. Qed.

Lemma step_ok (today : date) (o : operation) (book : AddressBook) :
  In (today, o) done -> AddressBook_ok done book ->
  AddressBook_ok done (step today o book).
Proof.
  intros Hin Hbook. destruct o; cbn [step].
  - unfold handler. rewrite input_error_snd. apply body_ok; assumption.
  - cbn. apply dict_set_ok; [apply Record_init_ok | assumption].
  - cbn. apply dict_del_ok. assumption.
  - destruct (find n book) as [record|] eqn:F; [|assumption].
    unfold call_on.
    pose proof (run_method_ok today n m record Hin (find_ok _ _ _ Hbook F))
      as H.
    destruct (run_method today m record) as [res record']. cbn [snd] in *.
    rewrite (dict_update_present _ _ _ _ F).
    apply dict_set_ok; assumption.
Qed.

End Invariant.

Lemma AddressBook_ok_later (done more : list (date * operation))
  (book : AddressBook) :
  AddressBook_ok done book -> AddressBook_ok (done ++ more) book.
Proof.
  unfold AddressBook_ok. apply Forall_impl. intros [k r] [Hps Hb].
  split; [assumption|]. intros b Hsome.
  destruct (Hb b Hsome) as (today & o & s & Hin & H).
  exists today, o, s. split; [|assumption].
  apply in_or_app. left. assumption.
Qed.

Lemma run_ok (trace : list (date * operation)) :
  forall done book,
    AddressBook_ok done book ->
    AddressBook_ok (done ++ trace) (run trace book).
Proof.
  induction trace as [|[today o] trace IH]; intros done book Hbook.
  - cbn. rewrite app_nil_r. assumption.
  - cbn [run].
    replace (done ++ (today, o) :: trace)
      with ((done ++ [(today, o)]) ++ trace)
      by (rewrite <- app_assoc; reflexivity).
    apply IH. apply step_ok.
    + apply in_or_app. right. left. reflexivity.
    + apply AddressBook_ok_later. assumption.
Qed.

(** C9, as the specification states it, fails: the rule of the
    specification is ten ASCII digits, and after [add] with ten
    Arabic-Indic digits the book holds a phone that does not obey it. *)
Lemma stored_phone_not_ascii :
  ~ (forall (trace : list (date * operation)) (key : str) (r : Record_)
            (p : Phone),
        In (key, r) (run trace []) -> In p (phones r) ->
        ten_ascii_digits (Phone_value p) = true).
Proof.
  intros H.
  specialize (H arabic_indic_add (py "bob")
                (mkRecord (mkName (py "bob")) [mkPhone arabic_indic_zeros]
                          None)
                (mkPhone arabic_indic_zeros)).
  assert (E : ten_ascii_digits (Phone_value (mkPhone arabic_indic_zeros))
              = true).
  { apply H; left; reflexivity. }
  vm_compute in E. discriminate.
Qed.

(** C9, amended: in the book any sequence of operations leaves, started
    from the empty book, every stored phone is one its constructor accepts
    (ten characters, all of them digits in the sense of [str.isdigit]), and
    every stored birthday was built by an [add-birthday] of the run for
    that contact, from a text validated at the date of that operation: it
    is a date of the calendar and not after that date. *)
Theorem stored_values_passed_validation
  (trace : list (date * operation)) (key : str) (r : Record_) :
  In (key, r) (run trace []) ->
  (forall p,
      In p (phones r) ->
      Phone_init (Phone_value p) = Ok p
      /\ List.length (Phone_value p) = 10%nat
      /\ forallb Unicode.isdigit (Phone_value p) = true)
  /\ (forall b,
         birthday r = Some b ->
         exists today o s,
           In (today, o) trace
           /\ adds_birthday o key s
           /\ Birthday_init today s = Ok b
           /\ valid (Birthday_value b)
           /\ gtb (Birthday_value b) today = false).
Proof.
  intros Hin.
  pose proof (run_ok trace [] [] (Forall_nil _)) as Hok.
  unfold AddressBook_ok in Hok. rewrite Forall_forall in Hok.
  destruct (Hok _ Hin) as [Hps Hb]. cbn [fst snd app] in *. split.
  - intros p Hp. rewrite Forall_forall in Hps. pose proof (Hps p Hp) as H.
    split; [exact H|]. apply (Phone_init_Ok_inv _ _ H).
  - exact Hb.
Qed.

Lemma stored_values_passed_validation_witness :
  (forall p,
      In p (phones alice_after_two_commands) ->
      Phone_init (Phone_value p) = Ok p
      /\ List.length (Phone_value p) = 10%nat
      /\ forallb Unicode.isdigit (Phone_value p) = true)
  /\ (forall b,
         birthday alice_after_two_commands = Some b ->
         exists today o s,
           In (today, o) two_commands
           /\ adds_birthday o (py "alice") s
           /\ Birthday_init today s = Ok b
           /\ valid (Birthday_value b)
           /\ gtb (Birthday_value b) today = false).
Proof.
  apply (stored_values_passed_validation two_commands (py "alice")
           alice_after_two_commands).
  left. reflexivity.
Defined.

(** ** Sample runs *)

Example strptime_samples :
  strptime (py "15.06.1990") = Ok (mkdate 1990 6 15)
  /\ strptime (py "1.6.1990") = Ok (mkdate 1990 6 1)
  /\ strptime (py " 1.6.1990") = Ok (mkdate 1990 6 1)
  /\ strptime (py "31.02.2024")
     = Raise (ValueError (py "day is out of range for month"))
  /\ strptime (py "01.01.0000")
     = Raise (ValueError (py "year 0 is out of range"))
  /\ strptime (py "01.01.20001")
     = Raise (ValueError (py "unconverted data remains: 1"))
  /\ strptime (py "1990-06-15")
     = Raise (ValueError
                (py "time data '1990-06-15' does not match format '%d.%m.%Y'"))
  /\ toordinal (mkdate 2024 6 10) = 739047
  /\ str_of_int 10000 = py "10000" /\ str_of_int 0 = py "0".
Proof. vm_compute. repeat split. Qed.

Example session_sample :
  let b1 := snd (add_contact [py "alice"; py "0123456789"] []) in
  let b2 := snd (add_contact [py "bob"; py "1112223334"] b1) in
  let b3 :=
    snd (add_birthday_cmd d20240610 [py "alice"; py "15.06.1990"] b2) in
  let b4 := snd (add_contact [py "alice"; py "9998887776"] b3) in
  fst (show_all b4)
  = py "All contacts:" ++ nl
    ++ py "1. Contact name: alice, phones: 0123456789; 9998887776, birthday: 15.06.1990"
    ++ nl ++ py "2. Contact name: bob, phones: 1112223334"
  /\ fst (birthdays d20240610 [] b4)
     = py "Upcoming birthdays this week:" ++ nl ++ py "1. alice: 15.06.2024"
  /\ fst (show_phone [py "alice"] b4) = py "alice: 0123456789, 9998887776"
  /\ fst (show_phone [py "carol"] b4) = py "Contact not found."
  /\ fst (change_contact [py "alice"; py "1"; py "2"; py "3"] b4)
     = py "Error: too many values to unpack (expected 3)"
  /\ fst (add_birthday_cmd d20240610 [py "alice"; py "2024-02-01"] b4)
     = py "Error: Invalid date format. Use DD.MM.YYYY".
Proof. vm_compute. repeat split. Qed.

(* ================================================================= *)
(** * Further properties of the code *)

(** ** The book as a dictionary *)

Lemma str_eqb_sym (a b : str) : str_eqb a b = str_eqb b a.
Proof.
  destruct (str_eqb a b) eqn:E.
  - apply str_eqb_eq in E. subst. symmetry. apply str_eqb_refl.
  - apply str_eqb_neq in E. symmetry. apply str_eqb_neq. congruence.
Qed.

Lemma dict_get_set (n key : str) (v : Record_) (data : AddressBook) :
  dict_get n (dict_set key v data)
  = if str_eqb key n then Some v else dict_get n data.
Proof.
  induction data as [|[k v0] data IH]; cbn [dict_set dict_get];
    [reflexivity|].
  destruct (str_eqb k key) eqn:Ek; cbn [dict_get].
  - apply str_eqb_eq in Ek. subst k.
    destruct (str_eqb key n); reflexivity.
  - rewrite IH. destruct (str_eqb k n) eqn:En; [|reflexivity].
    apply str_eqb_eq in En. rewrite <- En, (str_eqb_sym key k), Ek.
    reflexivity.
Qed.

Lemma dict_set_keys (key : str) (v : Record_) (data : AddressBook) :
  map fst (dict_set key v data)
  = if existsb (fun k => str_eqb k key) (map fst data) then map fst data
    else map fst data ++ [key].
Proof.
  induction data as [|[k v0] data IH]; cbn [dict_set map fst existsb app];
    [reflexivity|].
  destruct (str_eqb k key) eqn:Ek; cbn [map fst orb]; [reflexivity|].
  rewrite IH. destruct (existsb _ (map fst data)); reflexivity.
Qed.

Lemma existsb_key_In (key : str) (keys : list str) :
  existsb (fun k => str_eqb k key) keys = true <-> In key keys.
Proof.
  rewrite existsb_exists. split.
  - intros (k & Hin & E). apply str_eqb_eq in E. subst. assumption.
  - intros H. exists key. split; [assumption | apply str_eqb_refl].
Qed.

Lemma dict_get_None_keys (key : str) (data : AddressBook) :
  dict_get key data = None <-> ~ In key (map fst data).
Proof.
  induction data as [|[k v0] data IH]; cbn [dict_get map fst In]; [tauto|].
  destruct (str_eqb k key) eqn:E.
  - apply str_eqb_eq in E. split; [discriminate | tauto].
  - apply str_eqb_neq in E. rewrite IH. tauto.
Qed.

(** X1: after [add_record(record)], [find] returns that record for the
    value of its name, and for every other name what it returned before. *)
Theorem add_record_find (record : Record_) (n : str) (book : AddressBook) :
  find n (snd (add_record record book))
  = if str_eqb (Name_value (name record)) n then Some record
    else find n book.
Proof. apply dict_get_set. Qed.

(** X2: [add_record] on a name already in the book keeps the keys and their
    order, the record taking the place of the old one; on a new name it adds
    the record at the end. *)
Theorem add_record_keys (record : Record_) (book : AddressBook) :
  match find (Name_value (name record)) book with
  | Some _ =>
      map fst (snd (add_record record book)) = map fst book
  | None =>
      snd (add_record record book)
      = book ++ [(Name_value (name record), record)]
  end.
Proof.
  cbn. destruct (find (Name_value (name record)) book) as [r|] eqn:F.
  - rewrite dict_set_keys.
    replace (existsb _ (map fst book)) with true; [reflexivity|].
    symmetry. apply existsb_key_In.
    apply dict_get_In in F. change (Name_value (name record))
      with (fst (Name_value (name record), r)). apply in_map. assumption.
  - apply dict_set_absent. assumption.
Qed.

Lemma dict_get_del_other (n key : str) (data : AddressBook) :
  n <> key -> dict_get n (dict_del key data) = dict_get n data.
Proof.
  intros Hne. induction data as [|[k v0] data IH]; cbn [dict_del dict_get];
    [reflexivity|].
  destruct (str_eqb k key) eqn:Ek; cbn [dict_get].
  - apply str_eqb_eq in Ek. subst k.
    replace (str_eqb key n) with false
      by (symmetry; apply str_eqb_neq; congruence).
    reflexivity.
  - rewrite IH. reflexivity.
Qed.

Lemma dict_del_absent (key : str) (data : AddressBook) :
  dict_get key data = None -> dict_del key data = data.
Proof.
  induction data as [|[k v0] data IH]; cbn [dict_del dict_get];
    [reflexivity|].
  destruct (str_eqb k key); [discriminate|].
  intros H. rewrite IH by assumption. reflexivity.
Qed.

Lemma dict_get_del_same (key : str) (data : AddressBook) :
  NoDup (map fst data) -> dict_get key (dict_del key data) = None.
Proof.
  induction data as [|[k v0] data IH]; cbn [dict_del dict_get map fst];
    [reflexivity|].
  intros Hnd. inversion Hnd as [|? ? Hnotin Hnd']; subst.
  destruct (str_eqb k key) eqn:Ek; cbn [dict_get].
  - apply str_eqb_eq in Ek. subst k. apply dict_get_None_keys. assumption.
  - rewrite Ek. apply IH. assumption.
Qed.

(** X3: in a book whose keys are all different, [delete(n)] makes [find(n)]
    return [None] and changes what [find] returns for no other name; for a
    name that is not in the book it changes nothing and raises nothing. *)
Theorem delete_find (n : str) (book : AddressBook) :
  NoDup (map fst book) ->
  fst (delete n book) = Ok tt
  /\ find n (snd (delete n book)) = None
  /\ (forall n', n' <> n -> find n' (snd (delete n book)) = find n' book)
  /\ (find n book = None -> snd (delete n book) = book).
Proof.
  intros Hnd. cbn. repeat split.
  - apply dict_get_del_same. assumption.
  - intros n' Hne. apply dict_get_del_other. assumption.
  - apply dict_del_absent.
Qed.

Lemma delete_find_witness :
  fst (delete (py "alice")
         [(py "alice", alice_one_phone); (py "bob", bob_no_birthday)])
  = Ok tt
  /\ find (py "alice")
       (snd (delete (py "alice")
               [(py "alice", alice_one_phone); (py "bob", bob_no_birthday)]))
     = None
  /\ (forall n',
         n' <> py "alice" ->
         find n'
           (snd (delete (py "alice")
                   [(py "alice", alice_one_phone);
                    (py "bob", bob_no_birthday)]))
         = find n'
             [(py "alice", alice_one_phone); (py "bob", bob_no_birthday)])
  /\ (find (py "alice")
        [(py "alice", alice_one_phone); (py "bob", bob_no_birthday)] = None ->
      snd (delete (py "alice")
             [(py "alice", alice_one_phone); (py "bob", bob_no_birthday)])
      = [(py "alice", alice_one_phone); (py "bob", bob_no_birthday)]).
Proof.
  apply (delete_find (py "alice")
           [(py "alice", alice_one_phone); (py "bob", bob_no_birthday)]).
  repeat constructor; cbn; intuition discriminate.
Defined.

(** ** Keys and names *)

Lemma dict_set_filed (key : str) (v : Record_) (book : AddressBook) :
  Name_value (name v) = key -> filed book -> filed (dict_set key v book).
Proof.
  intros Hv [Hnd Hall]. split.
  - rewrite dict_set_keys.
    destruct (existsb (fun k => str_eqb k key) (map fst book)) eqn:E;
      [assumption|].
    apply NoDup_app; [assumption | repeat constructor; intros [] |].
    intros a Ha [<-|[]].
    apply existsb_key_In in Ha. congruence.
  - induction Hall as [|[k v0] data H0 Hall IH]; cbn [dict_set].
    + constructor; [exact Hv | constructor].
    + cbn [map fst] in Hnd. apply NoDup_cons_iff in Hnd.
      destruct Hnd as [_ Hnd].
      destruct (str_eqb k key) eqn:Ek.
      * constructor; [|assumption]. apply str_eqb_eq in Ek. cbn. congruence.
      * constructor; [assumption | apply IH; assumption].
Qed.

Lemma dict_del_filed (key : str) (book : AddressBook) :
  filed book -> filed (dict_del key book).
Proof.
  intros [Hnd Hall]. split; [|apply dict_del_Forall; assumption].
  clear Hall. induction book as [|[k v0] data IH]; cbn [dict_del];
    [assumption|].
  cbn [map fst] in Hnd. inversion Hnd as [|? ? Hnotin Hnd']; subst.
  destruct (str_eqb k key); [assumption|].
  cbn [map fst]. constructor; [|apply IH; assumption].
  intros Hin. apply Hnotin.
  clear -Hin. induction data as [|[k1 v1] data IH]; cbn in *; [assumption|].
  destruct (str_eqb k1 key); cbn in *; tauto.
Qed.

Lemma find_filed (n : str) (r : Record_) (book : AddressBook) :
  filed book -> find n book = Some r -> Name_value (name r) = n.
Proof.
  intros [_ Hall] F. apply dict_get_In in F.
  rewrite Forall_forall in Hall. apply (Hall _ F).
Qed.

(** No method changes the name of its record. *)
Lemma run_method_name (today : date) (m : method) (r : Record_) :
  name (snd (run_method today m r)) = name r.
Proof.
  destruct m; cbn [run_method].
  - rewrite add_phone_eq. destruct (Phone_init phone_number); reflexivity.
  - reflexivity.
  - rewrite edit_phone_eq.
    destruct (edit_phone_loop old_phone new_phone [] (phones r)); reflexivity.
  - rewrite add_birthday_eq.
    destruct (Birthday_init today birthday_date); reflexivity.
Qed.

Lemma body_filed (c : command) (today : date) (args : list str)
  (book : AddressBook) :
  filed book -> filed (snd (body c today args book)).
Proof.
  intros Hbook. destruct c; cbn [body].
  - destruct args as [|n [|phone rest]];
      try (rewrite add_contact_body_short by (cbn; lia); assumption).
    rewrite add_contact_body_eq.
    destruct (find n book) as [record|] eqn:F; destruct (is_empty phone);
      cbn [snd]; try assumption;
      try (destruct (Phone_init phone) as [p|]; cbn [snd]);
      repeat (apply dict_set_filed;
              [cbn [name set_phones Record_init Name_value]; try reflexivity|]);
      try assumption; eapply find_filed; eassumption.
  - rewrite change_contact_body_eq.
    destruct args as [|a [|b [|c [|d rest]]]]; try assumption.
    destruct (find a book) as [record|] eqn:F; [|assumption].
    destruct (edit_phone_loop b c [] (phones record)); cbn [snd];
      (apply dict_set_filed; [cbn [name set_phones]|assumption]);
      eapply find_filed; eassumption.
  - destruct (show_phone_body_book args book) as [m ->]. assumption.
  - destruct (show_all_body_book book) as [m ->]. assumption.
  - destruct args as [|n [|birthday_ rest]];
      try (rewrite add_birthday_body_short by (cbn; lia); assumption).
    rewrite add_birthday_body_eq.
    destruct (find n book) as [record|] eqn:F; [|assumption].
    destruct (Birthday_init today birthday_); cbn [snd];
      (apply dict_set_filed; [cbn [name set_birthday]|assumption]);
      eapply find_filed; eassumption.
  - destruct (show_birthday_body_book args book) as [m ->]. assumption.
  - destruct (birthdays_body_book today args book) as [[m ->]|[m ->]];
      assumption.
Qed.

Lemma step_filed (today : date) (o : operation) (book : AddressBook) :
  filed book -> filed (step today o book).
Proof.
  intros Hbook. destruct o; cbn [step].
  - unfold handler. rewrite input_error_snd. apply body_filed. assumption.
  - cbn. apply dict_set_filed; [reflexivity | assumption].
  - cbn. apply dict_del_filed. assumption.
  - destruct (find n book) as [record|] eqn:F; [|assumption].
    unfold call_on.
    pose proof (run_method_name today m record) as Hn.
    destruct (run_method today m record) as [res record']. cbn [snd] in *.
    rewrite (dict_update_present _ _ _ _ F).
    apply dict_set_filed; [|assumption].
    rewrite Hn. eapply find_filed; eassumption.
Qed.

Lemma run_filed (trace : list (date * operation)) :
  forall book, filed book -> filed (run trace book).
Proof.
  induction trace as [|[today o] trace IH]; intros book Hbook;
    [assumption|].
  cbn [run]. apply IH. apply step_filed. assumption.
Qed.

(** X4: whatever commands and method calls are run from the empty book,
    the names under which the book holds its records are all different, and
    each record is held under the value of its own name; no operation
    renames a contact. *)
Theorem keys_are_the_names (trace : list (date * operation)) :
  NoDup (map fst (run trace []))
  /\ (forall key r,
         In (key, r) (run trace []) -> Name_value (name r) = key)
  /\ (forall key r,
         In (key, r) (run trace []) -> find key (run trace []) = Some r).
Proof.
  assert (H : filed (run trace [])).
  { apply run_filed. split; constructor. }
  destruct H as [Hnd Hall]. split; [assumption|]. split.
  - intros key r Hin. rewrite Forall_forall in Hall. apply (Hall _ Hin).
  - intros key r. revert Hnd. generalize (run trace []) as book. clear.
    intros book.
    induction book as [|[k v] l IH]; cbn [map fst In dict_get find];
      [tauto|].
    intros Hnd [Hin|Hin]; inversion Hnd as [|? ? Hnotin Hnd']; subst.
    + injection Hin as -> ->. unfold find. cbn [dict_get].
      rewrite str_eqb_refl. reflexivity.
    + unfold find. cbn [dict_get].
      destruct (str_eqb k key) eqn:E.
      * apply str_eqb_eq in E. subst k. exfalso. apply Hnotin.
        change key with (fst (key, r)). apply in_map. assumption.
      * apply IH; assumption.
Qed.

(** ** The phones of a record *)

Lemma find_app_none_inv {A : Type} (f : A -> bool) (l1 l2 : list A) :
  List.find f (l1 ++ l2) = None ->
  List.find f l1 = None /\ List.find f l2 = None.
Proof.
  induction l1 as [|x l1 IH]; cbn [app List.find]; [auto|].
  destruct (f x); [discriminate | assumption].
Qed.

Lemma find_split (x : str) (ps : list Phone) (p : Phone) :
  List.find (is_phone x) ps = Some p ->
  exists pre post,
    ps = pre ++ p :: post /\ List.find (is_phone x) pre = None
    /\ Phone_value p = x.
Proof.
  induction ps as [|p0 ps IH]; cbn [List.find]; [discriminate|].
  destruct (is_phone x p0) eqn:E.
  - intros [= <-]. exists [], ps. repeat split. apply str_eqb_eq. exact E.
  - intros H. destruct (IH H) as (pre & post & -> & Hpre & Hv).
    exists (p0 :: pre), post. repeat split; try assumption.
    cbn [List.find]. rewrite E. assumption.
Qed.

Lemma remove_first_at (x : str) (pre post : list Phone) (p : Phone) :
  List.find (is_phone x) pre = None -> Phone_value p = x ->
  remove_first x (pre ++ p :: post) = pre ++ post.
Proof.
  intros Hpre Hv. induction pre as [|p0 pre IH]; cbn [app remove_first].
  - rewrite Hv, str_eqb_refl. reflexivity.
  - cbn [List.find] in Hpre. unfold is_phone in Hpre at 1.
    destruct (str_eqb (Phone_value p0) x); [discriminate|].
    rewrite IH by assumption. reflexivity.
Qed.

Lemma remove_first_absent (x : str) (ps : list Phone) :
  List.find (is_phone x) ps = None -> remove_first x ps = ps.
Proof.
  induction ps as [|p0 ps IH]; cbn [List.find remove_first]; [reflexivity|].
  unfold is_phone at 1.
  destruct (str_eqb (Phone_value p0) x); [discriminate|].
  intros H. rewrite IH by assumption. reflexivity.
Qed.

Lemma set_phones_same (r : Record_) : set_phones (phones r) r = r.
Proof. destruct r; reflexivity. Qed.

(** X5: [remove_phone] never raises. It takes out the first phone with the
    given number and leaves the other phones, in their order, the name and
    the birthday; when the number is not stored the record is unchanged. *)
Theorem remove_phone_first (x : str) (r : Record_) :
  match find_phone x r with
  | Some p =>
      exists pre post,
        phones r = pre ++ p :: post
        /\ List.find (is_phone x) pre = None
        /\ remove_phone x r
           = (Ok tt, mkRecord (name r) (pre ++ post) (birthday r))
  | None => remove_phone x r = (Ok tt, r)
  end.
Proof.
  unfold find_phone. fold (is_phone x).
  destruct (List.find (is_phone x) (phones r)) as [p|] eqn:F.
  - destruct (find_split _ _ _ F) as (pre & post & Hps & Hpre & Hv).
    exists pre, post. repeat split; try assumption.
    cbn. unfold set_phones. rewrite Hps, remove_first_at by assumption.
    reflexivity.
  - cbn. rewrite remove_first_absent by assumption.
    rewrite set_phones_same. reflexivity.
Qed.

(** X6: adding a number that was not stored and removing it again gives the
    record back. *)
Theorem add_phone_remove_phone (x : str) (r : Record_) (q : Phone) :
  Phone_init x = Ok q ->
  find_phone x r = None ->
  (add_phone x ;;; remove_phone x) r = (Ok tt, r).
Proof.
  intros Hq Hfind. unfold bind. rewrite add_phone_eq, Hq. cbn.
  destruct (Phone_init_Ok_inv _ _ Hq) as [-> _].
  rewrite (remove_first_at x (phones r) [] (mkPhone x) Hfind eq_refl).
  rewrite app_nil_r. unfold set_phones. cbn. destruct r; reflexivity.
Qed.

Lemma add_phone_remove_phone_witness :
  (add_phone (py "5556667778") ;;; remove_phone (py "5556667778"))
    alice_one_phone
  = (Ok tt, alice_one_phone).
Proof.
  apply (add_phone_remove_phone (py "5556667778") alice_one_phone
           (mkPhone (py "5556667778"))); reflexivity.
Defined.

Lemma edit_phone_loop_at (old_phone new_phone : str) (q p0 : Phone)
  (pre post : list Phone) :
  Phone_init new_phone = Ok q ->
  List.find (is_phone old_phone) pre = None ->
  Phone_value p0 = old_phone ->
  forall seen,
    edit_phone_loop old_phone new_phone seen (pre ++ p0 :: post)
    = Ok (seen ++ pre ++ q :: post).
Proof.
  intros Hq Hpre Hv. induction pre as [|p pre IH]; intros seen;
    cbn [app edit_phone_loop].
  - rewrite Hv, str_eqb_refl, Hq. reflexivity.
  - cbn [List.find] in Hpre. unfold is_phone in Hpre at 1.
    destruct (str_eqb (Phone_value p) old_phone); [discriminate|].
    rewrite IH by assumption. rewrite <- app_assoc. reflexivity.
Qed.

(** X7: editing a number into one that was not stored and editing it back
    gives the record back. *)
Theorem edit_phone_there_and_back (old_phone new_phone : str) (r : Record_)
  (p q : Phone) :
  Phone_init old_phone = Ok p ->
  Phone_init new_phone = Ok q ->
  find_phone old_phone r <> None ->
  find_phone new_phone r = None ->
  (edit_phone old_phone new_phone ;;; edit_phone new_phone old_phone) r
  = (Ok tt, r).
Proof.
  intros Hp Hq Hold Hnew. unfold find_phone in *.
  fold (is_phone old_phone) in Hold. fold (is_phone new_phone) in Hnew.
  destruct (List.find (is_phone old_phone) (phones r)) as [p0|] eqn:F;
    [|congruence].
  destruct (find_split _ _ _ F) as (pre & post & Hps & Hpre & Hv).
  rewrite Hps in Hnew. apply find_app_none_inv in Hnew.
  destruct Hnew as [Hnpre _].
  destruct (Phone_init_Ok_inv _ _ Hp) as [-> _].
  destruct (Phone_init_Ok_inv _ _ Hq) as [-> _].
  assert (Hp0 : p0 = mkPhone old_phone) by (destruct p0; cbn in Hv; congruence).
  unfold bind. rewrite edit_phone_eq, Hps.
  rewrite (edit_phone_loop_at old_phone new_phone _ p0 pre post Hq Hpre Hv).
  rewrite edit_phone_eq. cbn [phones set_phones app].
  rewrite (edit_phone_loop_at new_phone old_phone _ (mkPhone new_phone)
             pre post Hp Hnpre eq_refl).
  cbn [app]. unfold set_phones. cbn [name birthday].
  rewrite <- Hp0, <- Hps. destruct r; reflexivity.
Qed.

Lemma edit_phone_there_and_back_witness :
  (edit_phone (py "0123456789") (py "5556667778") ;;;
   edit_phone (py "5556667778") (py "0123456789")) alice_two_phones
  = (Ok tt, alice_two_phones).
Proof.
  apply (edit_phone_there_and_back (py "0123456789") (py "5556667778")
           alice_two_phones (mkPhone (py "0123456789"))
           (mkPhone (py "5556667778")));
    [reflexivity | reflexivity | discriminate | reflexivity].
Defined.

Lemma edit_phone_loop_invalid (old_phone new_phone : str) (e : exn)
  (rest : list Phone) (p0 : Phone) :
  Phone_init new_phone = Raise e ->
  List.find (is_phone old_phone) rest = Some p0 ->
  forall seen, edit_phone_loop old_phone new_phone seen rest = Raise e.
Proof.
  intros He. induction rest as [|p rest IH]; cbn [List.find edit_phone_loop];
    [discriminate|].
  unfold is_phone at 1.
  destruct (str_eqb (Phone_value p) old_phone); intros H seen.
  - rewrite He. reflexivity.
  - apply IH. assumption.
Qed.

(** X8: when the old number is stored but the new one is not a valid
    phone, [edit_phone] raises the [ValueError] of [Phone] and the record is
    as before. *)
Theorem edit_phone_invalid_new (old_phone new_phone : str) (r : Record_) :
  find_phone old_phone r <> None ->
  (forall q, Phone_init new_phone <> Ok q) ->
  edit_phone old_phone new_phone r
  = (Raise (ValueError (py "Phone must be 10 digits.")), r).
Proof.
  intros Hold Hbad. unfold find_phone in Hold. fold (is_phone old_phone) in Hold.
  destruct (List.find (is_phone old_phone) (phones r)) as [p0|] eqn:F;
    [|congruence].
  destruct (Phone_init new_phone) as [q|e] eqn:E;
    [exfalso; eapply Hbad; reflexivity|].
  rewrite edit_phone_eq.
  rewrite (edit_phone_loop_invalid _ _ _ _ _ E F).
  rewrite (Phone_init_raises _ _ E). reflexivity.
Qed.

Lemma edit_phone_invalid_new_witness :
  edit_phone (py "0123456789") (py "12345") alice_two_phones
  = (Raise (ValueError (py "Phone must be 10 digits.")), alice_two_phones).
Proof.
  apply (edit_phone_invalid_new (py "0123456789") (py "12345")
           alice_two_phones).
  - discriminate.
  - intros q. vm_compute. discriminate.
Defined.

Lemma edit_phone_loop_Ok_inv (old_phone new_phone : str) (rest : list Phone) :
  forall seen ps,
    edit_phone_loop old_phone new_phone seen rest = Ok ps ->
    exists pre p0 post q,
      rest = pre ++ p0 :: post
      /\ List.find (is_phone old_phone) pre = None
      /\ Phone_value p0 = old_phone
      /\ Phone_init new_phone = Ok q
      /\ ps = seen ++ pre ++ q :: post.
Proof.
  induction rest as [|p rest IH]; intros seen ps; cbn [edit_phone_loop];
    [discriminate|].
  destruct (str_eqb (Phone_value p) old_phone) eqn:E.
  - destruct (Phone_init new_phone) as [q|] eqn:Q; [|discriminate].
    intros [= <-]. exists [], p, rest, q. repeat split.
    apply str_eqb_eq. assumption.
  - intros H. destruct (IH _ _ H) as (pre & p0 & post & q & -> & Hpre & Hv & Hq & ->).
    exists (p :: pre), p0, post, q. repeat split; try assumption.
    + cbn [List.find]. unfold is_phone at 1. rewrite E. assumption.
    + rewrite <- app_assoc. reflexivity.
Qed.

(** X9: [edit_phone] succeeds only when the old number is stored and the
    new one is valid; it then changes one phone and nothing else: as many
    phones as before, the same name and birthday. *)
Theorem edit_phone_success (old_phone new_phone : str) (r r' : Record_) :
  edit_phone old_phone new_phone r = (Ok tt, r') ->
  find_phone old_phone r <> None
  /\ Phone_init new_phone = Ok (mkPhone new_phone)
  /\ List.length (phones r') = List.length (phones r)
  /\ name r' = name r
  /\ birthday r' = birthday r.
Proof.
  rewrite edit_phone_eq.
  destruct (edit_phone_loop old_phone new_phone [] (phones r)) as [ps|] eqn:L;
    [|discriminate].
  intros [= <-].
  destruct (edit_phone_loop_Ok_inv _ _ _ _ _ L)
    as (pre & p0 & post & q & Hps & Hpre & Hv & Hq & ->).
  repeat split.
  - unfold find_phone. fold (is_phone old_phone).
    rewrite Hps, find_app_none by assumption. cbn [List.find].
    unfold is_phone at 1. rewrite Hv, str_eqb_refl. discriminate.
  - destruct (Phone_init_Ok_inv _ _ Hq) as [-> _]. assumption.
  - cbn [phones set_phones app]. rewrite Hps, !length_app. reflexivity.
Qed.

Lemma edit_phone_success_witness :
  find_phone (py "0123456789") alice_two_phones <> None
  /\ Phone_init (py "5556667778") = Ok (mkPhone (py "5556667778"))
  /\ List.length
       (phones (mkRecord (mkName (py "alice"))
                  [mkPhone (py "9998887776"); mkPhone (py "5556667778")]
                  None))
     = List.length (phones alice_two_phones)
  /\ name (mkRecord (mkName (py "alice"))
             [mkPhone (py "9998887776"); mkPhone (py "5556667778")] None)
     = name alice_two_phones
  /\ birthday (mkRecord (mkName (py "alice"))
                 [mkPhone (py "9998887776"); mkPhone (py "5556667778")] None)
     = birthday alice_two_phones.
Proof.
  apply (edit_phone_success (py "0123456789") (py "5556667778")
           alice_two_phones). reflexivity.
Defined.

(** X10: a valid number given to [add_phone] becomes the last phone of the
    record; [find_phone] finds it, and every number found before is found
    as before. An invalid number raises and changes nothing. *)
Theorem add_phone_find_phone (x : str) (r : Record_) :
  match Phone_init x with
  | Ok q =>
      add_phone x r = (Ok tt, mkRecord (name r) (phones r ++ [q]) (birthday r))
      /\ (exists p,
             find_phone x (mkRecord (name r) (phones r ++ [q]) (birthday r))
             = Some p
             /\ Phone_value p = x)
      /\ (forall y p,
             find_phone y r = Some p ->
             find_phone y (mkRecord (name r) (phones r ++ [q]) (birthday r))
             = Some p)
  | Raise e =>
      add_phone x r = (Raise (ValueError (py "Phone must be 10 digits.")), r)
  end.
Proof.
  rewrite add_phone_eq.
  destruct (Phone_init x) as [q|e] eqn:Q.
  - split; [reflexivity|]. split.
    + unfold find_phone. cbn [phones]. fold (is_phone x).
      destruct (List.find (is_phone x) (phones r)) as [p|] eqn:F.
      * exists p. split; [apply find_app_some; assumption|].
        eapply find_is_phone_value; eassumption.
      * exists q. rewrite find_app_none by assumption. cbn [List.find].
        destruct (Phone_init_Ok_inv _ _ Q) as [-> _].
        unfold is_phone. cbn. rewrite str_eqb_refl. auto.
    + intros y p. unfold find_phone. cbn [phones]. apply find_app_some.
  - rewrite (Phone_init_raises _ _ Q). reflexivity.
Qed.

(** ** Days until a birthday *)

Lemma is_leap_cases (y : Z) :
  (is_leap y = true /\ (y mod 4 = 0 /\ (y mod 100 <> 0 \/ y mod 400 = 0)))
  \/ (is_leap y = false /\ (y mod 4 <> 0 \/ (y mod 100 = 0 /\ y mod 400 <> 0))).
Proof.
  unfold is_leap.
  destruct (y mod 4 =? 0) eqn:E4; destruct (y mod 100 =? 0) eqn:E100;
    destruct (y mod 400 =? 0) eqn:E400; cbn;
    rewrite ?Z.eqb_eq, ?Z.eqb_neq in *; intuition auto.
Qed.

Lemma days_before_year_succ (y : Z) :
  days_before_year (y + 1)
  = days_before_year y + 365 + (if is_leap y then 1 else 0).
Proof.
  unfold days_before_year. cbv zeta.
  replace (y + 1 - 1) with y by lia.
  destruct (is_leap_cases y) as [[-> H]|[-> H]];
    Z.to_euclidean_division_equations; lia.
Qed.

Lemma month_cases (m : Z) :
  1 <= m <= 12 ->
  m = 1 \/ m = 2 \/ m = 3 \/ m = 4 \/ m = 5 \/ m = 6 \/ m = 7 \/ m = 8
  \/ m = 9 \/ m = 10 \/ m = 11 \/ m = 12.
Proof. lia. Qed.

Ltac each_month H :=
  destruct (month_cases _ H) as
    [->|[->|[->|[->|[->|[->|[->|[->|[->|[->|[->| ->]]]]]]]]]]].

Ltac month_tables :=
  repeat match goal with
         | |- context [nth (Z.to_nat ?m) ?l ?d] =>
             let v := eval vm_compute in (nth (Z.to_nat m) l d) in
             change (nth (Z.to_nat m) l d) with v
         | |- context [Z.eqb ?a ?b] =>
             let v := eval vm_compute in (Z.eqb a b) in
             change (Z.eqb a b) with v
         | |- context [Z.ltb ?a ?b] =>
             let v := eval vm_compute in (Z.ltb a b) in
             change (Z.ltb a b) with v
         end;
  cbn [andb].

Lemma day_of_year_bounds (y m d : Z) :
  1 <= m <= 12 -> 1 <= d <= days_in_month y m ->
  1 <= days_before_month y m + d <= 365 + (if is_leap y then 1 else 0).
Proof.
  intros Hm. unfold days_in_month, days_before_month.
  each_month Hm; destruct (is_leap y); month_tables; lia.
Qed.

Lemma same_year_order (y m1 d1 m2 d2 : Z) :
  1 <= m1 -> m1 < m2 -> m2 <= 12 ->
  d1 <= days_in_month y m1 -> 1 <= d2 ->
  days_before_month y m1 + d1 < days_before_month y m2 + d2.
Proof.
  intros H1 H12 H2.
  assert (Hm1 : 1 <= m1 <= 12) by lia. assert (Hm2 : 1 <= m2 <= 12) by lia.
  unfold days_in_month, days_before_month.
  each_month Hm1; each_month Hm2; try lia; destruct (is_leap y);
    month_tables; lia.
Qed.

(** The occurrence the loop computes is never before the reference date. *)
Lemma occurrence_not_before (today b : date) :
  valid today -> 1 <= month b <= 12 -> 1 <= day b ->
  0 <= sub_days (occurrence today b) today.
Proof.
  intros Ht Hm Hd. destruct (valid_fields today Ht) as (Hty & Htm & Htd).
  pose proof (day_of_year_bounds _ _ _ Htm Htd) as Hdoy.
  unfold occurrence. cbv zeta.
  destruct (ltb (mkdate (year today) (month b) (day b)) today) eqn:L;
    unfold sub_days, toordinal, ymd2ord; cbn [year month day].
  - rewrite days_before_year_succ.
    assert (0 <= days_before_month (year today + 1) (month b)).
    { unfold days_before_month.
      each_month Hm; destruct (is_leap (year today + 1)); month_tables; lia. }
    lia.
  - unfold ltb in L. cbn [year month day] in L.
    rewrite Z.ltb_irrefl, Z.eqb_refl in L. cbn [orb andb] in L.
    apply orb_false_iff in L. destruct L as [L1 L2].
    apply Z.ltb_ge in L1.
    destruct (Z.eq_dec (month b) (month today)) as [E|E].
    + rewrite E in *. rewrite Z.eqb_refl in L2. cbn [andb] in L2.
      apply Z.ltb_ge in L2. lia.
    + pose proof (same_year_order (year today) (month today) (day today)
                    (month b) (day b)). lia.
Qed.

(** What the loop computes for one birthday is never before the reference
    date. *)
Lemma days_until_birthday_not_before (today b this_year d : date) :
  valid today ->
  replace_year b (year today) = Ok this_year ->
  (if ltb this_year today then replace_year this_year (year today + 1)
   else Ok this_year) = Ok d ->
  d = occurrence today b /\ 0 <= sub_days d today.
Proof.
  intros Ht H1 H2. unfold replace_year in H1.
  apply new_Ok_inv in H1 as (-> & _ & Hm & Hd).
  pose proof (occurrence_not_before today b Ht Hm ltac:(lia)) as H.
  unfold occurrence in *. cbv zeta in *.
  destruct (ltb (mkdate (year today) (month b) (day b)) today).
  - unfold replace_year in H2. cbn [month day] in H2.
    apply new_Ok_inv in H2 as (-> & _). split; [reflexivity | assumption].
  - injection H2 as <-. split; [reflexivity | assumption].
Qed.

Lemma upcoming_loop_at_most_7_eq (today : date) (records : list Record_) :
  valid today ->
  forall acc,
    upcoming_loop today records acc
    = upcoming_loop_at_most_7 today records acc.
Proof.
  intros Ht. induction records as [|r records IH]; intros acc;
    cbn [upcoming_loop upcoming_loop_at_most_7]; [reflexivity|].
  destruct (birthday r) as [b|]; [|apply IH].
  destruct (replace_year (Birthday_value b) (year today)) as [d1|e1] eqn:E1;
    [|reflexivity].
  destruct (if ltb d1 today then replace_year d1 (year today + 1) else Ok d1)
    as [d2|e2] eqn:E2; [|reflexivity].
  cbv zeta.
  destruct (days_until_birthday_not_before _ _ _ _ Ht E1 E2) as [_ H].
  replace (0 <=? sub_days d2 today) with true
    by (symmetry; apply Z.leb_le; assumption).
  cbn [andb]. rewrite !IH. reflexivity.
Qed.

(** X11: for a reference date of the calendar, the number of days the loop
    of [get_upcoming_birthdays] computes for a birthday is never negative,
    so the test [0 <= days_until_birthday] never excludes anyone: the
    method returns (or raises) what the same loop without that test does,
    which lists a contact exactly when the occurrence is at most 7 days
    ahead. *)
Theorem days_until_birthday_not_negative (today : date)
  (book : AddressBook) :
  valid today ->
  get_upcoming_birthdays today book
  = upcoming_loop_at_most_7 today (map snd book) []
  /\ (forall b this_year birthday_this_year,
         replace_year b (year today) = Ok this_year ->
         (if ltb this_year today then replace_year this_year (year today + 1)
          else Ok this_year) = Ok birthday_this_year ->
         0 <= sub_days birthday_this_year today)
  /\ (forall b,
         valid b ->
         0 <= sub_days (occurrence today b) today
         /\ within_a_week today b
            = (sub_days (occurrence today b) today <=? 7)).
Proof.
  intros Ht. split; [|split].
  - unfold get_upcoming_birthdays. apply upcoming_loop_at_most_7_eq.
    assumption.
  - intros b d1 d2 E1 E2.
    apply (days_until_birthday_not_before _ _ _ _ Ht E1 E2).
  - intros b Hb. destruct (valid_fields b Hb) as (_ & Hm & Hd).
    pose proof (occurrence_not_before today b Ht Hm ltac:(lia)) as H.
    split; [assumption|]. unfold within_a_week. cbv zeta.
    replace (0 <=? sub_days (occurrence today b) today) with true
      by (symmetry; apply Z.leb_le; assumption).
    reflexivity.
Qed.

Lemma days_until_birthday_not_negative_witness :
  get_upcoming_birthdays d20240610 [(py "alice", alice_june_15)]
  = upcoming_loop_at_most_7 d20240610
      (map snd [(py "alice", alice_june_15)]) []
  /\ 0 <= sub_days (occurrence d20240610 d19900615) d20240610.
Proof.
  pose proof (days_until_birthday_not_negative d20240610
                [(py "alice", alice_june_15)] eq_refl) as [H1 [_ H3]].
  split; [exact H1|]. apply (H3 d19900615). reflexivity.
Defined.

Lemma occurrence_today (today b : date) :
  month b = month today -> day b = day today -> occurrence today b = today.
Proof.
  intros Hm Hd. unfold occurrence. cbv zeta. rewrite Hm, Hd.
  replace (mkdate (year today) (month today) (day today)) with today
    by (destruct today; reflexivity).
  unfold ltb. rewrite !Z.ltb_irrefl, !Z.eqb_refl. reflexivity.
Qed.

(** X12: in a book without leap-day birthdays, a contact whose birthday
    falls on the reference date is listed, with the reference date as the
    day to congratulate. *)
Theorem birthday_today_is_listed (today : date) (book : AddressBook)
  (key : str) (r : Record_) (b : Birthday) :
  valid today -> year today < 9999 ->
  Forall no_leap_day (map snd book) ->
  In (key, r) book -> birthday r = Some b ->
  month (Birthday_value b) = month today ->
  day (Birthday_value b) = day today ->
  exists l,
    get_upcoming_birthdays today book = Ok l
    /\ In (mkUpcoming (Name_value (name r)) (strftime today)) l.
Proof.
  intros Ht Hy Hall Hin Hb Hm Hd.
  exists (expected_upcoming today (map snd book)). split.
  - unfold get_upcoming_birthdays.
    rewrite upcoming_loop_expected by assumption. reflexivity.
  - unfold expected_upcoming. apply in_flat_map. exists r. split.
    + change r with (snd (key, r)). apply in_map. assumption.
    + rewrite Hb. unfold within_a_week. cbv zeta.
      rewrite (occurrence_today today _ Hm Hd).
      unfold sub_days. rewrite Z.sub_diag. cbn. left. reflexivity.
Qed.

Lemma birthday_today_is_listed_witness :
  exists l,
    get_upcoming_birthdays (mkdate 2024 6 15) [(py "alice", alice_june_15)]
    = Ok l
    /\ In (mkUpcoming (Name_value (name alice_june_15))
             (strftime (mkdate 2024 6 15))) l.
Proof.
  apply (birthday_today_is_listed (mkdate 2024 6 15)
           [(py "alice", alice_june_15)] (py "alice") alice_june_15
           (mkBirthday d19900615)).
  - reflexivity.
  - cbn. lia.
  - repeat constructor. cbn. intros [H _]. discriminate.
  - left. reflexivity.
  - reflexivity.
  - reflexivity.
  - reflexivity.
Defined.

Lemma get_upcoming_birthdays_expected_witness :
  get_upcoming_birthdays d20240610
    [(py "alice", alice_june_15); (py "bob", bob_no_birthday)]
  = Ok (expected_upcoming d20240610
          (map snd [(py "alice", alice_june_15); (py "bob", bob_no_birthday)])).
Proof.
  apply (get_upcoming_birthdays_expected d20240610
           [(py "alice", alice_june_15); (py "bob", bob_no_birthday)]).
  - reflexivity.
  - cbn. lia.
  - repeat constructor. cbn. intros [H _]. discriminate.
Defined.

Lemma upcoming_loop_no_birthdays (today : date) (records : list Record_) :
  Forall (fun r => birthday r = None) records ->
  forall acc, upcoming_loop today records acc = Ok acc.
Proof.
  intros H. induction H as [|r records Hr H IH]; intros acc;
    cbn [upcoming_loop]; [reflexivity|].
  rewrite Hr. apply IH.
Qed.

(** X13: when no contact has a birthday (an empty book among them), and
    whatever the reference date, [get_upcoming_birthdays] returns the empty
    list and the [birthdays] command answers that there are none, leaving
    the book as it is. *)
Theorem birthdays_without_birthdays (today : date) (args : list str)
  (book : AddressBook) :
  Forall (fun r => birthday r = None) (map snd book) ->
  get_upcoming_birthdays today book = Ok []
  /\ birthdays today args book
     = (py "No upcoming birthdays in the next week.", book).
Proof.
  intros H.
  assert (E : get_upcoming_birthdays today book = Ok [])
    by (apply upcoming_loop_no_birthdays; assumption).
  split; [assumption|].
  unfold birthdays, input_error, birthdays_body, bind, get, lift, ret.
  rewrite E. reflexivity.
Qed.

Lemma birthdays_without_birthdays_witness :
  get_upcoming_birthdays d20230610 [(py "bob", bob_no_birthday)] = Ok []
  /\ birthdays d20230610 [] [(py "bob", bob_no_birthday)]
     = (py "No upcoming birthdays in the next week.",
        [(py "bob", bob_no_birthday)]).
Proof.
  apply (birthdays_without_birthdays d20230610 [] [(py "bob", bob_no_birthday)]).
  repeat constructor.
Defined.

(** ** The messages of [Birthday] *)

(** X14: a text of the shape DD.MM.YYYY whose day does not exist in its
    month (31.02.2024, 30.02.2023, 31.04.2023) is refused with the message
    of the date library, "day is out of range for month", not with
    "Invalid date format", whatever the current date. *)
Theorem Birthday_init_impossible_day (today : date) (d m y : Z) :
  1 <= d <= 31 -> 1 <= m <= 12 -> 1 <= y <= 9999 ->
  days_in_month y m < d ->
  Birthday_init today (dmY d m y)
  = Raise (ValueError (py "day is out of range for month")).
Proof.
  intros Hd Hm Hy Hdim. unfold Birthday_init.
  rewrite strptime_dmY by lia. unfold new, MINYEAR, MAXYEAR.
  replace ((1 <=? y) && (y <=? 9999)) with true by lia.
  replace ((1 <=? m) && (m <=? 12)) with true by lia.
  replace ((1 <=? d) && (d <=? days_in_month y m)) with false by lia.
  reflexivity.
Qed.

Lemma Birthday_init_impossible_day_witness :
  Birthday_init d20240610 (dmY 31 2 2024)
  = Raise (ValueError (py "day is out of range for month")).
Proof.
  apply (Birthday_init_impossible_day d20240610 31 2 2024);
    vm_compute; intuition discriminate.
Defined.

Lemma rmatch_Cat_Chr (r K : re) (c : N) (s : str) (f : found) :
  In f (rmatch (Cat r (Cat (Chr c) K)) s) -> In c s.
Proof.
  destruct f as [[caps text] rest]. cbn [rmatch].
  rewrite in_flat_map. intros ([[caps1 text1] rest1] & H1 & H2).
  rewrite in_map_iff in H2.
  destruct H2 as ([[caps2 text2] rest2] & _ & H2).
  rewrite in_flat_map in H2. destruct H2 as ([[caps3 text3] rest3] & H3 & _).
  rewrite (rmatch_splits _ _ _ _ _ H1). apply in_or_app. right.
  destruct rest1 as [|x rest1]; cbn [one_char] in H3; [destruct H3|].
  destruct (N.eqb c x) eqn:E; [|destruct H3].
  apply N.eqb_eq in E. subst. left. reflexivity.
Qed.

(** X15: a text without a dot (the empty text, a date written with dashes
    or slashes) is refused with "Invalid date format. Use DD.MM.YYYY",
    whatever the current date. *)
Theorem Birthday_init_without_dot (today : date) (s : str) :
  ~ In (chr ".") s ->
  Birthday_init today s
  = Raise (ValueError (py "Invalid date format. Use DD.MM.YYYY")).
Proof.
  intros Hdot. unfold Birthday_init, strptime.
  destruct (rmatch format_regex s) as [|f l] eqn:E.
  - change (py "time data ") with (py "time data" ++ py " ").
    rewrite <- app_assoc, contains_app. reflexivity.
  - exfalso. apply Hdot. unfold format_regex in E.
    eapply (rmatch_Cat_Chr (Grp g_d re_d) _ (chr ".") s f).
    rewrite E. left. reflexivity.
Qed.

Lemma Birthday_init_without_dot_witness :
  Birthday_init d20240610 (py "1990-06-15")
  = Raise (ValueError (py "Invalid date format. Use DD.MM.YYYY")).
Proof.
  apply (Birthday_init_without_dot d20240610 (py "1990-06-15")).
  vm_compute. intuition discriminate.
Defined.

(** ** The handlers and their arguments *)

Lemma show_phone_body_eq (n : str) (rest : list str) (book : AddressBook) :
  show_phone_body (n :: rest) book =
  match find n book with
  | Some record =>
      let phones_ := join (py ", ") (map Phone_value (phones record)) in
      (Ok (if is_empty phones_ then n ++ py ": No phones"
           else n ++ py ": " ++ phones_), book)
  | None => (Ok (py "Contact not found."), book)
  end.
Proof.
  unfold show_phone_body.
  rewrite (len_lt_false (n :: rest) 1) by (cbn [List.length]; lia).
  unfold bind, lift, get, getitem, ret. cbn [nth_error].
  destruct (find n book) as [record|]; [|reflexivity].
  cbv zeta. destruct (is_empty _); reflexivity.
Qed.

Lemma show_birthday_body_eq (n : str) (rest : list str)
  (book : AddressBook) :
  show_birthday_body (n :: rest) book =
  match find n book with
  | Some record => (Ok (n ++ py "'s birthday: " ++ show_birthday record), book)
  | None => (Ok (py "Contact not found."), book)
  end.
Proof.
  unfold show_birthday_body.
  rewrite (len_lt_false (n :: rest) 1) by (cbn [List.length]; lia).
  unfold bind, lift, get, getitem, ret. cbn [nth_error].
  destruct (find n book) as [record|]; reflexivity.
Qed.

(** X16: [add], [phone], [add-birthday] and [show-birthday] look at their
    first arguments only and ignore any further ones; [change] with more
    than three arguments reports the failed unpacking and leaves the
    book. *)
Theorem extra_arguments (today : date) (a b c d : str) (rest : list str)
  (book : AddressBook) :
  add_contact (a :: b :: rest) book = add_contact [a; b] book
  /\ show_phone (a :: rest) book = show_phone [a] book
  /\ add_birthday_cmd today (a :: b :: rest) book
     = add_birthday_cmd today [a; b] book
  /\ show_birthday_cmd (a :: rest) book = show_birthday_cmd [a] book
  /\ change_contact (a :: b :: c :: d :: rest) book
     = (py "Error: too many values to unpack (expected 3)", book).
Proof.
  unfold add_contact, show_phone, add_birthday_cmd, show_birthday_cmd,
    change_contact, input_error.
  rewrite !add_contact_body_eq, !show_phone_body_eq, !add_birthday_body_eq,
    !show_birthday_body_eq, change_contact_body_eq.
  repeat split.
Qed.

(** X17: with too few arguments every handler answers with its own line
    and leaves the book; the [IndexError] clause of the decorator is never
    reached. *)
Theorem missing_arguments (today : date) (a b : str) (book : AddressBook) :
  add_contact [] book = (py "Error: Please provide name and phone.", book)
  /\ add_contact [a] book = (py "Error: Please provide name and phone.", book)
  /\ change_contact [] book
     = (py "Error: Please provide name, old phone and new phone.", book)
  /\ change_contact [a] book
     = (py "Error: Please provide name, old phone and new phone.", book)
  /\ change_contact [a; b] book
     = (py "Error: Please provide name, old phone and new phone.", book)
  /\ show_phone [] book = (py "Error: Please provide name.", book)
  /\ add_birthday_cmd today [] book
     = (py "Error: Please provide name and birthday.", book)
  /\ add_birthday_cmd today [a] book
     = (py "Error: Please provide name and birthday.", book)
  /\ show_birthday_cmd [] book = (py "Error: Please provide name.", book).
Proof. repeat split. Qed.

(** X18: for a name that is not in the book, [change], [phone],
    [add-birthday] and [show-birthday] answer "Contact not found." (a plain
    line, no exception is raised) and leave the book; the other arguments
    are not looked at, valid or not. *)
Theorem unknown_contact (today : date) (n b c : str) (book : AddressBook) :
  find n book = None ->
  change_contact [n; b; c] book = (py "Contact not found.", book)
  /\ show_phone [n] book = (py "Contact not found.", book)
  /\ add_birthday_cmd today [n; b] book = (py "Contact not found.", book)
  /\ show_birthday_cmd [n] book = (py "Contact not found.", book).
Proof.
  intros F.
  unfold show_phone, add_birthday_cmd, show_birthday_cmd, change_contact,
    input_error.
  rewrite show_phone_body_eq, add_birthday_body_eq, show_birthday_body_eq,
    change_contact_body_eq, F.
  repeat split.
Qed.

Lemma unknown_contact_witness :
  change_contact [py "carol"; py "1"; py "2"] [(py "bob", bob_no_birthday)]
  = (py "Contact not found.", [(py "bob", bob_no_birthday)])
  /\ show_phone [py "carol"] [(py "bob", bob_no_birthday)]
     = (py "Contact not found.", [(py "bob", bob_no_birthday)])
  /\ add_birthday_cmd d20240610 [py "carol"; py "1"]
       [(py "bob", bob_no_birthday)]
     = (py "Contact not found.", [(py "bob", bob_no_birthday)])
  /\ show_birthday_cmd [py "carol"] [(py "bob", bob_no_birthday)]
     = (py "Contact not found.", [(py "bob", bob_no_birthday)]).
Proof.
  apply (unknown_contact d20240610 (py "carol") (py "1") (py "2")
           [(py "bob", bob_no_birthday)]).
  reflexivity.
Defined.

Lemma join_last_not_empty (sep x : str) (l : list str) :
  x <> [] -> is_empty (join sep (l ++ [x])) = false.
Proof.
  intros Hx. induction l as [|a l IH]; cbn [app join].
  - destruct x; [congruence | reflexivity].
  - destruct (l ++ [x]) as [|y t] eqn:E; [destruct l; discriminate|].
    destruct (join sep (y :: t)) as [|c u]; [discriminate IH|].
    destruct a; [destruct sep|]; reflexivity.
Qed.

(** X19: after [add] with a valid phone, [phone] for that name lists the
    phones the contact had before, in their order, and the new one last. *)
Theorem add_then_phone (n phone : str) (q : Phone) (book : AddressBook) :
  Phone_init phone = Ok q ->
  fst (show_phone [n] (snd (add_contact [n; phone] book)))
  = n ++ py ": "
    ++ join (py ", ")
         (map Phone_value
            (match find n book with
             | Some record => phones record
             | None => []
             end ++ [q])).
Proof.
  intros Hq.
  assert (Hne : is_empty phone = false).
  { destruct (Phone_init_Ok_inv _ _ Hq) as (_ & Hl & _).
    destruct phone; [discriminate Hl | reflexivity]. }
  assert (Hqne : Phone_value q <> []).
  { destruct (Phone_init_Ok_inv _ _ Hq) as (-> & Hl & _).
    destruct phone; [discriminate Hl | discriminate]. }
  unfold show_phone, add_contact, input_error.
  rewrite add_contact_body_eq, Hne, Hq.
  destruct (find n book) as [record|] eqn:F; cbn [snd];
    rewrite show_phone_body_eq; unfold find; rewrite !dict_get_set,
      str_eqb_refl; cbv zeta; cbn [phones set_phones Record_init fst app].
  - rewrite map_app. cbn [map].
    rewrite join_last_not_empty by assumption. reflexivity.
  - cbn [map].
    pose proof (join_last_not_empty (py ", ") (Phone_value q) [] Hqne) as E.
    cbn [app] in E. rewrite E. reflexivity.
Qed.

Lemma add_then_phone_witness :
  fst (show_phone [py "alice"]
         (snd (add_contact [py "alice"; py "5556667778"]
                 [(py "alice", alice_one_phone)])))
  = py "alice" ++ py ": "
    ++ join (py ", ")
         (map Phone_value
            (match find (py "alice") [(py "alice", alice_one_phone)] with
             | Some record => phones record
             | None => []
             end ++ [mkPhone (py "5556667778")])).
Proof.
  apply (add_then_phone (py "alice") (py "5556667778")
           (mkPhone (py "5556667778")) [(py "alice", alice_one_phone)]).
  reflexivity.
Defined.

(** X20: after a successful [add-birthday], [show-birthday] prints the
    date [strptime] read, as [strftime] prints it with the format
    [%d.%m.%Y], however the text was written (1.6.1990 is shown as
    01.06.1990): the day and the month on two digits and the year without
    padding, which from the year 1000 on is DD.MM.YYYY. *)
Theorem add_birthday_then_show (today : date) (n s : str) (d : date)
  (record : Record_) (book : AddressBook) :
  find n book = Some record ->
  strptime s = Ok d ->
  gtb d today = false ->
  fst (add_birthday_cmd today [n; s] book)
  = py "Birthday added for " ++ n ++ py "."
  /\ fst (show_birthday_cmd [n] (snd (add_birthday_cmd today [n; s] book)))
     = n ++ py "'s birthday: " ++ strftime d
  /\ strftime d
     = two_digits (day d) ++ py "." ++ two_digits (month d) ++ py "."
       ++ str_of_int (year d)
  /\ (1000 <= year d ->
      fst (show_birthday_cmd [n] (snd (add_birthday_cmd today [n; s] book)))
      = n ++ py "'s birthday: " ++ dmY (day d) (month d) (year d)).
Proof.
  intros F Hs Hd.
  pose proof (Birthday_init_past today s d Hs Hd) as Hb.
  destruct (Birthday_init_Ok_inv _ _ _ Hb) as (Hv & _).
  destruct (valid_fields _ Hv) as (Hy & _). cbn [Birthday_value] in Hy.
  unfold add_birthday_cmd, show_birthday_cmd, input_error.
  rewrite add_birthday_body_eq, F, Hb.
  split; [reflexivity|]. cbn [snd].
  rewrite show_birthday_body_eq. unfold find.
  rewrite dict_get_set, str_eqb_refl.
  split; [reflexivity|]. split; [reflexivity|].
  intros H1000. rewrite <- strftime_dmY by lia. reflexivity.
Qed.

Lemma add_birthday_then_show_witness :
  fst (add_birthday_cmd d20240610 [py "bob"; py "1.6.1990"]
         [(py "bob", bob_no_birthday)])
  = py "Birthday added for " ++ py "bob" ++ py "."
  /\ fst (show_birthday_cmd [py "bob"]
            (snd (add_birthday_cmd d20240610 [py "bob"; py "1.6.1990"]
                    [(py "bob", bob_no_birthday)])))
     = py "bob" ++ py "'s birthday: " ++ py "01.06.1990".
Proof.
  pose proof (add_birthday_then_show d20240610 (py "bob") (py "1.6.1990")
                (mkdate 1990 6 1) bob_no_birthday
                [(py "bob", bob_no_birthday)] eq_refl eq_refl eq_refl)
    as (H1 & H2 & _).
  split; [exact H1 | exact H2].
Defined.

(** X21: [add] with an empty text for the phone validates nothing and
    never fails: an unknown name gets a record without phones, a known name
    keeps its record untouched. *)
Theorem add_contact_empty_phone (n : str) (rest : list str)
  (book : AddressBook) :
  add_contact (n :: [] :: rest) book =
  match find n book with
  | None => (py "Contact added.", book ++ [(n, Record_init n)])
  | Some _ => (py "Contact updated.", book)
  end.
Proof.
  unfold add_contact, input_error. rewrite add_contact_body_eq.
  destruct (find n book) eqn:F; cbn [is_empty]; [reflexivity|].
  rewrite (dict_set_absent n _ book F). reflexivity.
Qed.

(** X22: for a contact of the book, [change] does what [edit_phone] does
    to its record: on success it answers "Phone number updated." and the
    edited record is in the place of the old one; on failure it answers
    "Error: " and the message, and the book is as before. *)
Theorem change_contact_edits (n old_phone new_phone : str) (record : Record_)
  (book : AddressBook) :
  find n book = Some record ->
  change_contact [n; old_phone; new_phone] book =
  match edit_phone old_phone new_phone record with
  | (Ok _, record') =>
      (py "Phone number updated.", dict_set n record' book)
  | (Raise e, _) => (error_line e, book)
  end.
Proof.
  intros F. unfold change_contact, input_error.
  rewrite change_contact_body_eq, F, edit_phone_eq.
  destruct (edit_phone_loop old_phone new_phone [] (phones record)) as [ps|e]
    eqn:L; [reflexivity|].
  rewrite (dict_set_same n record book F).
  destruct (edit_phone_loop_raises_ValueError _ _ _ _ _ L) as [msg ->].
  reflexivity.
Qed.

Lemma change_contact_edits_witness :
  change_contact [py "alice"; py "0123456789"; py "5556667778"]
    [(py "alice", alice_one_phone)]
  = match edit_phone (py "0123456789") (py "5556667778") alice_one_phone with
    | (Ok _, record') =>
        (py "Phone number updated.",
         dict_set (py "alice") record' [(py "alice", alice_one_phone)])
    | (Raise e, _) => (error_line e, [(py "alice", alice_one_phone)])
    end.
Proof.
  apply (change_contact_edits (py "alice") (py "0123456789")
           (py "5556667778") alice_one_phone
           [(py "alice", alice_one_phone)]).
  reflexivity.
Defined.

(** ** Reading a line *)

Lemma no_space_app (a b : str) :
  no_space (a ++ b) = no_space a && no_space b.
Proof. apply forallb_app. Qed.

Lemma split_loop_words (s : str) :
  forall word,
    no_space word = true ->
    Forall (fun w => w <> [] /\ no_space w = true) (split_loop s word).
Proof.
  induction s as [|c s IH]; intros word Hw; cbn [split_loop].
  - destruct word; cbn [is_empty]; constructor; [|constructor].
    split; [discriminate | assumption].
  - destruct (Unicode.isspace c) eqn:Ec.
    + destruct word as [|x word]; cbn [is_empty]; [apply IH; reflexivity|].
      constructor; [split; [discriminate | assumption]|].
      apply IH. reflexivity.
    + apply IH. rewrite no_space_app, Hw. unfold no_space.
      cbn [forallb andb]. rewrite Ec. reflexivity.
Qed.

Lemma split_loop_spaces (sp : str) (word : str) :
  forallb Unicode.isspace sp = true ->
  split_loop sp word = if is_empty word then [] else [word].
Proof.
  revert word. induction sp as [|c sp IH]; intros word; cbn [split_loop forallb];
    [reflexivity|].
  rewrite andb_true_iff. intros [-> H].
  destruct word; cbn [is_empty]; rewrite IH by assumption; reflexivity.
Qed.

Lemma split_loop_trailing (s sp : str) :
  forallb Unicode.isspace sp = true ->
  forall word, split_loop (s ++ sp) word = split_loop s word.
Proof.
  intros Hsp. induction s as [|c s IH]; intros word; cbn [app split_loop].
  - apply split_loop_spaces. assumption.
  - rewrite !IH. reflexivity.
Qed.

Lemma split_lstrip (s : str) : split (lstrip s) = split s.
Proof.
  unfold split. induction s as [|c s IH]; cbn [lstrip split_loop];
    [reflexivity|].
  destruct (Unicode.isspace c) eqn:Ec; [assumption|].
  cbn [split_loop]. rewrite Ec. reflexivity.
Qed.

Lemma lstrip_spaces (s : str) :
  exists sp, forallb Unicode.isspace sp = true /\ s = sp ++ lstrip s.
Proof.
  induction s as [|c s (sp & Hsp & IH)]; [exists []; auto|].
  cbn [lstrip]. destruct (Unicode.isspace c) eqn:Ec.
  - exists (c :: sp). cbn [forallb app]. rewrite Ec, Hsp, <- IH. auto.
  - exists []. auto.
Qed.

Lemma split_strip (s : str) : split (strip s) = split s.
Proof.
  rewrite <- (split_lstrip s). unfold strip.
  destruct (lstrip_spaces (rev (lstrip s))) as (sp & Hsp & E).
  assert (E' : lstrip s = rev (lstrip (rev (lstrip s))) ++ rev sp).
  { rewrite <- rev_app_distr, <- E, rev_involutive. reflexivity. }
  rewrite E' at 2. unfold split. rewrite split_loop_trailing; [reflexivity|].
  rewrite forallb_forall in *. intros c Hc. apply Hsp, in_rev. assumption.
Qed.

Lemma split_loop_word (w s : str) :
  no_space w = true ->
  forall word, split_loop (w ++ s) word = split_loop s (word ++ w).
Proof.
  induction w as [|c w IH]; intros Hw word; cbn [app split_loop].
  - rewrite app_nil_r. reflexivity.
  - change (no_space (c :: w))
      with (negb (Unicode.isspace c) && no_space w) in Hw.
    apply andb_true_iff in Hw. destruct Hw as [Hc Hw].
    apply negb_true_iff in Hc. rewrite Hc, IH by assumption.
    rewrite <- app_assoc. reflexivity.
Qed.

Lemma split_loop_leading (sp s : str) :
  forallb Unicode.isspace sp = true ->
  split_loop (sp ++ s) [] = split_loop s [].
Proof.
  induction sp as [|c sp IH]; cbn [app forallb split_loop]; [reflexivity|].
  rewrite andb_true_iff. intros [-> H]. cbn [is_empty]. auto.
Qed.

Lemma words_of_space (c : N) (s : str) (ws : list str) :
  Unicode.isspace c = true -> words_of s ws -> words_of (c :: s) ws.
Proof.
  intros Hc H. destruct H as [sp Hsp|sp w rest ws Hsp Hne Hw Hrest H].
  - apply words_none. cbn [forallb]. rewrite Hc, Hsp. reflexivity.
  - apply (words_more (c :: sp) w rest ws); try assumption.
    cbn [forallb]. rewrite Hc, Hsp. reflexivity.
Qed.

Lemma split_loop_words_of (s : str) :
  forall word,
    no_space word = true -> words_of (word ++ s) (split_loop s word).
Proof.
  induction s as [|c s IH]; intros word Hw; cbn [split_loop].
  - destruct word as [|x word]; cbn [is_empty].
    + apply words_none. reflexivity.
    + apply (words_more [] (x :: word) [] []);
        [reflexivity | discriminate | assumption | left; reflexivity
        | apply words_none; reflexivity].
  - destruct (Unicode.isspace c) eqn:Ec.
    + pose proof (words_of_space c s _ Ec (IH [] eq_refl)) as Hrest.
      destruct word as [|x word]; cbn [is_empty]; [exact Hrest|].
      apply (words_more [] (x :: word) (c :: s) (split_loop s []));
        [reflexivity | discriminate | assumption | right; eauto
        | exact Hrest].
    + replace (word ++ c :: s) with ((word ++ [c]) ++ s)
        by (rewrite <- app_assoc; reflexivity).
      apply IH. rewrite no_space_app, Hw. unfold no_space.
      cbn [forallb andb]. rewrite Ec. reflexivity.
Qed.

Lemma words_of_split (s : str) (ws : list str) :
  words_of s ws -> ws = split s.
Proof.
  intros H. unfold split.
  induction H as [sp Hsp|sp w rest ws Hsp Hne Hw Hrest H IH].
  - rewrite split_loop_spaces by assumption. reflexivity.
  - rewrite split_loop_leading, split_loop_word by assumption.
    cbn [app]. destruct Hrest as [->|(c & rest' & -> & Hc)].
    + cbn [split_loop] in *. destruct w; [congruence|].
      cbn [is_empty]. rewrite IH. reflexivity.
    + cbn [split_loop] in *. rewrite Hc in *. cbn [is_empty] in IH.
      destruct w; [congruence|]. cbn [is_empty]. rewrite IH. reflexivity.
Qed.

(** X23: [parse_input] returns the words of the line, and nothing else
    is: the line is white space, a first word, white space, the next word
    and so on, where a word is a maximal run of characters that are not
    white space. No word is empty and no word has white space in it; the
    [strip()] before [split()] changes nothing. *)
Theorem parse_input_words (user_input : str) :
  Forall (fun w => w <> [] /\ no_space w = true) (parse_input user_input)
  /\ parse_input user_input = split user_input
  /\ words_of user_input (parse_input user_input)
  /\ (forall ws, words_of user_input ws -> ws = parse_input user_input).
Proof.
  unfold parse_input. rewrite split_strip. split; [|split; [|split]].
  - apply split_loop_words. reflexivity.
  - reflexivity.
  - apply (split_loop_words_of user_input []). reflexivity.
  - apply words_of_split.
Qed.

(** X24: words without white space, joined by single spaces, are read back
    by [parse_input] as they were. *)
Theorem parse_input_join (words : list str) :
  Forall (fun w => w <> [] /\ no_space w = true) words ->
  parse_input (join (py " ") words) = words.
Proof.
  intros H. unfold parse_input. rewrite split_strip. unfold split.
  induction H as [|x l [Hx Hs] Hl IH]; [reflexivity|].
  destruct l as [|y l].
  - change (join (py " ") [x]) with x.
    rewrite <- (app_nil_r x) at 1. rewrite split_loop_word by assumption.
    cbn. destruct x; [congruence | reflexivity].
  - change (join (py " ") (x :: y :: l))
      with (x ++ 32%N :: join (py " ") (y :: l)).
    rewrite split_loop_word by assumption.
    remember (join (py " ") (y :: l)) as t eqn:Et.
    cbn [app split_loop].
    change (Unicode.isspace 32) with true. cbv iota.
    destruct x; [congruence|]. cbn [is_empty]. rewrite IH. reflexivity.
Qed.

Lemma parse_input_join_witness :
  parse_input (join (py " ") [py "add"; py "alice"; py "0123456789"])
  = [py "add"; py "alice"; py "0123456789"].
Proof.
  apply (parse_input_join [py "add"; py "alice"; py "0123456789"]).
  repeat constructor; discriminate.
Defined.

Lemma split_loop_nil (s : str) :
  forall word,
    split_loop s word = []
    <-> (word = [] /\ forallb Unicode.isspace s = true).
Proof.
  induction s as [|c s IH]; intros word; cbn [split_loop forallb].
  - destruct word; cbn [is_empty]; split; try tauto; try discriminate.
    intros [H _]. discriminate.
  - destruct (Unicode.isspace c) eqn:Ec; cbn [andb].
    + destruct word; cbn [is_empty].
      * rewrite IH. tauto.
      * split; [discriminate | intros [H _]; discriminate].
    + rewrite IH. split; [|intros [_ H]; discriminate].
      intros [H _]. destruct word; discriminate.
Qed.

(** X25: the statement [command, *args = parse_input(user_input)] of
    [main], which no handler surrounds, raises [ValueError] exactly for the
    lines that are empty or made of white space only; for every other line
    it gives a command word that is not empty and has no white space. *)
Theorem unpack_command_blank_line (user_input : str) :
  (forallb Unicode.isspace user_input = true ->
   unpack_command (parse_input user_input)
   = Raise (ValueError
              (py "not enough values to unpack (expected at least 1, got 0)")))
  /\ (forallb Unicode.isspace user_input = false ->
      exists command_ args,
        unpack_command (parse_input user_input) = Ok (command_, args)
        /\ command_ <> [] /\ no_space command_ = true).
Proof.
  unfold parse_input. rewrite split_strip. unfold split. split.
  - intros H.
    replace (split_loop user_input []) with (@nil str); [reflexivity|].
    symmetry. apply split_loop_nil. auto.
  - intros H.
    pose proof (split_loop_words user_input [] eq_refl) as Hw.
    destruct (split_loop user_input []) as [|w l] eqn:E.
    + apply split_loop_nil in E. destruct E as [_ E]. congruence.
    + inversion Hw as [|? ? [Hne Hns] _]; subst.
      exists w, l. auto.
Qed.

Lemma unpack_command_blank_line_witness :
  unpack_command (parse_input (py "   "))
  = Raise (ValueError
             (py "not enough values to unpack (expected at least 1, got 0)"))
  /\ exists command_ args,
       unpack_command (parse_input (py " add alice 0123456789 "))
       = Ok (command_, args)
       /\ command_ <> [] /\ no_space command_ = true.
Proof.
  split.
  - apply (proj1 (unpack_command_blank_line (py "   "))). reflexivity.
  - apply (proj2 (unpack_command_blank_line (py " add alice 0123456789 "))).
    reflexivity.
Defined.

Example parse_input_samples :
  parse_input (py "  add   alice 0123456789 ")
  = [py "add"; py "alice"; py "0123456789"]
  /\ parse_input (py "") = []
  /\ parse_input ([32; 160; 8195; 97; 9; 98; 12288]%N) = [[97%N]; [98%N]].
Proof. vm_compute. repeat split. Qed.

(** ** Leap days in leap years *)

Lemma is_leap_next (y : Z) : is_leap y = true -> is_leap (y + 1) = false.
Proof.
  intros H.
  destruct (is_leap_cases y) as [[_ Hy]|[E _]]; [|congruence].
  destruct (is_leap_cases (y + 1)) as [[_ Hy1]|[E1 _]]; [|assumption].
  exfalso. destruct Hy as [Hy _]. destruct Hy1 as [Hy1 _].
  revert Hy Hy1. Z.to_euclidean_division_equations. lia.
Qed.

Lemma upcoming_loop_raises_on (today : date) (records : list Record_)
  (r : Record_) (b : Birthday) :
  In r records -> birthday r = Some b ->
  (forall d1,
      replace_year (Birthday_value b) (year today) = Ok d1 ->
      ltb d1 today = true
      /\ exists e, replace_year d1 (year today + 1) = Raise e) ->
  forall acc, exists msg,
    upcoming_loop today records acc = Raise (ValueError msg).
Proof.
  intros Hin Hb Hstep.
  induction records as [|r0 records IH]; [destruct Hin|].
  intros acc.
  destruct (upcoming_loop today (r0 :: records) acc) as [l|e] eqn:E;
    [|destruct (upcoming_loop_raises_ValueError _ _ _ _ E) as [msg ->]; eauto].
  exfalso. cbn [upcoming_loop] in E.
  destruct Hin as [<-|Hin].
  - rewrite Hb in E.
    destruct (replace_year (Birthday_value b) (year today)) as [d1|] eqn:E1;
      [|discriminate].
    destruct (Hstep d1 eq_refl) as (Hlt & e & He).
    rewrite Hlt, He in E. discriminate.
  - assert (Hrest : forall acc', upcoming_loop today records acc' <> Ok l).
    { intros acc' H'. destruct (IH Hin acc') as [msg Hmsg]. congruence. }
    destruct (birthday r0) as [b0|]; [|eapply Hrest; eassumption].
    destruct (replace_year (Birthday_value b0) (year today)); [|discriminate].
    destruct (if ltb a today then replace_year a (year today + 1) else Ok a);
      [|discriminate].
    destruct ((0 <=? sub_days a0 today) && (sub_days a0 today <=? 7));
      eapply Hrest; eassumption.
Qed.

(** X26: a leap-day birthday also makes [get_upcoming_birthdays] raise in a
    leap year, once 29 February has passed: the occurrence is moved to the
    next year, which is no leap year. *)
Theorem get_upcoming_birthdays_after_leap_day
  (today : date) (book : AddressBook) (key : str) (r : Record_)
  (b : Birthday) :
  In (key, r) book -> birthday r = Some b ->
  month (Birthday_value b) = 2 -> day (Birthday_value b) = 29 ->
  is_leap (year today) = true ->
  ltb (mkdate (year today) 2 29) today = true ->
  exists msg, get_upcoming_birthdays today book = Raise (ValueError msg).
Proof.
  intros Hin Hb Hm Hd Hy Hlt. unfold get_upcoming_birthdays.
  apply (upcoming_loop_raises_on today (map snd book) r b);
    [change r with (snd (key, r)); apply in_map; assumption | assumption |].
  intros d1 H1. unfold replace_year in H1. rewrite Hm, Hd in H1.
  destruct (new_Ok_inv _ _ _ _ H1) as (-> & _).
  split; [assumption|].
  destruct (replace_year_leap_day (mkdate (year today) 2 29) (year today + 1)
              eq_refl eq_refl (is_leap_next _ Hy)) as [msg Hmsg].
  eauto.
Qed.

Lemma get_upcoming_birthdays_after_leap_day_witness :
  exists msg,
    get_upcoming_birthdays (mkdate 2024 3 1) [(py "bob", bob_leap_day)]
    = Raise (ValueError msg).
Proof.
  apply (get_upcoming_birthdays_after_leap_day (mkdate 2024 3 1)
           [(py "bob", bob_leap_day)] (py "bob") bob_leap_day
           (mkBirthday (mkdate 2000 2 29)));
    [left; reflexivity | reflexivity ..].
Defined.
